(** * BookReader: navigation and viewport coordinator

    A shallow embedding of the parts of [src/BookReader.js] that own what is
    currently shown (mode, first index, reduction factor), that step through
    reduction factors, and that map the view state to and from the URL
    fragment.

    Conventions of the embedding.
    - A JavaScript number is a rational ([Q]) or NaN; page indices and mode
      constants are integers ([Z]).  A subtraction of numbers rounds its
      result as binary64 arithmetic does ([Num.round]); comparisons are
      exact.  Infinity and the sign of zero are outside the model.
    - A JavaScript string is the list of its bytes in UTF-8 ([string]).
    - [undefined] is [None] (or the dedicated constructor of a value type).
    - A method of [BookReader.prototype] is a function from the viewer to a
      completion and the viewer it leaves behind; the viewer survives a
      throw, as it does in JavaScript.
    - Calls that leave the coordinator (events, renderers, navbar) are
      recorded, in order, in the viewer's [effects]. *)

From Stdlib Require Import ZArith QArith Qabs Bool List String Ascii Lia Lqa Sorted.
From Stdlib Require Decimal DecimalString DecimalZ Floats.
Import ListNotations.

(** ** Completions *)

Inductive Exn :=
| Error (msg : string)          (* throw new Error(msg) *)
| TypeError (msg : string)      (* property access on undefined *)
| URIError (msg : string)       (* malformed escape sequence *)
| ThrownString (msg : string).  (* throw 'some text' *)

Inductive Completion (A : Type) :=
| Return (a : A)
| Throw (e : Exn).

Arguments Return {A} a.
Arguments Throw {A} e.

Definition bindC {A B} (c : Completion A) (k : A -> Completion B) : Completion B :=
  match c with
  | Return a => k a
  | Throw e => Throw e
  end.

Declare Scope completion_scope.
Delimit Scope completion_scope with compl.
Notation "'let*' x := c 'in' k" := (bindC c (fun x => k))
  (at level 10, x name, c at level 100, k at level 200) : completion_scope.

(** ** Numbers *)

Inductive Num :=
| Finite (q : Q)
| NaN.

Definition Qltb (x y : Q) : bool := negb (Qle_bool y x).

Module Num.
(** [2 ^ e], for an exponent of either sign *)
Definition pow2 (e : Z) : Q := 2 ^ Z.max 0 e # Z.to_pos (2 ^ Z.max 0 (- e)).

(** The rounding of binary64 arithmetic: to the nearest number of 53
    significant bits, and of two nearest ones to the one whose last bit is
    even.  [k] is the binary exponent of [q], [2 ^ k <= |q| < 2 ^ (k + 1)],
    [num / den] is [|q| / 2 ^ (k - 52)], and [m] the 53 bit significand of
    the result.  The exponent is not bounded: the numbers the model
    subtracts are binary64 numbers, whose difference is a multiple of the
    least subnormal number and so is rounded as here as long as it is
    finite. *)
Definition round (q : Q) : Q :=
  let n := Qnum q in
  let d := Z.pos (Qden q) in
  if (n =? 0)%Z then 0
  else
    let a := Z.abs n in
    let k0 := (Z.log2 a - Z.log2 d)%Z in
    let k :=
      if (a * 2 ^ Z.max 0 (- k0) <? d * 2 ^ Z.max 0 k0)%Z
      then (k0 - 1)%Z else k0 in
    let e := (k - 52)%Z in
    let num := (a * 2 ^ Z.max 0 (- e))%Z in
    let den := (d * 2 ^ Z.max 0 e)%Z in
    let m := (num / den)%Z in
    let twice := (2 * (num mod den))%Z in
    let m :=
      if (twice <? den)%Z then m
      else if (den <? twice)%Z then (m + 1)%Z
      else if Z.even m then m else (m + 1)%Z in
    inject_Z (Z.sgn n * m) * pow2 e.

(** [a - b], rounded *)
Definition sub (a b : Num) : Num :=
  match a, b with
  | Finite x, Finite y => Finite (round (x - y))
  | _, _ => NaN
  end.

(** [Math.abs(a)] *)
Definition abs (a : Num) : Num :=
  match a with
  | Finite x => Finite (Qabs x)
  | NaN => NaN
  end.

(** [a < b]; a comparison with NaN is false *)
Definition lt (a b : Num) : bool :=
  match a, b with
  | Finite x, Finite y => Qltb x y
  | _, _ => false
  end.

(** ToNumber of a number or undefined *)
Definition ofOption (v : option Q) : Num :=
  match v with
  | Some q => Finite q
  | None => NaN
  end.
End Num.

(** ** Reduction factors *)

(** [ReductionFactor] of [BookReader/options.js]: [{reduce, autofit}];
    a missing [autofit] is [None]. *)
Record ReductionFactor := {
  reduce : Q;
  autofit : option string
}.

(** [rf.autofit == tag] for a string [tag] *)
Definition autofitIs (tag : string) (rf : ReductionFactor) : bool :=
  match autofit rf with
  | Some a => String.eqb a tag
  | None => false
  end.

(** The loop of [quantizeReduce], from index 1 on. *)
Fixpoint quantizeScan (reduce0 : Num) (quantized : Q) (distance : Num)
    (rest : list ReductionFactor) : Q :=
  match rest with
  | [] => quantized
  | rf :: rest' =>
      let newDistance := Num.abs (Num.sub reduce0 (Finite (reduce rf))) in
      if Num.lt newDistance distance
      then quantizeScan reduce0 (reduce rf) newDistance rest'
      else quantizeScan reduce0 quantized distance rest'
  end.

(** [BookReader.prototype.quantizeReduce] *)
Definition quantizeReduce (reduce0 : Num) (reductionFactors : list ReductionFactor)
  : Completion Q :=
  match reductionFactors with
  | [] => Throw (TypeError "Cannot read properties of undefined (reading 'reduce')")
  | rf0 :: rest =>
      let quantized := reduce rf0 in
      let distance := Num.abs (Num.sub reduce0 (Finite quantized)) in
      Return (quantizeScan reduce0 quantized distance rest)
  end.

(** The ascending loop of direction 'in'; [i] is the index of the head of
    [rest]. *)
Fixpoint scanIn (currentReduce : Num) (i : nat) (rest : list ReductionFactor)
    (newReduceIndex : nat) : nat :=
  match rest with
  | [] => newReduceIndex
  | rf :: rest' =>
      scanIn currentReduce (S i) rest'
        (if Num.lt (Finite (reduce rf)) currentReduce then i else newReduceIndex)
  end.

(** The descending loop of direction 'out' over the factors from the last
    to the first; the head of [revd] has index [length (tl revd)]. *)
Fixpoint scanOut (currentReduce : Num) (revd : list ReductionFactor)
    (newReduceIndex : Z) : Z :=
  match revd with
  | [] => newReduceIndex
  | rf :: more =>
      scanOut currentReduce more
        (if Num.lt currentReduce (Finite (reduce rf))
         then Z.of_nat (List.length more) else newReduceIndex)
  end.

(** [array[i]] for an integer [i]; undefined out of range *)
Definition at_index {A} (l : list A) (i : Z) : option A :=
  if (i <? 0)%Z then None else nth_error l (Z.to_nat i).

(** The candidate loop of direction 'auto'. *)
Fixpoint chooseLeastReduction (choice : option ReductionFactor)
    (candidates : list ReductionFactor) : option ReductionFactor :=
  match candidates with
  | [] => choice
  | c :: more =>
      chooseLeastReduction
        (match choice with
         | None => Some c
         | Some ch => if Qltb (reduce ch) (reduce c) then Some c else choice
         end) more
  end.

(** [BookReader.prototype.nextReduce]; [None] is undefined. *)
Definition nextReduce (currentReduce : Num) (direction : string)
    (reductionFactors : list ReductionFactor) : option ReductionFactor :=
  if String.eqb direction "in" then
    nth_error reductionFactors (scanIn currentReduce 1 (tl reductionFactors) 0)
  else if String.eqb direction "out" then
    let lastIndex := (Z.of_nat (List.length reductionFactors) - 1)%Z in
    at_index reductionFactors (scanOut currentReduce (rev reductionFactors) lastIndex)
  else
    let fallback := nth_error reductionFactors 0 in
    if String.eqb direction "auto" then
      match find (autofitIs "auto") reductionFactors with
      | Some autoMatch => Some autoMatch
      | None =>
          let candidates :=
            filter (fun rf => autofitIs "height" rf || autofitIs "width" rf)
                   reductionFactors in
          match chooseLeastReduction None candidates with
          | Some choice => Some choice
          | None => fallback
          end
      end
    else if String.eqb direction "height" || String.eqb direction "width" then
      match find (autofitIs direction) reductionFactors with
      | Some match_ => Some match_
      | None => fallback
      end
    else fallback.

(** [BookReader.prototype._reduceSort], the comparator the factor lists are
    sorted with: [a.reduce - b.reduce], rounded. *)
Definition _reduceSort (a b : ReductionFactor) : Q :=
  Num.round (reduce a - reduce b).

Definition sortedByReduce (l : list ReductionFactor) : Prop :=
  StronglySorted (fun a b => _reduceSort a b <= 0) l.

(** ** Strings *)

Module Str.
Local Open Scope string_scope.

(** [s.split(sep)] for a one-character separator *)
Fixpoint split (sep : ascii) (s : string) : list string :=
  match s with
  | "" => [""]
  | String c rest =>
      if Ascii.eqb c sep then "" :: split sep rest
      else match split sep rest with
           | [] => [String c ""]
           | tok :: toks => String c tok :: toks
           end
  end.

(** [l.join(sep)] *)
Definition join (sep : string) (l : list string) : string := String.concat sep l.

(** [s.replace(/c/g, by)] for a single character [c] *)
Fixpoint replaceChar (c : ascii) (by_ : string) (s : string) : string :=
  match s with
  | "" => ""
  | String a rest =>
      if Ascii.eqb a c then by_ ++ replaceChar c by_ rest
      else String a (replaceChar c by_ rest)
  end.

(** [s.replace(/%20/g, '+')] *)
Fixpoint replacePercent20 (s : string) : string :=
  match s with
  | String "%" (String "2" (String "0" rest)) => String "+" (replacePercent20 rest)
  | String a rest => String a (replacePercent20 rest)
  | "" => ""
  end.

(** [String(n)] for an integer [n] *)
Definition ofZ (n : Z) : string := DecimalString.NilZero.string_of_int (Z.to_int n).

(** [/^\d+$/.exec(s)], then [parseInt] of the match: the value of a
    non-empty string of decimal digits, NaN ([None]) for any other
    string. *)
Definition parseAllDigits (s : string) : option Z :=
  match s with
  | "" => None
  | _ => option_map Z.of_uint (DecimalString.NilEmpty.uint_of_string s)
  end.

Definition truthy (s : option string) : bool :=
  match s with
  | Some (String _ _) => true
  | _ => false
  end.

(** Every character of [s] satisfies [p]. *)
Fixpoint forallb (p : ascii -> bool) (s : string) : bool :=
  match s with
  | "" => true
  | String c rest => p c && forallb p rest
  end.

(** [\d] *)
Definition isDigit (c : ascii) : bool :=
  ((48 <=? N_of_ascii c) && (N_of_ascii c <=? 57))%N.
End Str.

(** ** URI components

    [encodeURIComponent] and [decodeURIComponent] of ECMAScript, on the
    UTF-8 bytes of the string. *)

Module URI.
Local Open Scope N_scope.

Definition hexValue (c : ascii) : option N :=
  let n := N_of_ascii c in
  if (48 <=? n) && (n <=? 57) then Some (n - 48)
  else if (65 <=? n) && (n <=? 70) then Some (n - 55)
  else if (97 <=? n) && (n <=? 102) then Some (n - 87)
  else None.

Definition hexChar (n : N) : ascii :=
  if n <? 10 then ascii_of_N (48 + n) else ascii_of_N (55 + n).

(** The two hexadecimal digits after a '%'. *)
Definition hexOctet (s : string) : option (N * string) :=
  match s with
  | String h (String l rest) =>
      match hexValue h, hexValue l with
      | Some hv, Some lv => Some (16 * hv + lv, rest)
      | _, _ => None
      end
  | _ => None
  end.

(** [k] further escapes ["%XX"] *)
Fixpoint escapes (k : nat) (s : string) : option (list N * string) :=
  match k with
  | O => Some ([], s)
  | S k' =>
      match s with
      | String "%" rest =>
          match hexOctet rest with
          | Some (b, rest') =>
              match escapes k' rest' with
              | Some (bs, rest'') => Some (b :: bs, rest'')
              | None => None
              end
          | None => None
          end
      | _ => None
      end
  end.

(** The number of octets that follow a leading octet [b >= 128]: the
    count of its leading 1 bits, less one; [None] for a count of 1 or of
    more than 4. *)
Definition continuations (b : N) : option nat :=
  if b <? 192 then None
  else if b <? 224 then Some 1%nat
  else if b <? 240 then Some 2%nat
  else if b <? 248 then Some 3%nat
  else None.

Definition between (lo b hi : N) : bool := (lo <=? b) && (b <=? hi).

(** The octets are the UTF-8 encoding of one code point. *)
Definition validUtf8 (octets : list N) : bool :=
  match octets with
  | [b0; b1] => between 194 b0 223 && between 128 b1 191
  | [b0; b1; b2] =>
      ((b0 =? 224) && between 160 b1 191
       || between 225 b0 236 && between 128 b1 191
       || (b0 =? 237) && between 128 b1 159
       || between 238 b0 239 && between 128 b1 191)
      && between 128 b2 191
  | [b0; b1; b2; b3] =>
      ((b0 =? 240) && between 144 b1 191
       || between 241 b0 243 && between 128 b1 191
       || (b0 =? 244) && between 128 b1 143)
      && between 128 b2 191 && between 128 b3 191
  | _ => false
  end.

Definition ofOctets (octets : list N) (tail : string) : string :=
  fold_right (fun b acc => String (ascii_of_N b) acc) tail octets.

Local Open Scope completion_scope.

Fixpoint decodeFrom (fuel : nat) (s : string) : Completion string :=
  match fuel with
  | O => Return ""%string
  | S fuel' =>
      match s with
      | EmptyString => Return ""%string
      | String "%" rest =>
          match hexOctet rest with
          | None => Throw (URIError "URI malformed")
          | Some (b, rest1) =>
              if b <? 128 then
                let* r := decodeFrom fuel' rest1 in
                Return (String (ascii_of_N b) r)
              else
                match continuations b with
                | None => Throw (URIError "URI malformed")
                | Some k =>
                    match escapes k rest1 with
                    | None => Throw (URIError "URI malformed")
                    | Some (bs, rest2) =>
                        if validUtf8 (b :: bs) then
                          let* r := decodeFrom fuel' rest2 in
                          Return (ofOctets (b :: bs) r)
                        else Throw (URIError "URI malformed")
                    end
                end
          end
      | String c rest =>
          let* r := decodeFrom fuel' rest in
          Return (String c r)
      end
  end.

(** [decodeURIComponent(s)] *)
Definition decodeURIComponent (s : string) : Completion string :=
  decodeFrom (String.length s) s.

Definition unreserved (c : ascii) : bool :=
  let n := N_of_ascii c in
  between 48 n 57 || between 65 n 90 || between 97 n 122
  || existsb (N.eqb n) [45; 95; 46; 33; 126; 42; 39; 40; 41].

(** [encodeURIComponent(s)] *)
Fixpoint encodeURIComponent (s : string) : string :=
  match s with
  | EmptyString => EmptyString
  | String c rest =>
      if unreserved c then String c (encodeURIComponent rest)
      else let n := N_of_ascii c in
           String "%" (String (hexChar (n / 16)) (String (hexChar (n mod 16))
             (encodeURIComponent rest)))
  end.

(** Modelled from the spec: [utils.decodeURIComponentPlus] of
    [BookReader/utils.js], which is not among the sources: the
    "plus-aware URL decoding" of a search term, where '+' is a space. *)
Definition decodeURIComponentPlus (value : string) : Completion string :=
  let* d := decodeURIComponent value in
  Return (Str.replaceChar "+" " " d).

(** Modelled from the spec: [utils.encodeURIComponentPlus] of
    [BookReader/utils.js], which is not among the sources: the
    "plus-encoded term", where a space is written '+'. *)
Definition encodeURIComponentPlus (value : string) : string :=
  Str.replacePercent20 (encodeURIComponent value).
End URI.

(** ** Mode values *)

(** The mode constants. *)
Definition constMode1up : Z := 1.
Definition constMode2up : Z := 2.
Definition constModeThumb : Z := 3.

(** What [this.mode], [params.mode] or the resolved argument of
    [switchMode] can hold: never a string. *)
Inductive ModeVal :=
| MUndefined
| MNull
| MNum (n : Z)
| MInherited (key : string).  (* a member inherited from Object.prototype *)

(** What callers pass to [switchMode]: [number | '1up' | '2up' | 'thumb'],
    or any other string. *)
Inductive ModeArg :=
| ArgValue (v : ModeVal)
| ArgString (s : string).

Module Mode.
Local Open Scope string_scope.

(** [!!v] *)
Definition truthy (v : ModeVal) : bool :=
  match v with
  | MUndefined | MNull => false
  | MNum n => negb (n =? 0)%Z
  | MInherited _ => true
  end.

(** [v == k] for a number [k] *)
Definition looseEqNum (v : ModeVal) (k : Z) : bool :=
  match v with
  | MNum n => (n =? k)%Z
  | _ => false
  end.

(** [a === b] *)
Definition strictEq (a b : ModeVal) : bool :=
  match a, b with
  | MUndefined, MUndefined => true
  | MNull, MNull => true
  | MNum x, MNum y => (x =? y)%Z
  | MInherited x, MInherited y => String.eqb x y
  | _, _ => false
  end.

(** [a == b] *)
Definition looseEq (a b : ModeVal) : bool :=
  match a, b with
  | (MUndefined | MNull), (MUndefined | MNull) => true
  | _, _ => strictEq a b
  end.

(** [String(v)] *)
Definition toString (v : ModeVal) : string :=
  match v with
  | MUndefined => "undefined"
  | MNull => "null"
  | MNum n => Str.ofZ n
  | MInherited key =>
      if String.eqb key "__proto__" then "[object Object]"
      else "function " ++ key ++ "() { [native code] }"
  end.

(** The property names every object literal inherits. *)
Definition objectPrototypeKeys : list string :=
  ["constructor"; "hasOwnProperty"; "isPrototypeOf"; "propertyIsEnumerable";
   "toLocaleString"; "toString"; "valueOf"; "__proto__";
   "__defineGetter__"; "__defineSetter__"; "__lookupGetter__"; "__lookupSetter__"].

(** [{'1up': 1, '2up': 2, 'thumb': 3}[s]] *)
Definition ofString (s : string) : ModeVal :=
  if String.eqb s "1up" then MNum constMode1up
  else if String.eqb s "2up" then MNum constMode2up
  else if String.eqb s "thumb" then MNum constModeThumb
  else if existsb (String.eqb s) objectPrototypeKeys then MInherited s
  else MUndefined.
End Mode.

(** ** Params *)

Module Params.
Record t := {
  index : option Z;
  page : option string;
  mode : ModeVal;
  search : option string;
  theme : option string;
  init : option bool;
  pageFound : option bool;
  fragmentChange : option bool
}.

(** [{}] *)
Definition empty : t :=
  {| index := None; page := None; mode := MUndefined; search := None;
     theme := None; init := None; pageFound := None; fragmentChange := None |}.

Definition orElse {A} (new old : option A) : option A :=
  match new with
  | Some _ => new
  | None => old
  end.

(** [$.extend(target, source)]: every property of [source] that is not
    undefined is copied onto [target]. *)
Definition extend (target source : t) : t :=
  {| index := orElse (index source) (index target);
     page := orElse (page source) (page target);
     mode := match mode source with MUndefined => mode target | m => m end;
     search := orElse (search source) (search target);
     theme := orElse (theme source) (theme target);
     init := orElse (init source) (init target);
     pageFound := orElse (pageFound source) (pageFound target);
     fragmentChange := orElse (fragmentChange source) (fragmentChange target) |}.

Definition isSome {A} (o : option A) : nat :=
  match o with Some _ => 1 | None => 0 end.

(** [Object.keys(params).length] *)
Definition keysLength (p : t) : nat :=
  isSome (index p) + isSome (page p)
  + (match mode p with MUndefined => 0 | _ => 1 end)
  + isSome (search p) + isSome (theme p)
  + isSome (init p) + isSome (pageFound p) + isSome (fragmentChange p).

Definition setIndex (v : option Z) (p : t) : t :=
  {| index := v; page := page p; mode := mode p; search := search p;
     theme := theme p; init := init p; pageFound := pageFound p;
     fragmentChange := fragmentChange p |}.
Definition setPage (v : option string) (p : t) : t :=
  {| index := index p; page := v; mode := mode p; search := search p;
     theme := theme p; init := init p; pageFound := pageFound p;
     fragmentChange := fragmentChange p |}.
Definition setMode (v : ModeVal) (p : t) : t :=
  {| index := index p; page := page p; mode := v; search := search p;
     theme := theme p; init := init p; pageFound := pageFound p;
     fragmentChange := fragmentChange p |}.
Definition setSearch (v : option string) (p : t) : t :=
  {| index := index p; page := page p; mode := mode p; search := v;
     theme := theme p; init := init p; pageFound := pageFound p;
     fragmentChange := fragmentChange p |}.
Definition setTheme (v : option string) (p : t) : t :=
  {| index := index p; page := page p; mode := mode p; search := search p;
     theme := v; init := init p; pageFound := pageFound p;
     fragmentChange := fragmentChange p |}.
Definition setInit (v : option bool) (p : t) : t :=
  {| index := index p; page := page p; mode := mode p; search := search p;
     theme := theme p; init := v; pageFound := pageFound p;
     fragmentChange := fragmentChange p |}.
Definition setPageFound (v : option bool) (p : t) : t :=
  {| index := index p; page := page p; mode := mode p; search := search p;
     theme := theme p; init := init p; pageFound := v;
     fragmentChange := fragmentChange p |}.
Definition setFragmentChange (v : option bool) (p : t) : t :=
  {| index := index p; page := page p; mode := mode p; search := search p;
     theme := theme p; init := init p; pageFound := pageFound p;
     fragmentChange := v |}.
End Params.

(** ** The fragment codec *)

(** The object [urlHash]: the pairs assigned so far, the latest first.
    A key without a value ([urlArray[i + 1]] past the end) holds
    undefined.  None of the keys read below is inherited from
    [Object.prototype]. *)
Definition UrlHash := list (string * option string).

(** [for (i = 0; i < urlArray.length; i += 2) urlHash[urlArray[i]] = urlArray[i + 1]] *)
Fixpoint fillUrlHash (urlArray : list string) (urlHash : UrlHash) : UrlHash :=
  match urlArray with
  | [] => urlHash
  | [key] => (key, None) :: urlHash
  | key :: value :: rest => fillUrlHash rest ((key, Some value) :: urlHash)
  end.

(** [urlHash[key]] *)
Fixpoint urlHashGet (key : string) (urlHash : UrlHash) : option string :=
  match urlHash with
  | [] => None
  | (k, v) :: older => if String.eqb k key then v else urlHashGet key older
  end.

(** [urlHash[key] == token] *)
Definition urlHashIs (urlHash : UrlHash) (key token : string) : bool :=
  match urlHashGet key urlHash with
  | Some v => String.eqb token v
  | None => false
  end.

(** The fragment without its initial '#'. *)
Definition stripHash (fragment : string) : string :=
  match fragment with
  | String "#" rest => rest
  | _ => fragment
  end.

Local Open Scope string_scope.
Local Open Scope completion_scope.

(** The second half of [paramsFromFragment]: the keys read from
    [urlHash]. *)
Definition paramsFromUrlHash (urlHash : UrlHash) : Completion Params.t :=
  let params := Params.empty in
  let params :=
    if urlHashIs urlHash "mode" "1up" then Params.setMode (MNum constMode1up) params
    else if urlHashIs urlHash "mode" "2up" then Params.setMode (MNum constMode2up) params
    else if urlHashIs urlHash "mode" "thumb" then Params.setMode (MNum constModeThumb) params
    else params in
  let* params :=
    match urlHashGet "page" urlHash with
    | Some v => let* d := URI.decodeURIComponent v in
                Return (Params.setPage (Some d) params)
    | None => Return params
    end in
  let* params :=
    match urlHashGet "search" urlHash with
    | Some v => let* d := URI.decodeURIComponentPlus v in
                Return (Params.setSearch (Some d) params)
    | None => Return params
    end in
  match urlHashGet "theme" urlHash with
  | Some v => Return (Params.setTheme (Some v) params)
  | None => Return params
  end.

(** [BookReader.prototype.paramsFromFragment] *)
Definition paramsFromFragment (fragment : string) : Completion Params.t :=
  let fragment := stripHash fragment in
  match Str.parseAllDigits fragment with
  | Some oldStyleLeafNum =>
      Return (Params.setIndex (Some oldStyleLeafNum) Params.empty)
  | None =>
      let urlArray := Str.split "/" fragment in
      paramsFromUrlHash (fillUrlHash urlArray [])
  end.

(** [BookReader.prototype.fragmentFromParams] *)
Definition fragmentFromParams (params : Params.t) (urlMode : string)
  : Completion string :=
  let fragments :=
    match Params.page params with
    | Some pg => ["page"; URI.encodeURIComponent pg]
    | None =>
        match Params.index params with
        | Some i => ["page"; "n" ++ Str.ofZ i]
        | None => []
        end
    end in
  let* fragments :=
    match Params.mode params with
    | MUndefined => Return fragments
    | m =>
        if Mode.looseEqNum m constMode1up then Return (fragments ++ ["mode"; "1up"])%list
        else if Mode.looseEqNum m constMode2up then Return (fragments ++ ["mode"; "2up"])%list
        else if Mode.looseEqNum m constModeThumb then Return (fragments ++ ["mode"; "thumb"])%list
        else Throw (ThrownString
                      ("fragmentFromParams called with unknown mode " ++ Mode.toString m))
    end in
  let fragments :=
    if Str.truthy (Params.search params) && String.eqb urlMode "hash"
    then (fragments ++ ["search"; URI.encodeURIComponentPlus
                                    (match Params.search params with Some s => s | None => "" end)])%list
    else fragments in
  Return (Str.join "/" fragments).

(** ** The book *)

Module Page.
(** What the viewer reads of a [PageModel].  [unviewablesStart] is the
    index at which the unviewable run of the page starts, and [None] where
    the page has none (undefined; a start of null is not represented).
    The viewer reads it of a page that is not viewable only, and the
    properties of a jump are stated of books whose pages that are not
    viewable have a number there. *)
Record t := {
  index : Z;
  isViewable : bool;
  unviewablesStart : option Z
}.
End Page.

(** [BookModel] is not among the sources; the viewer reaches the book
    through these methods.  [findNext page] stands for
    [page.findNext({ combineConsecutiveUnviewables: true })];
    [parsePageString] answers [None] for undefined or NaN, and
    [leafNumToIndex] answers [None] when there is no such leaf. *)
Record BookModel := {
  getNumLeafs : Z;
  getPage : Z -> Page.t;
  findNext : Page.t -> option Page.t;
  parsePageString : string -> option Z;
  leafNumToIndex : Z -> option Z
}.

(** [BookReader.prototype.extendParams]: the merged [params]. *)
Definition extendParams (book : BookModel) (params newParams : Params.t) : Params.t :=
  let modifiedNewParams := Params.extend Params.empty newParams in
  let modifiedNewParams :=
    match Params.page modifiedNewParams with
    | Some pg =>
        let pageIndex := parsePageString book pg in
        let modifiedNewParams :=
          match pageIndex with
          | Some i => Params.setIndex (Some i) modifiedNewParams
          | None => modifiedNewParams
          end in
        Params.setPage None modifiedNewParams
    | None => modifiedNewParams
    end in
  Params.extend params modifiedNewParams.

(** ** The viewer *)

Inductive Renderer := Mode1Up | Mode2Up | ModeThumb.

(** Calls that leave the coordinator. *)
Inductive Effect :=
| Triggered (eventName : string)
| Unprepare (r : Renderer)
| Prepare (r : Renderer)
| RendererJumpToIndex (r : Renderer) (index : Z) (pageX pageY : option Q)
    (noAnimate : option bool)
| UpdateNavIndexThrottled (index : Z)
| StopPageFlip.

Module SearchPlugin.
Record t := {
  options_enabled : bool;
  options_goToFirstResult : option bool;
  options_initialSearchTerm : option string;
  initialSearchTerm : option string;
  searchTerm : option string
}.
End SearchPlugin.

Module ResumePlugin.
Record t := {
  options_enabled : bool;
  getResumeValue : option Z   (* null is [None] *)
}.
End ResumePlugin.

Module BR.
(** The options the modelled methods read. *)
Record Options := {
  defaults : option string;
  titleLeaf : option Z;
  reductionFactors : list ReductionFactor;
  enableUrlPlugin : bool;
  urlMode : string
}.

(** What the viewer reads from the page it lives in: the location, the
    fragment readers of the URL plugin, and
    [new URLSearchParams(queryString).get(name)]. *)
Record Env := {
  location_search : string;
  location_hash : string;
  urlReadFragment : string;
  urlReadHashFragment : string;
  searchParamsGet : string -> string -> option string
}.

Record Plugins := {
  search : option SearchPlugin.t;
  resume : option ResumePlugin.t;
  textSelection : bool
}.

Record t := {
  options : Options;
  env : Env;
  book : BookModel;
  plugins : Plugins;
  mode : ModeVal;
  prevReadMode : ModeVal;
  firstIndex : option Z;          (* null is [None] *)
  reduce : option Q;
  pageScale : option Q;
  displayedIndices : option (list Z);
  suppressFragmentChange : bool;
  initComplete : bool;            (* this.init.initComplete *)
  effects : list Effect
}.

Definition setPlugins (v : Plugins) (br : t) : t :=
  {| options := options br; env := env br; book := book br; plugins := v;
     mode := mode br; prevReadMode := prevReadMode br; firstIndex := firstIndex br;
     reduce := reduce br; pageScale := pageScale br;
     displayedIndices := displayedIndices br;
     suppressFragmentChange := suppressFragmentChange br;
     initComplete := initComplete br; effects := effects br |}.
Definition setMode (v : ModeVal) (br : t) : t :=
  {| options := options br; env := env br; book := book br; plugins := plugins br;
     mode := v; prevReadMode := prevReadMode br; firstIndex := firstIndex br;
     reduce := reduce br; pageScale := pageScale br;
     displayedIndices := displayedIndices br;
     suppressFragmentChange := suppressFragmentChange br;
     initComplete := initComplete br; effects := effects br |}.
Definition setPrevReadMode (v : ModeVal) (br : t) : t :=
  {| options := options br; env := env br; book := book br; plugins := plugins br;
     mode := mode br; prevReadMode := v; firstIndex := firstIndex br;
     reduce := reduce br; pageScale := pageScale br;
     displayedIndices := displayedIndices br;
     suppressFragmentChange := suppressFragmentChange br;
     initComplete := initComplete br; effects := effects br |}.
Definition setFirstIndex (v : option Z) (br : t) : t :=
  {| options := options br; env := env br; book := book br; plugins := plugins br;
     mode := mode br; prevReadMode := prevReadMode br; firstIndex := v;
     reduce := reduce br; pageScale := pageScale br;
     displayedIndices := displayedIndices br;
     suppressFragmentChange := suppressFragmentChange br;
     initComplete := initComplete br; effects := effects br |}.
Definition setReduce (v : option Q) (br : t) : t :=
  {| options := options br; env := env br; book := book br; plugins := plugins br;
     mode := mode br; prevReadMode := prevReadMode br; firstIndex := firstIndex br;
     reduce := v; pageScale := pageScale br;
     displayedIndices := displayedIndices br;
     suppressFragmentChange := suppressFragmentChange br;
     initComplete := initComplete br; effects := effects br |}.
Definition setSuppressFragmentChange (v : bool) (br : t) : t :=
  {| options := options br; env := env br; book := book br; plugins := plugins br;
     mode := mode br; prevReadMode := prevReadMode br; firstIndex := firstIndex br;
     reduce := reduce br; pageScale := pageScale br;
     displayedIndices := displayedIndices br;
     suppressFragmentChange := v;
     initComplete := initComplete br; effects := effects br |}.
Definition setInitComplete (v : bool) (br : t) : t :=
  {| options := options br; env := env br; book := book br; plugins := plugins br;
     mode := mode br; prevReadMode := prevReadMode br; firstIndex := firstIndex br;
     reduce := reduce br; pageScale := pageScale br;
     displayedIndices := displayedIndices br;
     suppressFragmentChange := suppressFragmentChange br;
     initComplete := v; effects := effects br |}.
Definition setEffects (v : list Effect) (br : t) : t :=
  {| options := options br; env := env br; book := book br; plugins := plugins br;
     mode := mode br; prevReadMode := prevReadMode br; firstIndex := firstIndex br;
     reduce := reduce br; pageScale := pageScale br;
     displayedIndices := displayedIndices br;
     suppressFragmentChange := suppressFragmentChange br;
     initComplete := initComplete br; effects := v |}.

Definition perform (e : Effect) (br : t) : t :=
  setEffects (effects br ++ [e])%list br.

Definition setSearch (v : SearchPlugin.t) (br : t) : t :=
  setPlugins {| search := Some v; resume := resume (plugins br);
                textSelection := textSelection (plugins br) |} br.
End BR.

(** A method: the completion, and the viewer afterwards. *)
Definition Method (A : Type) : Type := BR.t -> Completion A * BR.t.

(** Modelled from the spec: the table [EVENTS] of [BookReader/events.js],
    which is not among the sources.  The event names of the
    publish/subscribe contract are [stop], [fragmentChange], [pageChanged],
    [userAction], [resize], [PostInit], [fullscreenToggled] and
    ["<mode>PageViewSelected"] for the three modes; any other key is
    undefined. *)
Definition eventNames (key : string) : option string :=
  if existsb (String.eqb key)
       ["stop"; "fragmentChange"; "pageChanged"; "userAction"; "resize";
        "PostInit"; "fullscreenToggled";
        "1PageViewSelected"; "2PageViewSelected"; "3PageViewSelected"]
  then Some key else None.

(** [BookReader.prototype.trigger]: the event ['BookReader:' + name]
    dispatched on the window and on the document. *)
Definition trigger (name : option string) (br : BR.t) : BR.t :=
  let eventName :=
    "BookReader:" ++ match name with Some n => n | None => "undefined" end in
  BR.perform (Triggered eventName) br.

(** The getter [activeMode]: [{1: mode1Up, 2: mode2Up, 3: modeThumb}[this.mode]] *)
Definition activeMode (br : BR.t) : option Renderer :=
  match BR.mode br with
  | MNum 1 => Some Mode1Up
  | MNum 2 => Some Mode2Up
  | MNum 3 => Some ModeThumb
  | _ => None
  end.

(** Modelled from the spec: [utils.clamp] of [BookReader/utils.js], which
    is not among the sources: the value "clamped to [min, max]". *)
Definition clamp (value min max : Z) : Z := Z.min (Z.max value min) max.

(** [BookReader.prototype.currentIndex]; a null [firstIndex] counts as 0
    under [clamp]. *)
Definition currentIndex (br : BR.t) : Completion (option Z) :=
  if Mode.looseEqNum (BR.mode br) constMode1up
     || Mode.looseEqNum (BR.mode br) constModeThumb then
    Return (BR.firstIndex br)
  else if Mode.looseEqNum (BR.mode br) constMode2up then
    Return (Some (clamp (match BR.firstIndex br with Some i => i | None => 0%Z end)
                        0 (getNumLeafs (BR.book br) - 1)))
  else
    Throw (ThrownString ("currentIndex called for unimplemented mode "
                         ++ Mode.toString (BR.mode br))).

(** [a == b] for two indices, either of which may be null or undefined *)
Definition indexLooseEq (a b : option Z) : bool :=
  match a, b with
  | Some x, Some y => (x =? y)%Z
  | None, None => true
  | _, _ => false
  end.

(** [BookReader.prototype._isIndexDisplayed]; [index] may be undefined. *)
Definition _isIndexDisplayed (index : option Z) (br : BR.t) : Completion bool :=
  match BR.displayedIndices br with
  | Some displayed =>
      Return (match index with
              | Some i => existsb (Z.eqb i) displayed
              | None => false
              end)
  | None =>
      let* current := currentIndex br in
      Return (indexLooseEq current index)
  end.

(** [BookReader.prototype.jumpToIndex].  The method calls itself; [fuel]
    bounds the depth of the calls, and [None] says it was exhausted.
    [newIndex] is undefined ([None]) where [findNext] answers no page, or
    where the page has no start of its run ([Page.t]). *)
Fixpoint jumpToIndex (fuel : nat) (index : Z) (pageX pageY : option Q)
    (noAnimate : option bool) (br : BR.t) : option (Completion unit * BR.t) :=
  match fuel with
  | O => None
  | S fuel' =>
      let page := getPage (BR.book br) index in
      if negb (Page.isViewable page)
         && negb (indexLooseEq (Page.unviewablesStart page) (Some (Page.index page)))
      then
        match _isIndexDisplayed (Page.unviewablesStart page) br with
        | Throw e => Some (Throw e, br)
        | Return alreadyInPreview =>
            let newIndex :=
              if alreadyInPreview
              then option_map Page.index (findNext (BR.book br) page)
              else Page.unviewablesStart page in
            match newIndex with
            | Some n => jumpToIndex fuel' n pageX pageY noAnimate br
            | None => Some (Return tt, br)
            end
        end
      else
        let br := trigger (eventNames "stop") br in
        match activeMode br with
        | Some r =>
            Some (Return tt,
                  BR.perform (RendererJumpToIndex r index pageX pageY noAnimate) br)
        | None =>
            Some (Throw (TypeError
                    "Cannot read properties of undefined (reading 'jumpToIndex')"), br)
        end
  end.

(** [BookReader.prototype.getPrevReadMode] *)
Definition getPrevReadMode (mode : ModeVal) (br : BR.t) : ModeVal :=
  if Mode.strictEq mode (MNum constMode1up) || Mode.strictEq mode (MNum constMode2up)
  then mode
  else if Mode.strictEq (BR.prevReadMode br) MNull then MNum constMode1up
  else MUndefined.

(** [BookReader.prototype.canSwitchToMode] *)
Definition canSwitchToMode (mode : ModeVal) (br : BR.t) : bool :=
  if (Mode.looseEqNum mode constMode2up || Mode.looseEqNum mode constModeThumb)
     && (getNumLeafs (BR.book br) <? 2)%Z
  then false
  else true.

(** The options object of [switchMode], with its defaults. *)
Record SwitchModeOptions := {
  suppressFragmentChange : bool;
  init : bool;
  pageFound : bool
}.

Definition noOptions : SwitchModeOptions :=
  {| suppressFragmentChange := false; init := false; pageFound := false |}.

(** [a !== b] for two optional numbers *)
Definition scaleDiffers (a b : option Q) : bool :=
  match a, b with
  | Some x, Some y => negb (Qeq_bool x y)
  | None, None => false
  | _, _ => true
  end.

(** The first step of [switchMode]: a string is looked up in the table of
    mode names. *)
Definition resolveMode (mode : ModeArg) : ModeVal :=
  match mode with
  | ArgString s => Mode.ofString s
  | ArgValue v => v
  end.

(** Sequencing of methods: a throw ends the sequence and keeps the viewer
    it was raised in. *)
Definition bindM {A B} (m : Method A) (k : A -> Method B) : Method B :=
  fun br =>
  match m br with
  | (Return a, br') => k a br'
  | (Throw e, br') => (Throw e, br')
  end.

(** [if (this.mode != mode) this.activeMode.unprepare?.()] *)
Definition unprepareActiveMode (mode : ModeVal) : Method unit :=
  fun br =>
  if negb (Mode.looseEq (BR.mode br) mode) then
    match activeMode br with
    | Some r => (Return tt, BR.perform (Unprepare r) br)
    | None => (Throw (TypeError
                        "Cannot read properties of undefined (reading 'unprepare')"), br)
    end
  else (Return tt, br).

(** The renderer of the new mode is prepared; thumbnail mode quantizes
    [reduce] first. *)
Definition prepareMode (mode : ModeVal) : Method unit :=
  fun br =>
  if Mode.looseEqNum mode constMode1up then
    (Return tt, BR.perform (Prepare Mode1Up) br)
  else if Mode.looseEqNum mode constModeThumb then
    match quantizeReduce (Num.ofOption (BR.reduce br))
                         (BR.reductionFactors (BR.options br)) with
    | Return q => (Return tt, BR.perform (Prepare ModeThumb) (BR.setReduce (Some q) br))
    | Throw e => (Throw e, br)
    end
  else (Return tt, BR.perform (Prepare Mode2Up) br).

(** The events at the end of [switchMode], and the text-selection hook. *)
Definition announceMode (mode : ModeVal) (opts : SwitchModeOptions) (br : BR.t) : BR.t :=
  let br :=
    if negb (BR.suppressFragmentChange br || suppressFragmentChange opts)
    then trigger (eventNames "fragmentChange") br else br in
  let eventName := Mode.toString mode ++ "PageViewSelected" in
  let br := trigger (eventNames eventName) br in
  if BR.textSelection (BR.plugins br) then BR.perform StopPageFlip br else br.

(** [BookReader.prototype.switchMode] *)
Definition switchMode (mode : ModeArg) (opts : SwitchModeOptions) : Method unit :=
  fun br =>
  let mode := resolveMode mode in
  if negb (Mode.truthy mode) then
    (Throw (Error ("Invalid mode: " ++ Mode.toString mode)), br)
  else if BR.initComplete br && Mode.strictEq mode (BR.mode br) then (Return tt, br)
  else if BR.initComplete br && negb (canSwitchToMode mode br) then (Return tt, br)
  else
    let br := trigger (eventNames "stop") br in
    let br := BR.setPrevReadMode (getPrevReadMode (BR.mode br) br) br in
    bindM (unprepareActiveMode mode) (fun _ br =>
      let br := BR.setMode mode br in
      let br :=
        if scaleDiffers (BR.pageScale br) (BR.reduce br)
        then BR.setReduce (BR.pageScale br) br else br in
      bindM (prepareMode mode) (fun _ br =>
        (Return tt, announceMode mode opts br)) br) br.

(** [this.plugins.search?.options.initialSearchTerm], as a condition *)
Definition hasInitialSearchTerm (br : BR.t) : bool :=
  match BR.search (BR.plugins br) with
  | Some sp => Str.truthy (SearchPlugin.options_initialSearchTerm sp)
  | None => false
  end.

(** [this.firstIndex === index] *)
Definition firstIndexIs (index : Z) (br : BR.t) : bool :=
  match BR.firstIndex br with
  | Some i => (i =? index)%Z
  | None => false
  end.

(** [BookReader.prototype.updateFirstIndex]; [suppress] is
    [options.suppressFragmentChange].  The method does not throw. *)
Definition updateFirstIndex (index : Z) (suppress : bool) (br : BR.t) : BR.t :=
  if firstIndexIs index br then br
  else
    let br := BR.setFirstIndex (Some index) br in
    let br :=
      if negb (BR.suppressFragmentChange br || suppress)
      then trigger (eventNames "fragmentChange") br else br in
    let br :=
      if hasInitialSearchTerm br && negb suppress
      then BR.setSuppressFragmentChange false br else br in
    let br := trigger (eventNames "pageChanged") br in
    let br := trigger (eventNames "userAction") br in
    BR.perform (UpdateNavIndexThrottled index) br.

(** ** Start-up parameters *)

(** [\w] *)
Definition isWordChar (c : ascii) : bool :=
  let n := N_of_ascii c in
  (URI.between 48 n 57 || URI.between 65 n 90 || URI.between 97 n 122 || (n =? 95))%N.

(** [/\w+=/] matches at the start of [s]; [seen] says a word character
    has been read. *)
Fixpoint wordsThenEquals (seen : bool) (s : string) : bool :=
  match s with
  | String c rest =>
      if isWordChar c then wordsThenEquals true rest
      else seen && Ascii.eqb c "="
  | EmptyString => false
  end.

(** [hash.slice(hash.search(/\?\w+=/))] when the search finds a match *)
Fixpoint sliceAtQuery (hash : string) : option string :=
  match hash with
  | EmptyString => None
  | String c rest =>
      if Ascii.eqb c "?" && wordsThenEquals false rest then Some hash
      else sliceAtQuery rest
  end.

(** [BookReader.prototype.getLocationSearch] *)
Definition getLocationSearch (br : BR.t) : string := BR.location_search (BR.env br).

(** [BookReader.prototype.getLocationHash] *)
Definition getLocationHash (br : BR.t) : string := BR.location_hash (BR.env br).

(** [BookReader.prototype.readQueryString] *)
Definition readQueryString (br : BR.t) : string :=
  let queryString := getLocationSearch br in
  match queryString with
  | String _ _ => queryString
  | EmptyString =>
      let hash := getLocationHash br in
      match sliceAtQuery hash with
      | Some found => found
      | None => ""
      end
  end.

Definition optionTruthy (b : option bool) : bool :=
  match b with
  | Some true => true
  | _ => false
  end.

(** [params.index !== val] for a number [val] *)
Definition indexDiffers (index : option Z) (val : Z) : bool :=
  match index with
  | Some i => negb (i =? val)%Z
  | None => true
  end.

(** The search-plugin step of [initParams]. *)
Definition initSearch (sp : SearchPlugin.t) (params : Params.t) : Method unit :=
  fun br =>
  let sp :=
    {| SearchPlugin.options_enabled := SearchPlugin.options_enabled sp;
       SearchPlugin.options_goToFirstResult :=
         Some (negb (optionTruthy (Params.pageFound params)));
       SearchPlugin.options_initialSearchTerm := SearchPlugin.options_initialSearchTerm sp;
       SearchPlugin.initialSearchTerm := SearchPlugin.initialSearchTerm sp;
       SearchPlugin.searchTerm := SearchPlugin.searchTerm sp |} in
  let br := BR.setSearch sp br in
  if Str.truthy (SearchPlugin.initialSearchTerm sp) then (Return tt, br)
  else if Str.truthy (Params.search params) then
    (Return tt,
     BR.setSearch
       {| SearchPlugin.options_enabled := SearchPlugin.options_enabled sp;
          SearchPlugin.options_goToFirstResult := SearchPlugin.options_goToFirstResult sp;
          SearchPlugin.options_initialSearchTerm := Params.search params;
          SearchPlugin.initialSearchTerm := SearchPlugin.initialSearchTerm sp;
          SearchPlugin.searchTerm := Params.search params |} br)
  else
    let searchTerm := BR.searchParamsGet (BR.env br) (readQueryString br) "q" in
    match searchTerm with
    | Some (String _ _ as term) =>
        match URI.decodeURIComponentPlus term with
        | Throw e => (Throw e, br)
        | Return decoded =>
            (Return tt,
             BR.setSearch
               {| SearchPlugin.options_enabled := SearchPlugin.options_enabled sp;
                  SearchPlugin.options_goToFirstResult :=
                    SearchPlugin.options_goToFirstResult sp;
                  SearchPlugin.options_initialSearchTerm := Some decoded;
                  SearchPlugin.initialSearchTerm := SearchPlugin.initialSearchTerm sp;
                  SearchPlugin.searchTerm := SearchPlugin.searchTerm sp |} br)
        end
    | _ => (Return tt, br)
    end.

(** The steps of [initParams] before the search plugin read the viewer
    and do not change it.  A null index (an unknown title leaf) and an
    undefined one are both [None]; no step tells them apart. *)

(** The default index, then the configured [defaults]. *)
Definition paramsFromDefaults (br : BR.t) : Completion Params.t :=
  let params := Params.empty in
  let params := Params.setInit (Some true) params in
  let params := Params.setPageFound (Some false) params in
  let params := Params.setFragmentChange (Some false) params in
  let book := BR.book br in
  let params :=
    match BR.titleLeaf (BR.options br) with
    | Some leaf =>
        if (2 <? getNumLeafs book)%Z
        then Params.setIndex (leafNumToIndex book leaf) params
        else Params.setIndex (Some 0%Z) params
    | None => Params.setIndex (Some 0%Z) params
    end in
  match BR.defaults (BR.options br) with
  | Some (String _ _ as defaults) =>
      let* defaultParams := paramsFromFragment defaults in
      let params :=
        match Params.page defaultParams with
        | Some _ => Params.setPageFound (Some true) params
        | None => params
        end in
      Return (extendParams book params defaultParams)
  | _ => Return params
  end.

(** [this.plugins.resume.getResumeValue()] when the plugin is enabled and
    the value is not null *)
Definition resumeValue (br : BR.t) : option Z :=
  match BR.resume (BR.plugins br) with
  | Some rp =>
      if ResumePlugin.options_enabled rp then ResumePlugin.getResumeValue rp
      else None
  | None => None
  end.

(** The resume step. *)
Definition paramsFromResume (br : BR.t) (params : Params.t) : Params.t :=
  match resumeValue br with
  | Some val =>
      let params :=
        if indexDiffers (Params.index params) val
        then Params.setFragmentChange (Some true) params else params in
      Params.setIndex (Some val) params
  | None => params
  end.

(** [urlParams], once the hash fragment has been considered. *)
Definition readUrlParams (br : BR.t) : Completion Params.t :=
  let* urlParams := paramsFromFragment (BR.urlReadFragment (BR.env br)) in
  let hasHashURL :=
    (Params.keysLength urlParams =? 0)%nat
    && Str.truthy (Some (BR.urlReadHashFragment (BR.env br))) in
  if hasHashURL && String.eqb (BR.urlMode (BR.options br)) "history"
  then paramsFromFragment (BR.urlReadHashFragment (BR.env br))
  else Return urlParams.

(** The URL step. *)
Definition paramsFromUrl (br : BR.t) (params : Params.t) : Completion Params.t :=
  if BR.enableUrlPlugin (BR.options br) then
    let* urlParams := readUrlParams br in
    if negb (Params.keysLength urlParams =? 0)%nat then
      let params :=
        match Params.page urlParams with
        | Some _ => Params.setPageFound (Some true) params
        | None => params
        end in
      let params := extendParams (BR.book br) params urlParams in
      Return (Params.setFragmentChange (Some true) params)
    else Return params
  else Return params.

Definition resolveParams (br : BR.t) : Completion Params.t :=
  let* params := paramsFromDefaults br in
  let params := paramsFromResume br params in
  paramsFromUrl br params.

(** [BookReader.prototype.initParams] *)
Definition initParams : Method Params.t :=
  fun br =>
  match resolveParams br with
  | Throw e => (Throw e, br)
  | Return params =>
      let searched :=
        match BR.search (BR.plugins br) with
        | Some sp =>
            if SearchPlugin.options_enabled sp then initSearch sp params br
            else (Return tt, br)
        | None => (Return tt, br)
        end in
      match searched with
      | (Throw e, br) => (Throw e, br)
      | (Return _, br) =>
          let br :=
            BR.setSuppressFragmentChange
              (negb (optionTruthy (Params.fragmentChange params))) br in
          (Return params, br)
      end
  end.

(** ** The initial mode *)

(** [_modeStringToNumber]: [MAPPING[modeString]] when
    [modeString in MAPPING], an operator that also finds the members
    [MAPPING] inherits from [Object.prototype]; the throw is an
    [OptionsParseError]. *)
Definition _modeStringToNumber (modeString : string) : Completion ModeVal :=
  if String.eqb modeString "mode/1up" then Return (MNum 1%Z)
  else if String.eqb modeString "mode/2up" then Return (MNum 2%Z)
  else if String.eqb modeString "mode/thumb" then Return (MNum 3%Z)
  else if existsb (String.eqb modeString) Mode.objectPrototypeKeys
  then Return (MInherited modeString)
  else Throw (Error ("Invalid mode string: " ++ modeString)).

(** [BookReader.prototype.getInitialMode]; [windowWidth] is
    [$(window).width()] and [onePageMinBreakpoint] the field of that name
    of the viewer. *)
Definition getInitialMode (windowWidth onePageMinBreakpoint : Z)
    (params : Params.t) (br : BR.t) : ModeVal :=
  let isMobile :=
    negb (windowWidth =? 0)%Z && (windowWidth <=? onePageMinBreakpoint)%Z in
  let initialMode :=
    if Mode.truthy (Params.mode params) then Params.mode params
    else if isMobile then MNum constMode1up
    else MNum constMode2up in
  let initialMode :=
    if negb (canSwitchToMode initialMode br) then MNum constMode1up
    else initialMode in
  match BR.defaults (BR.options br) with
  | Some (String _ _ as defaults) =>
      match _modeStringToNumber defaults with
      | Return m => m
      | Throw _ => initialMode
      end
  | _ => initialMode
  end.

(** The test of [jumpToIndex] on the page it is asked for:
    [!page.isViewable && page.unviewablesStart != page.index]. *)
Definition insideUnviewableRun (page : Page.t) : bool :=
  negb (Page.isViewable page)
  && negb (indexLooseEq (Page.unviewablesStart page) (Some (Page.index page))).

(** The viewer after a jump that reaches the renderer: 'stop' is
    triggered, then the active renderer is asked to jump. *)
Definition landOn (r : Renderer) (index : Z) (pageX pageY : option Q)
    (noAnimate : option bool) (br : BR.t) : BR.t :=
  BR.perform (RendererJumpToIndex r index pageX pageY noAnimate)
             (trigger (eventNames "stop") br).

(** ** A book given by the viewability of its pages *)

Module ListBook.
(** Modelled from the spec: the run start of [PageModel] in
    [BookReader/BookModel.js], which is not among the sources.  A page that
    is not viewable carries the first index of its unviewable run, a
    maximal contiguous range of such pages.  [before] holds the pages
    before [i], the nearest first. *)
Fixpoint runStart (before : list bool) (i : Z) : Z :=
  match before with
  | false :: earlier => runStart earlier (i - 1)
  | _ => i
  end.

(** Modelled from the spec: [PageModel] of [BookReader/BookModel.js], which
    is not among the sources.  A page has a zero-based index and says
    whether it is viewable. *)
Definition pageAt (viewable : list bool) (i : nat) : Page.t :=
  let v := nth i viewable true in
  {| Page.index := Z.of_nat i;
     Page.isViewable := v;
     Page.unviewablesStart :=
       if v then None
       else Some (runStart (List.rev (firstn i viewable)) (Z.of_nat i)) |}.

(** Modelled from the spec: [findNext] of [BookReader/BookModel.js], which
    is not among the sources.  It steps over the rest of a run as one
    unit: the first page among [count] pages from index [i] on that is not
    inside a run. *)
Fixpoint firstLanding (viewable : list bool) (i count : nat) : option Page.t :=
  match count with
  | O => None
  | S count' =>
      let p := pageAt viewable i in
      if insideUnviewableRun p then firstLanding viewable (S i) count'
      else Some p
  end.

(** Modelled from the spec: [BookModel] of [BookReader/BookModel.js], which
    is not among the sources.  An index outside the book is taken modulo
    its length; a page string made of 'n' and an index stands for that
    index. *)
Definition make (viewable : list bool) : BookModel :=
  let n := List.length viewable in
  {| getNumLeafs := Z.of_nat n;
     getPage := fun i => pageAt viewable (Z.to_nat (i mod Z.of_nat n));
     findNext := fun p =>
       let next := S (Z.to_nat (Page.index p)) in
       firstLanding viewable next (n - next);
     parsePageString := fun s =>
       match s with
       | String "n" digits => Str.parseAllDigits digits
       | _ => None
       end;
     leafNumToIndex := fun leaf =>
       if ((0 <=? leaf) && (leaf <? Z.of_nat n))%Z then Some leaf else None |}.
End ListBook.

(** ** Predicates of the properties, and sample data *)

Definition rf (r : Q) : ReductionFactor := {| reduce := r; autofit := None |}.

(** The binary64 number nearest to [q]: what a decimal literal denotes. *)
Definition double (q : Q) : Q := Qred (Num.round q).

(** The binary64 numbers of the kernel, to compare [Num.round] with. *)
Module Binary64.
Import PrimFloat FloatOps SpecFloat.

(** The value of a finite binary64 number. *)
Definition value (x : float) : Q :=
  match Prim2SF x with
  | S754_finite s m e => inject_Z (if s then Z.neg m else Z.pos m) * Num.pow2 e
  | _ => 0
  end.

(** The numbers the literals 0.15, 0.01 and 0.29 denote. *)
Definition d015 : float := 0x1.3333333333333p-3.
Definition d001 : float := 0x1.47ae147ae147bp-7.
Definition d029 : float := 0x1.28f5c28f5c28fp-2.

(** Pairs of numbers to subtract: decimal fractions, halfway cases on
    both sides of [2 ^ 53] and of 1, subnormal and large numbers. *)
Definition samples : list (float * float) :=
  ([(0x1.3333333333333p-3, 0x1.47ae147ae147bp-7);
   (0x1.3333333333333p-3, 0x1.28f5c28f5c28fp-2);
   (0x1.28f5c28f5c28fp-2, 0x1.3333333333333p-3);
   (0x1.3333333333333p-2, 0x1.999999999999ap-4);
   (0x1p+0, 0x1.ccccccccccccdp-1); (0x1.8p+1, 0x1p+2); (0x1p+53, -0x1p+0);
   (0x1.0000000000001p+53, -0x1p+0); (-0x1p+53, 0x1p+0);
   (0x1.0000000000001p+53, -0x1.8p+1); (0x1p+0, 0x1p-53); (0x1p+0, 0x1p-54);
   (0x1p+0, -0x1p-53); (0x1p+0, -0x1.8p-52);
   (0x0.0000000000001p-1022, 0x0.0000000000002p-1022);
   (0x1p-1022, 0x0.0000000000001p-1022);
   (0x0.012688b70e62bp-1022, 0x0.03739a252b281p-1022);
   (0x1.7e43c8800759cp+996, 0x1.585041b2c477fp+943);
   (0x1.7e43c8800759cp+996, -0x1.585041b2c477fp+943); (0x1p-1, 0x1p-1);
   (0x1.5555555555555p-2, 0x1.5555555555555p-1);
   (0x1p+3, 0x1.6666666666666p-1);
   (0x1.4f8b588e368f1p-17, 0x1.ad7f29abcaf48p-24);
   (-0x1.30c556eb67fbp+3, 0x1.7e8b13cd7d8a7p+3);
   (-0x1.3445ed09ba1cp+3, 0x1.7d3a33863b54ap-21);
   (-0x1.f88b1f87384ep+5, 0x1.475798f0c2613p-29);
   (-0x1.44b3842357372p+6, -0x1.59dc3335ba4adp-35);
   (0x1.ef46e38f6e65p+2, 0x1.12b4b2919d66fp-37);
   (0x1.316595e8e09bp+4, -0x1.4c49bf4e18cdep+4);
   (0x1.ec8d56e790fc8p+4, 0x1.8d1207a9f5474p-26);
   (0x1.8a02d3d600134p+4, 0x1.23c490d954e58p-34);
   (-0x1.605bef046f4ap+6, -0x1.9fcba16120e71p-18)])%float.

(** The rounded subtraction of the model is the subtraction of the
    kernel. *)
Definition agree (p : float * float) : bool :=
  Qeq_bool (Num.round (value (fst p) - value (snd p)))
           (value (PrimFloat.sub (fst p) (snd p))).
End Binary64.

(** The distance [quantizeReduce] computes and compares,
    [Math.abs(reduce - f.reduce)]: the absolute value of the rounded
    difference. *)
Definition distanceTo (r : Q) (f : ReductionFactor) : Q :=
  Qabs (Num.round (r - reduce f)).

(** The differences of [r] and the factors of [l] are binary64 numbers, so
    that the subtractions of [quantizeReduce] do not round. *)
Definition exactDifferences (r : Q) (l : list ReductionFactor) : Prop :=
  forall g, In g l -> Num.round (r - reduce g) == r - reduce g.

(** [f], at index [k], is the first of the factors of [l] nearest to [r]. *)
Definition firstNearest (r : Q) (l : list ReductionFactor) (k : nat)
    (f : ReductionFactor) : Prop :=
  nth_error l k = Some f /\
  (forall g, In g l -> distanceTo r f <= distanceTo r g) /\
  (forall j g, (j < k)%nat -> nth_error l j = Some g -> distanceTo r f < distanceTo r g).

(** The state of having no qualifying candidate in a direction of
    [nextReduce]. *)
Definition noCandidate (currentReduce : Num) (direction : string)
    (factors : list ReductionFactor) : Prop :=
  if String.eqb direction "in" then
    Forall (fun f => Num.lt (Finite (reduce f)) currentReduce = false) factors
  else if String.eqb direction "out" then
    Forall (fun f => Num.lt currentReduce (Finite (reduce f)) = false) factors
  else if String.eqb direction "auto" then
    Forall (fun f => autofitIs "auto" f = false /\ autofitIs "height" f = false
                     /\ autofitIs "width" f = false) factors
  else
    Forall (fun f => autofitIs direction f = false) factors.

(** The mode constants. *)
Definition isModeConstant (m : ModeVal) : Prop :=
  m = MNum constMode1up \/ m = MNum constMode2up \/ m = MNum constModeThumb.

(** A params record that holds an index, a mode, both or neither, and
    nothing else; the index is a page index and the mode a mode constant. *)
Definition onlyIndexAndMode (p : Params.t) : Prop :=
  Params.page p = None /\ Params.search p = None /\ Params.theme p = None /\
  Params.init p = None /\ Params.pageFound p = None /\
  Params.fragmentChange p = None /\
  (forall i, Params.index p = Some i -> (0 <= i)%Z) /\
  (Params.mode p = MUndefined \/ isModeConstant (Params.mode p)).

(** The value the fragment gives to a key: [urlHash[key]] in
    [paramsFromFragment]. *)
Definition fragmentValue (key fragment : string) : option string :=
  urlHashGet key (fillUrlHash (Str.split "/" (stripHash fragment)) []).

(** The mode value of the fragment is none of '1up', '2up', 'thumb'. *)
Definition unrecognizedMode (fragment : string) : Prop :=
  fragmentValue "mode" fragment <> Some "1up" /\
  fragmentValue "mode" fragment <> Some "2up" /\
  fragmentValue "mode" fragment <> Some "thumb".

(** The page and search values of the fragment, if any, are well-formed
    URI components. *)
Definition decodable (fragment : string) : Prop :=
  (forall v, fragmentValue "page" fragment = Some v ->
             exists d, URI.decodeURIComponent v = Return d) /\
  (forall v, fragmentValue "search" fragment = Some v ->
             exists d, URI.decodeURIComponentPlus v = Return d).

(** A book of sixteen pages, of which 10 to 13 are not viewable. *)
Definition sampleBook : BookModel :=
  ListBook.make
    [true; true; true; true; true; true; true; true; true; true;
     false; false; false; false; true; true].

(** A book of three pages that ends on an unviewable run. *)
Definition shortBook : BookModel := ListBook.make [true; false; false].

(** A viewer after [init], in one-page mode on page [shown]. *)
Definition sampleViewer (book : BookModel) (shown : Z) : BR.t :=
  {| BR.options :=
       {| BR.defaults := None; BR.titleLeaf := None;
          BR.reductionFactors := [rf 1; rf 2; rf 4];
          BR.enableUrlPlugin := false; BR.urlMode := "hash" |};
     BR.env :=
       {| BR.location_search := ""; BR.location_hash := "";
          BR.urlReadFragment := ""; BR.urlReadHashFragment := "";
          BR.searchParamsGet := fun _ _ => None |};
     BR.book := book;
     BR.plugins := {| BR.search := None; BR.resume := None; BR.textSelection := false |};
     BR.mode := MNum constMode1up;
     BR.prevReadMode := MNull;
     BR.firstIndex := Some shown;
     BR.reduce := Some 2;
     BR.pageScale := Some 2;
     BR.displayedIndices := Some [shown];
     BR.suppressFragmentChange := false;
     BR.initComplete := true;
     BR.effects := [] |}.

(** The mode arguments of [switchMode] that are a mode constant or a mode
    name. *)
Definition isModeToken (mode : ModeArg) : Prop :=
  In mode [ArgValue (MNum constMode1up); ArgValue (MNum constMode2up);
           ArgValue (MNum constModeThumb);
           ArgString "1up"; ArgString "2up"; ArgString "thumb"].

(** The mode arguments that resolve to a falsy value: a string that is no
    mode name and names no inherited property, or one of undefined, null
    and 0. *)
Definition unresolvable (mode : ModeArg) : Prop :=
  match mode with
  | ArgString s => ~ In s ["1up"; "2up"; "thumb"] /\ ~ In s Mode.objectPrototypeKeys
  | ArgValue v => v = MUndefined \/ v = MNull \/ v = MNum 0
  end.

(** The renderer of a mode constant, as [switchMode] picks it to prepare. *)
Definition rendererOf (m : Z) : Renderer :=
  if (m =? constMode1up)%Z then Mode1Up
  else if (m =? constModeThumb)%Z then ModeThumb
  else Mode2Up.

(** The effects of an accepted [switchMode] to the mode constant [m];
    [leaving] is the renderer that is unprepared, if the mode changes. *)
Definition switchEffects (m : Z) (leaving : option Renderer) (suppressed : bool)
    (br : BR.t) : list Effect :=
  ([Triggered "BookReader:stop"]
   ++ match leaving with Some r => [Unprepare r] | None => [] end
   ++ [Prepare (rendererOf m)]
   ++ (if suppressed then [] else [Triggered "BookReader:fragmentChange"])
   ++ [Triggered ("BookReader:" ++ Str.ofZ m ++ "PageViewSelected")]
   ++ (if BR.textSelection (BR.plugins br) then [StopPageFlip] else []))%list.

(** The effects [after] has beyond those of [before]. *)
Definition effectsSince (before after : BR.t) : list Effect :=
  skipn (List.length (BR.effects before)) (BR.effects after).

(** How often the event [name] was triggered in [l]. *)
Definition timesTriggered (name : string) (l : list Effect) : nat :=
  List.length
    (filter (fun e => match e with
                      | Triggered n => String.eqb n ("BookReader:" ++ name)
                      | _ => false
                      end) l).

(** The effects of an [updateFirstIndex] that changes the index. *)
Definition updateEffects (index : Z) (suppressed : bool) : list Effect :=
  ((if suppressed then [] else [Triggered "BookReader:fragmentChange"])
   ++ [Triggered "BookReader:pageChanged"; Triggered "BookReader:userAction";
       UpdateNavIndexThrottled index])%list.

(** The resume plugin holds an index other than the default one. *)
Definition resumeDiffers (br : BR.t) : Prop :=
  exists p0 val,
    paramsFromDefaults br = Return p0 /\ resumeValue br = Some val /\
    Params.index p0 <> Some val.

(** The URL plugin is enabled and the URL holds parameters. *)
Definition urlHasParams (br : BR.t) : Prop :=
  BR.enableUrlPlugin (BR.options br) = true /\
  exists u, readUrlParams br = Return u /\ Params.keysLength u <> 0%nat.

(** A viewer in the middle of [init]: initialization is not complete and
    fragment changes are suppressed. *)
Definition initializingViewer (book : BookModel) : BR.t :=
  BR.setInitComplete false (BR.setSuppressFragmentChange true (sampleViewer book 0)).

(** Books of one and of two pages. *)
Definition onePageBook : BookModel := ListBook.make [true].
Definition twoPageBook : BookModel := ListBook.make [true; true].

(** ** Predicates of the further properties *)

(** The factors are sorted ascending and no two have the same [reduce]. *)
Definition strictlySortedByReduce (l : list ReductionFactor) : Prop :=
  StronglySorted (fun a b => reduce a < reduce b) l.

(** The candidates of direction 'auto':
    [autofit == 'height' || autofit == 'width']. *)
Definition fitsHeightOrWidth (f : ReductionFactor) : bool :=
  autofitIs "height" f || autofitIs "width" f.

(** A character of the ASCII range, encoded by one byte in UTF-8. *)
Definition isAsciiChar (c : ascii) : bool := (N_of_ascii c <? 128)%N.

(** The params that hold a page string and a mode, and nothing else. *)
Definition pageAndMode (pg : string) (m : ModeVal) : Params.t :=
  Params.setMode m (Params.setPage (Some pg) Params.empty).

(** The index that params stand for once [extendParams] has normalized
    their page string: the index of the page when the book finds it,
    their own index otherwise. *)
Definition normalizedIndex (book : BookModel) (p : Params.t) : option Z :=
  match Params.page p with
  | Some pg =>
      match parsePageString book pg with
      | Some i => Some i
      | None => Params.index p
      end
  | None => Params.index p
  end.

(** The params of [options.defaults], when it is a non-empty string that
    decodes. *)
Definition defaultParams (br : BR.t) : option Params.t :=
  match BR.defaults (BR.options br) with
  | Some (String _ _ as defaults) =>
      match paramsFromFragment defaults with
      | Return p => Some p
      | Throw _ => None
      end
  | _ => None
  end.

(** The params of the URL, when the URL plugin is enabled and the URL
    decodes. *)
Definition urlParams (br : BR.t) : option Params.t :=
  if BR.enableUrlPlugin (BR.options br) then
    match readUrlParams br with
    | Return u => Some u
    | Throw _ => None
    end
  else None.

(** The params hold a page string. *)
Definition hasPage (p : option Params.t) : bool :=
  match p with
  | Some p => match Params.page p with Some _ => true | None => false end
  | None => false
  end.

(** The index of the first step of [initParams], before [options.defaults]
    is read: the index of the title leaf of a book of more than two pages,
    0 otherwise. *)
Definition titleIndex (br : BR.t) : option Z :=
  match BR.titleLeaf (BR.options br) with
  | Some leaf =>
      if (2 <? getNumLeafs (BR.book br))%Z
      then leafNumToIndex (BR.book br) leaf else Some 0%Z
  | None => Some 0%Z
  end.

(** A viewer about to start on [sampleBook], with the URL, resume and
    search plugins enabled: [defaults] is [options.defaults], [resume] what
    the resume plugin holds and [fragment] the fragment of the URL. *)
Definition startingViewer (defaults : option string) (resume : option Z)
    (fragment : string) : BR.t :=
  {| BR.options :=
       {| BR.defaults := defaults; BR.titleLeaf := Some 1%Z;
          BR.reductionFactors := [rf 1; rf 2; rf 4];
          BR.enableUrlPlugin := true; BR.urlMode := "hash" |};
     BR.env :=
       {| BR.location_search := ""; BR.location_hash := "#" ++ fragment;
          BR.urlReadFragment := fragment; BR.urlReadHashFragment := fragment;
          BR.searchParamsGet := fun _ _ => None |};
     BR.book := sampleBook;
     BR.plugins :=
       {| BR.search :=
            Some {| SearchPlugin.options_enabled := true;
                    SearchPlugin.options_goToFirstResult := None;
                    SearchPlugin.options_initialSearchTerm := None;
                    SearchPlugin.initialSearchTerm := None;
                    SearchPlugin.searchTerm := None |};
          BR.resume :=
            Some {| ResumePlugin.options_enabled := true;
                    ResumePlugin.getResumeValue := resume |};
          BR.textSelection := false |};
     BR.mode := MNull;
     BR.prevReadMode := MNull;
     BR.firstIndex := None;
     BR.reduce := Some 8;
     BR.pageScale := Some 8;
     BR.displayedIndices := Some [];
     BR.suppressFragmentChange := false;
     BR.initComplete := false;
     BR.effects := [] |}.

(** The viewer [initParams] leaves behind when it started from
    [startingViewer]: the search plugin has been told whether to go to the
    first result, and the flag of suppression is set. *)
Definition startedViewer (defaults : option string) (resume : option Z)
    (fragment : string) (goToFirstResult suppress : bool) : BR.t :=
  let br := startingViewer defaults resume fragment in
  BR.setSuppressFragmentChange suppress
    (BR.setSearch
       {| SearchPlugin.options_enabled := true;
          SearchPlugin.options_goToFirstResult := Some goToFirstResult;
          SearchPlugin.options_initialSearchTerm := None;
          SearchPlugin.initialSearchTerm := None;
          SearchPlugin.searchTerm := None |} br).

(** The guards of [switchMode] let the call through: the mode resolves to
    a truthy value and, once initialization is complete, it is not the
    current mode and the book can be shown in it. *)
Definition switchAccepted (mode : ModeArg) (br : BR.t) : bool :=
  let mode := resolveMode mode in
  Mode.truthy mode
  && negb (BR.initComplete br
           && (Mode.strictEq mode (BR.mode br) || negb (canSwitchToMode mode br))).

(** The renderer [switchMode] prepares for a mode: the two-page renderer
    for every value that is neither the one-page nor the thumbnail
    constant. *)
Definition rendererFor (mode : ModeVal) : Renderer :=
  if Mode.looseEqNum mode constMode1up then Mode1Up
  else if Mode.looseEqNum mode constModeThumb then ModeThumb
  else Mode2Up.

(** The name of the event that announces a mode:
    ['BookReader:' + eventNames[mode + 'PageViewSelected']]. *)
Definition selectedEvent (mode : ModeVal) : string :=
  "BookReader:" ++
  match eventNames (Mode.toString mode ++ "PageViewSelected") with
  | Some n => n
  | None => "undefined"
  end.

(** Two viewers differ at most in their effects and their [reduce]. *)
Definition sameView (a b : BR.t) : Prop :=
  BR.options a = BR.options b /\ BR.env a = BR.env b /\ BR.book a = BR.book b /\
  BR.plugins a = BR.plugins b /\ BR.mode a = BR.mode b /\
  BR.prevReadMode a = BR.prevReadMode b /\ BR.firstIndex a = BR.firstIndex b /\
  BR.pageScale a = BR.pageScale b /\
  BR.displayedIndices a = BR.displayedIndices b /\
  BR.suppressFragmentChange a = BR.suppressFragmentChange b /\
  BR.initComplete a = BR.initComplete b.

(** The strings [_modeStringToNumber] maps to a mode constant. *)
Definition modeStrings : list (string * Z) :=
  [("mode/1up", constMode1up); ("mode/2up", constMode2up);
   ("mode/thumb", constModeThumb)].

(** Every page that is not viewable carries the index at which its
    unviewable run starts: a number, neither null nor undefined. *)
Definition runsHaveStart (book : BookModel) : Prop :=
  forall i,
    Page.isViewable (getPage book i) = false ->
    exists s, Page.unviewablesStart (getPage book i) = Some s.


(** The pages that are not viewable carry the start of their run, and
    every page inside an unviewable run leads out of it: neither the start
    of its run nor the page [findNext] answers is inside a run. *)
Definition runsResolve (book : BookModel) : Prop :=
  runsHaveStart book /\
  forall i,
    let page := getPage book i in
    insideUnviewableRun page = true ->
    (forall s, Page.unviewablesStart page = Some s ->
               insideUnviewableRun (getPage book s) = false) /\
    (forall next, findNext book page = Some next ->
                  insideUnviewableRun (getPage book (Page.index next)) = false).

(** A viewer about to start on a book of one page, whose URL asks for
    thumbnail mode. *)
Definition onePageViewer (defaults : option string) : BR.t :=
  {| BR.options :=
       {| BR.defaults := defaults; BR.titleLeaf := None;
          BR.reductionFactors := [rf 1; rf 2; rf 4];
          BR.enableUrlPlugin := true; BR.urlMode := "hash" |};
     BR.env := BR.env (startingViewer defaults None "mode/thumb");
     BR.book := onePageBook;
     BR.plugins := {| BR.search := None; BR.resume := None; BR.textSelection := false |};
     BR.mode := MNull;
     BR.prevReadMode := MNull;
     BR.firstIndex := None;
     BR.reduce := Some 8;
     BR.pageScale := Some 8;
     BR.displayedIndices := Some [];
     BR.suppressFragmentChange := false;
     BR.initComplete := false;
     BR.effects := [] |}.

(** * Properties *)

(** ** Rounding *)

Lemma round_of_zero (q : Q) : q == 0 -> Num.round q = 0.
Proof.
  intros H. unfold Num.round.
  assert (E : Qnum q = 0%Z) by (unfold Qeq in H; cbn in H; lia).
  now rewrite E.
Qed.

(** Scaling by a power of two: [a / d * 2 ^ (- t)] as a fraction. *)
Lemma scaled_shift (a d t j : Z) : (0 <= j)%Z ->
  ((a * 2 ^ Z.max 0 (- (t - j))) * (d * 2 ^ Z.max 0 t)
   = 2 ^ j * (a * 2 ^ Z.max 0 (- t)) * (d * 2 ^ Z.max 0 (t - j)))%Z.
Proof.
  intros Hj.
  destruct (Z.le_gt_cases 0 (t - j)) as [H1|H1].
  - rewrite (Z.max_l 0 (- (t - j))), (Z.max_r 0 t), (Z.max_l 0 (- t)),
      (Z.max_r 0 (t - j)) by lia.
    replace t with ((t - j) + j)%Z at 1 by lia.
    rewrite Z.pow_add_r by lia. rewrite Z.pow_0_r. ring.
  - destruct (Z.le_gt_cases 0 t) as [H2|H2].
    + rewrite (Z.max_r 0 (- (t - j))), (Z.max_r 0 t), (Z.max_l 0 (- t)),
        (Z.max_l 0 (t - j)) by lia.
      replace j with (- (t - j) + t)%Z at 2 by lia.
      rewrite Z.pow_add_r by lia. rewrite Z.pow_0_r. ring.
    + rewrite (Z.max_r 0 (- (t - j))), (Z.max_l 0 t), (Z.max_r 0 (- t)),
        (Z.max_l 0 (t - j)) by lia.
      replace (- (t - j))%Z with (j + - t)%Z by lia.
      rewrite Z.pow_add_r by lia. rewrite Z.pow_0_r. ring.
Qed.

(** The exponent [Z.log2 a - Z.log2 d] is the one of [a / d], or one more. *)
Lemma log2_quotient (a d : Z) : (0 < a)%Z -> (0 < d)%Z ->
  let k0 := (Z.log2 a - Z.log2 d)%Z in
  let A := (a * 2 ^ Z.max 0 (- k0))%Z in
  let D := (d * 2 ^ Z.max 0 k0)%Z in
  (0 < D /\ D < 2 * A /\ A < 2 * D)%Z.
Proof.
  intros Ha Hd k0 A D.
  destruct (Z.log2_spec a Ha) as [Hla Hla'].
  destruct (Z.log2_spec d Hd) as [Hld Hld'].
  pose proof (Z.log2_nonneg a) as Hla0.
  pose proof (Z.log2_nonneg d) as Hld0.
  rewrite Z.pow_succ_r in Hla', Hld' by assumption.
  unfold A, D. destruct (Z.le_gt_cases 0 k0) as [Hk|Hk].
  - rewrite (Z.max_l 0 (- k0)), (Z.max_r 0 k0) by lia.
    rewrite Z.pow_0_r.
    assert (E : (2 ^ Z.log2 a = 2 ^ Z.log2 d * 2 ^ k0)%Z).
    { rewrite <- Z.pow_add_r by lia. f_equal. unfold k0. lia. }
    assert (Hp : (0 < 2 ^ k0)%Z) by (apply Z.pow_pos_nonneg; lia).
    nia.
  - rewrite (Z.max_r 0 (- k0)), (Z.max_l 0 k0) by lia.
    rewrite Z.pow_0_r.
    assert (E : (2 ^ Z.log2 d = 2 ^ Z.log2 a * 2 ^ (- k0))%Z).
    { rewrite <- Z.pow_add_r by lia. f_equal. unfold k0. lia. }
    assert (Hp : (0 < 2 ^ (- k0))%Z) by (apply Z.pow_pos_nonneg; lia).
    nia.
Qed.

(** What [Num.round] computes of a number that is not zero: a significand
    [m] of 53 bits and an exponent [e], with [m] an integer nearest to
    [|q| / 2 ^ e], and the even one of two nearest. *)
Lemma round_parts (q : Q) : Qnum q <> 0%Z ->
  exists m e : Z,
    (2 ^ 52 <= m <= 2 ^ 53)%Z /\
    Num.round q = inject_Z (Z.sgn (Qnum q) * m) * Num.pow2 e /\
    (2 * Z.abs (m * (Z.pos (Qden q) * 2 ^ Z.max 0 e)
                - Z.abs (Qnum q) * 2 ^ Z.max 0 (- e))
     <= Z.pos (Qden q) * 2 ^ Z.max 0 e)%Z /\
    ((2 * Z.abs (m * (Z.pos (Qden q) * 2 ^ Z.max 0 e)
                 - Z.abs (Qnum q) * 2 ^ Z.max 0 (- e))
      = Z.pos (Qden q) * 2 ^ Z.max 0 e)%Z -> Z.even m = true).
Proof.
  intros Hn. unfold Num.round.
  destruct (Z.eqb_spec (Qnum q) 0) as [E|_]; [contradiction|].
  set (a := Z.abs (Qnum q)).
  set (d := Z.pos (Qden q)).
  assert (Ha : (0 < a)%Z) by (unfold a; lia).
  assert (Hd : (0 < d)%Z) by (unfold d; lia).
  pose proof (log2_quotient a d Ha Hd) as HAD. cbv zeta in HAD.
  set (k0 := (Z.log2 a - Z.log2 d)%Z) in *.
  set (A := (a * 2 ^ Z.max 0 (- k0))%Z) in *.
  set (D := (d * 2 ^ Z.max 0 k0)%Z) in *.
  destruct HAD as (HD & HDA & HAD).
  set (k := if (A <? D)%Z then (k0 - 1)%Z else k0).
  set (e := (k - 52)%Z).
  set (num := (a * 2 ^ Z.max 0 (- e))%Z).
  set (den := (d * 2 ^ Z.max 0 e)%Z).
  assert (Hden : (0 < den)%Z).
  { unfold den. apply Z.mul_pos_pos; [exact Hd|]. apply Z.pow_pos_nonneg; lia. }
  assert (Hnum : (2 ^ 52 * den <= num < 2 ^ 53 * den)%Z).
  { unfold num, den, e, k. destruct (Z.ltb_spec A D) as [Hlt|Hge].
    - replace (k0 - 1 - 52)%Z with (k0 - 53)%Z by lia.
      pose proof (scaled_shift a d k0 53 ltac:(lia)) as Hs.
      fold A D in Hs.
      set (x := (a * 2 ^ Z.max 0 (- (k0 - 53)))%Z) in *.
      set (y := (d * 2 ^ Z.max 0 (k0 - 53))%Z) in *.
      assert (Hy : (0 < y)%Z).
      { unfold y. apply Z.mul_pos_pos; [exact Hd|]. apply Z.pow_pos_nonneg; lia. }
      change (2 ^ 53)%Z with (2 * 2 ^ 52)%Z in *.
      set (c := (2 ^ 52)%Z) in *. assert (Hc : (0 < c)%Z) by (unfold c; lia).
      clearbody c x y A D.
      assert (Hcy : (0 < c * y)%Z) by (apply Z.mul_pos_pos; assumption).
      assert (H1 : (0 < c * y * (2 * A - D))%Z) by (apply Z.mul_pos_pos; lia).
      assert (H2 : (0 < c * y * (D - A))%Z) by (apply Z.mul_pos_pos; lia).
      split.
      + apply (Z.mul_le_mono_pos_r _ _ D); [exact HD|]. lia.
      + apply (Z.mul_lt_mono_pos_r D); [exact HD|]. lia.
    - pose proof (scaled_shift a d k0 52 ltac:(lia)) as Hs.
      fold A D in Hs.
      set (x := (a * 2 ^ Z.max 0 (- (k0 - 52)))%Z) in *.
      set (y := (d * 2 ^ Z.max 0 (k0 - 52))%Z) in *.
      assert (Hy : (0 < y)%Z).
      { unfold y. apply Z.mul_pos_pos; [exact Hd|]. apply Z.pow_pos_nonneg; lia. }
      change (2 ^ 53)%Z with (2 * 2 ^ 52)%Z in *.
      set (c := (2 ^ 52)%Z) in *. assert (Hc : (0 < c)%Z) by (unfold c; lia).
      clearbody c x y A D.
      assert (Hcy : (0 < c * y)%Z) by (apply Z.mul_pos_pos; assumption).
      assert (H1 : (0 <= c * y * (A - D))%Z) by (apply Z.mul_nonneg_nonneg; lia).
      assert (H2 : (0 < c * y * (2 * D - A))%Z) by (apply Z.mul_pos_pos; lia).
      split.
      + apply (Z.mul_le_mono_pos_r _ _ D); [exact HD|]. lia.
      + apply (Z.mul_lt_mono_pos_r D); [exact HD|]. lia. }
  pose proof (Z.div_mod num den ltac:(lia)) as Hdiv.
  pose proof (Z.mod_pos_bound num den Hden) as Hmod.
  assert (Hm : (2 ^ 52 <= num / den < 2 ^ 53)%Z).
  { split; [apply Z.div_le_lower_bound|apply Z.div_lt_upper_bound]; lia. }
  set (m0 := (num / den)%Z) in *. set (r0 := (num mod den)%Z) in *.
  match goal with
  | |- exists m e, _ /\ inject_Z (_ * ?m1) * _ = _ /\ _ => exists m1, e
  end.
  fold a d den num.
  change (2 ^ 52)%Z with 4503599627370496%Z in *.
  change (2 ^ 53)%Z with 9007199254740992%Z in *.
  clearbody m0 r0 num den.
  destruct (Z.ltb_spec (2 * r0) den) as [H1|H1];
    [|destruct (Z.ltb_spec den (2 * r0)) as [H2|H2];
      [|destruct (Z.even m0) eqn:Heven]];
    (split; [lia|split; [reflexivity|split; [lia|]]]); try lia.
  - intros _. exact Heven.
  - intros _. now rewrite Z.add_1_r, Z.even_succ, <- Z.negb_even, Heven.
Qed.

(** The rounding gives a nearest number of 53 significant bits: its
    absolute value is [m * 2 ^ e] for a significand [m] between [2 ^ 52]
    and [2 ^ 53], it is at most half of [2 ^ e] from what it rounds, and
    where it is exactly half of [2 ^ e] from it, [m] is even. *)
Lemma round_nearest (q : Q) : Qnum q <> 0%Z ->
  exists m e : Z,
    (2 ^ 52 <= m <= 2 ^ 53)%Z /\
    Qabs (Num.round q) == inject_Z m * Num.pow2 e /\
    Qabs (Num.round q - q) * 2 <= Num.pow2 e /\
    (Qabs (Num.round q - q) * 2 == Num.pow2 e -> Z.even m = true).
Proof.
  intros Hn. destruct (round_parts q Hn) as (m & e & Hm & Hr & Herr & Heven).
  exists m, e. split; [exact Hm|]. rewrite Hr.
  assert (HP : (0 < 2 ^ Z.max 0 e)%Z) by (apply Z.pow_pos_nonneg; lia).
  assert (HN : (0 < 2 ^ Z.max 0 (- e))%Z) by (apply Z.pow_pos_nonneg; lia).
  set (P := (2 ^ Z.max 0 e)%Z) in *. set (N := (2 ^ Z.max 0 (- e))%Z) in *.
  change (2 ^ 52)%Z with 4503599627370496%Z in *.
  change (2 ^ 53)%Z with 9007199254740992%Z in *.
  destruct q as [n d]. cbn [Qnum Qden] in *.
  unfold Num.pow2. fold P N.
  split; [|split].
  - unfold Qeq, Qabs, Qmult, inject_Z. cbn [Qnum Qden].
    rewrite !Pos2Z.inj_mul, !Z2Pos.id by assumption.
    clearbody P N. rewrite !Z.abs_mul.
    rewrite (Z.abs_eq m), (Z.abs_eq P) by lia.
    destruct (Z.sgn_spec n) as [(H2 & H3)|[(H2 & H3)|(H2 & H3)]]; [|lia|];
      rewrite H3; change (Z.abs (- (1))) with 1%Z; lia.
  - clear Heven.
    unfold Qle, Qabs, Qminus, Qplus, Qopp, Qmult, inject_Z. cbn [Qnum Qden].
    rewrite !Pos2Z.inj_mul, !Z2Pos.id by assumption.
    clearbody P N.
    replace (P * (1 * N * Z.pos d * 1))%Z with (P * Z.pos d * N)%Z by ring.
    apply Z.mul_le_mono_pos_r; [exact HN|].
    destruct (Z.sgn_spec n) as [(H2 & H3)|[(H2 & H3)|(H2 & H3)]]; [|lia|];
      rewrite H3; rewrite ?(Z.abs_eq n), ?(Z.abs_neq n) in Herr by lia; lia.
  - intros Hhalf. apply Heven. clear Heven Herr.
    unfold Qeq, Qabs, Qminus, Qplus, Qopp, Qmult, inject_Z in Hhalf.
    cbn [Qnum Qden] in Hhalf.
    rewrite !Pos2Z.inj_mul, !Z2Pos.id in Hhalf by assumption.
    clearbody P N.
    replace (P * (1 * N * Z.pos d * 1))%Z with (P * Z.pos d * N)%Z in Hhalf by ring.
    apply Z.mul_cancel_r in Hhalf; [|lia].
    destruct (Z.sgn_spec n) as [(H2 & H3)|[(H2 & H3)|(H2 & H3)]]; [|lia|];
      rewrite H3 in Hhalf; rewrite ?(Z.abs_eq n), ?(Z.abs_neq n) by lia; lia.
Qed.

(** The rounding keeps the sign of what it rounds. *)
Lemma round_shape (q : Q) :
  Qnum q <> 0%Z ->
  exists m p, (0 < m)%Z /\ Num.round q = (Z.sgn (Qnum q) * m) # p.
Proof.
  intros Hn. destruct (round_parts q Hn) as (m & e & Hm & Hr & _).
  exists (m * 2 ^ Z.max 0 e)%Z, (Z.to_pos (2 ^ Z.max 0 (- e))).
  split.
  - apply Z.mul_pos_pos; [lia|]. apply Z.pow_pos_nonneg; lia.
  - rewrite Hr. unfold Num.pow2, Qmult, inject_Z. cbn [Qnum Qden].
    now rewrite Z.mul_assoc.
Qed.

Lemma round_eq_zero (q : Q) : Num.round q == 0 <-> q == 0.
Proof.
  split; [|intros H; now rewrite (round_of_zero q H)].
  intros H. destruct (Z.eq_dec (Qnum q) 0) as [E|E].
  - unfold Qeq. cbn. lia.
  - destruct (round_shape q E) as (m & p & Hm & Hr). rewrite Hr in H.
    unfold Qeq in H. cbn in H. nia.
Qed.

Lemma round_nonpos (q : Q) : Num.round q <= 0 <-> q <= 0.
Proof.
  destruct (Z.eq_dec (Qnum q) 0) as [E|E].
  - rewrite (round_of_zero q) by (unfold Qeq; cbn; lia).
    unfold Qle. cbn. lia.
  - destruct (round_shape q E) as (m & p & Hm & Hr). rewrite Hr.
    unfold Qle. cbn. nia.
Qed.

(** At the numbers 0.15, 0.01 and 0.29, [double] and the rounded
    subtraction of the model are the literals and the subtraction of
    binary64 arithmetic; so is the rounded subtraction at the sample
    pairs. *)
Lemma round_as_binary64 :
  double (15 # 100) == Binary64.value Binary64.d015 /\
  double (1 # 100) == Binary64.value Binary64.d001 /\
  double (29 # 100) == Binary64.value Binary64.d029 /\
  Num.round (double (15 # 100) - double (1 # 100))
    == Binary64.value (PrimFloat.sub Binary64.d015 Binary64.d001) /\
  Num.round (double (15 # 100) - double (29 # 100))
    == Binary64.value (PrimFloat.sub Binary64.d015 Binary64.d029) /\
  forallb Binary64.agree Binary64.samples = true.
Proof.
  do 5 (split; [vm_compute; reflexivity|]). vm_compute. reflexivity.
Qed.

(** ** Reduction factors *)

Lemma Qltb_true x y : Qltb x y = true <-> x < y.
Proof.
  unfold Qltb. rewrite negb_true_iff. split; intro H.
  - apply Qnot_le_lt. intro Hle. apply Qle_bool_iff in Hle. congruence.
  - destruct (Qle_bool y x) eqn:E; [|reflexivity].
    apply Qle_bool_iff in E. exfalso. exact (Qlt_not_le _ _ H E).
Qed.

Lemma Qltb_false x y : Qltb x y = false <-> y <= x.
Proof.
  unfold Qltb. rewrite negb_false_iff. apply Qle_bool_iff.
Qed.

Lemma firstNearest_keep r l k f g :
  firstNearest r l k f -> distanceTo r f <= distanceTo r g ->
  firstNearest r (l ++ [g]) k f.
Proof.
  intros (Hk & Hmin & Hfirst) Hle. repeat split.
  - rewrite nth_error_app1; [assumption|].
    apply nth_error_Some. congruence.
  - intros h Hin. apply in_app_or in Hin.
    destruct Hin as [Hin|[<-|[]]]; [apply Hmin, Hin|exact Hle].
  - intros j h Hj Hn. apply (Hfirst j h Hj).
    rewrite nth_error_app1 in Hn; [assumption|].
    assert (k < List.length l)%nat by (apply nth_error_Some; congruence). lia.
Qed.

Lemma firstNearest_replace r l k f g :
  firstNearest r l k f -> distanceTo r g < distanceTo r f ->
  firstNearest r (l ++ [g]) (List.length l) g.
Proof.
  intros (Hk & Hmin & Hfirst) Hlt. repeat split.
  - rewrite nth_error_app2 by lia. now rewrite Nat.sub_diag.
  - intros h Hin. apply in_app_or in Hin. destruct Hin as [Hin|[<-|[]]].
    + apply Qlt_le_weak. eapply Qlt_le_trans; [exact Hlt|]. apply Hmin, Hin.
    + apply Qle_refl.
  - intros j h Hj Hn. rewrite nth_error_app1 in Hn by assumption.
    eapply Qlt_le_trans; [exact Hlt|]. apply Hmin. eapply nth_error_In; eassumption.
Qed.

(** The scan keeps the first nearest factor of what it has read. *)
Lemma quantizeScan_firstNearest r rest : forall pre k f,
  firstNearest r pre k f ->
  exists k' f',
    firstNearest r (pre ++ rest) k' f' /\
    quantizeScan (Finite r) (reduce f) (Finite (distanceTo r f)) rest = reduce f'.
Proof.
  induction rest as [|g rest IH]; intros pre k f Hf;
    cbn [quantizeScan Num.abs Num.sub Num.lt].
  - exists k, f. rewrite app_nil_r. auto.
  - fold (distanceTo r g). destruct (Qltb (distanceTo r g) (distanceTo r f)) eqn:E.
    + apply Qltb_true in E.
      destruct (IH (pre ++ [g])%list _ g (firstNearest_replace _ _ _ _ g Hf E))
        as (k' & f' & H1 & H2).
      exists k', f'. rewrite <- app_assoc in H1. auto.
    + apply Qltb_false in E.
      destruct (IH (pre ++ [g])%list _ f (firstNearest_keep _ _ _ _ g Hf E))
        as (k' & f' & H1 & H2).
      exists k', f'. rewrite <- app_assoc in H1. auto.
Qed.

(** C5.  For a non-empty list of factors and a numeric input, [quantizeReduce]
    returns the [reduce] of a member of the list that is nearest to the
    input in the distance the code computes, the absolute value of the
    rounded difference, and of the nearest members the one scanned first:
    every member is at least as far, and every member before it is strictly
    farther.  Where the differences of the input and the factors are
    binary64 numbers, so that no subtraction rounds, the same holds of the
    absolute difference itself. *)
Theorem quantizeReduce_first_nearest (r : Q) (factors : list ReductionFactor) :
  factors <> [] ->
  exists k f,
    nth_error factors k = Some f /\
    quantizeReduce (Finite r) factors = Return (reduce f) /\
    (forall g, In g factors ->
               Qabs (Num.round (r - reduce f)) <= Qabs (Num.round (r - reduce g))) /\
    (forall j g, (j < k)%nat -> nth_error factors j = Some g ->
                 Qabs (Num.round (r - reduce f)) < Qabs (Num.round (r - reduce g))) /\
    (exactDifferences r factors ->
     (forall g, In g factors -> Qabs (r - reduce f) <= Qabs (r - reduce g)) /\
     (forall j g, (j < k)%nat -> nth_error factors j = Some g ->
                  Qabs (r - reduce f) < Qabs (r - reduce g))).
Proof.
  destruct factors as [|f0 rest]; [congruence|]. intros _.
  assert (H0 : firstNearest r [f0] 0 f0).
  { repeat split.
    - intros g [<-|[]]. apply Qle_refl.
    - intros j g Hj. lia. }
  destruct (quantizeScan_firstNearest r rest _ _ _ H0)
    as (k & f & (Hk & Hmin & Hfirst) & Hq).
  exists k, f. split; [exact Hk|]. split.
  { unfold quantizeReduce. cbn [Num.abs Num.sub]. fold (distanceTo r f0).
    now rewrite Hq. }
  split; [exact Hmin|]. split; [exact Hfirst|].
  intros Hex. assert (Hf : In f ([f0] ++ rest)) by (eapply nth_error_In; exact Hk).
  split.
  - intros g Hg. rewrite <- (Hex f Hf), <- (Hex g Hg). exact (Hmin g Hg).
  - intros j g Hj Hn.
    rewrite <- (Hex f Hf), <- (Hex g (nth_error_In _ _ Hn)).
    exact (Hfirst j g Hj Hn).
Qed.

(** For the factors 1, 2 and 4 the input 3 is quantized to 2: no difference
    rounds, 2 and 4 are equally near, and 2 is scanned first. *)
Lemma quantizeReduce_first_nearest_witness :
  let factors := [rf 1; rf 2; rf 4] in
  factors <> [] /\
  exactDifferences 3 factors /\
  (exists k f,
      nth_error factors k = Some f /\
      quantizeReduce (Finite 3) factors = Return (reduce f) /\
      (forall g, In g factors -> Qabs (3 - reduce f) <= Qabs (3 - reduce g)) /\
      (forall j g, (j < k)%nat -> nth_error factors j = Some g ->
                   Qabs (3 - reduce f) < Qabs (3 - reduce g))) /\
  quantizeReduce (Finite 3) factors = Return 2.
Proof.
  assert (Hex : exactDifferences 3 [rf 1; rf 2; rf 4]).
  { intros g [<-|[<-|[<-|[]]]]; vm_compute; reflexivity. }
  split; [discriminate|]. split; [exact Hex|]. split.
  - destruct (@quantizeReduce_first_nearest 3 [rf 1; rf 2; rf 4])
      as (k & f & Hk & Hq & _ & _ & Hexact); [discriminate|].
    exists k, f. split; [exact Hk|]. split; [exact Hq|]. exact (Hexact Hex).
  - vm_compute. reflexivity.
Defined.

(** Where the subtractions round, the member that is returned need not be
    nearest in absolute difference.  The input 0.15 lies nearer to the
    factor 0.29 than to the factor 0.01; both differences round to the same
    number, and the factor scanned first, 0.01, is kept. *)
Lemma quantizeReduce_rounded_not_nearest :
  let r := double (15 # 100) in
  let near := double (29 # 100) in
  let far := double (1 # 100) in
  quantizeReduce (Finite r) [rf far; rf near] = Return far /\
  Qabs (r - near) < Qabs (r - far) /\
  Num.round (r - far) == - Num.round (r - near) /\
  ~ (forall (r : Q) (factors : list ReductionFactor),
       factors <> [] ->
       exists k f,
         nth_error factors k = Some f /\
         quantizeReduce (Finite r) factors = Return (reduce f) /\
         (forall g, In g factors -> Qabs (r - reduce f) <= Qabs (r - reduce g)) /\
         (forall j g, (j < k)%nat -> nth_error factors j = Some g ->
                      Qabs (r - reduce f) < Qabs (r - reduce g))).
Proof.
  cbv zeta.
  assert (Hq : quantizeReduce (Finite (double (15 # 100)))
                 [rf (double (1 # 100)); rf (double (29 # 100))]
               = Return (double (1 # 100))) by (vm_compute; reflexivity).
  assert (Hlt : Qabs (double (15 # 100) - double (29 # 100))
                < Qabs (double (15 # 100) - double (1 # 100)))
    by (vm_compute; reflexivity).
  split; [exact Hq|]. split; [exact Hlt|]. split; [vm_compute; reflexivity|].
  intros H.
  destruct (H (double (15 # 100)) [rf (double (1 # 100)); rf (double (29 # 100))])
    as (k & f & _ & Hr & Hmin & _); [discriminate|].
  rewrite Hq in Hr. injection Hr as Hr.
  specialize (Hmin (rf (double (29 # 100))) (or_intror (or_introl eq_refl))).
  rewrite <- Hr in Hmin. cbn [reduce rf] in Hmin.
  exact (Qlt_not_le _ _ Hlt Hmin).
Qed.

Lemma reduceSort_le a b : _reduceSort a b <= 0 <-> reduce a <= reduce b.
Proof. unfold _reduceSort. rewrite round_nonpos. split; intro H; lra. Qed.

Lemma sortedByReduce_head f l :
  sortedByReduce (f :: l) -> forall g, In g l -> reduce f <= reduce g.
Proof.
  intros Hs g Hin. inversion Hs as [|? ? _ Hall]; subst.
  rewrite Forall_forall in Hall. apply reduceSort_le, Hall, Hin.
Qed.

Lemma sortedByReduce_nth l : sortedByReduce l ->
  forall j j' a b, (j <= j')%nat ->
    nth_error l j = Some a -> nth_error l j' = Some b -> reduce a <= reduce b.
Proof.
  induction 1 as [|f l Hs IH Hall]; intros j j' a b Hle Ha Hb.
  - destruct j; discriminate.
  - destruct j as [|j], j' as [|j']; simpl in *.
    + injection Ha as <-. injection Hb as <-. apply Qle_refl.
    + injection Ha as <-. rewrite Forall_forall in Hall.
      apply reduceSort_le, Hall. eapply nth_error_In; eassumption.
    + lia.
    + apply (IH j j'); auto with arith.
Qed.

Lemma scanIn_none cur rest : forall i idx,
  Forall (fun f => Num.lt (Finite (reduce f)) cur = false) rest ->
  scanIn cur i rest idx = idx.
Proof.
  induction rest as [|g rest IH]; intros i idx Hall; cbn [scanIn]; [reflexivity|].
  inversion Hall as [|? ? Hg Hrest]; subst. rewrite Hg. now apply IH.
Qed.

Lemma scanOut_none cur revd : forall idx,
  Forall (fun f => Num.lt cur (Finite (reduce f)) = false) revd ->
  scanOut cur revd idx = idx.
Proof.
  induction revd as [|g more IH]; intros idx Hall; cbn [scanOut]; [reflexivity|].
  inversion Hall as [|? ? Hg Hrest]; subst. rewrite Hg. now apply IH.
Qed.

Lemma at_index_last (l : list ReductionFactor) d :
  l <> [] -> at_index l (Z.of_nat (List.length l) - 1) = Some (last l d).
Proof.
  intros Hl. unfold at_index.
  destruct l as [|x l]; [congruence|]. clear Hl.
  replace (Z.of_nat (List.length (x :: l)) - 1)%Z with (Z.of_nat (List.length l))
    by (simpl List.length; lia).
  destruct (Z.ltb_spec (Z.of_nat (List.length l)) 0) as [Hneg|_]; [lia|].
  rewrite Nat2Z.id. revert x. induction l as [|y l IH]; intros x; [reflexivity|].
  change (nth_error (y :: l) (List.length l) = Some (last (y :: l) d)). apply IH.
Qed.

Lemma find_none_of_forall (p : ReductionFactor -> bool) l :
  Forall (fun f => p f = false) l -> find p l = None.
Proof.
  induction 1 as [|f l Hf _ IH]; simpl; [reflexivity|]. now rewrite Hf.
Qed.

Lemma filter_nil_of_forall (p : ReductionFactor -> bool) l :
  Forall (fun f => p f = false) l -> filter p l = [].
Proof.
  induction 1 as [|f l Hf _ IH]; simpl; [reflexivity|]. now rewrite Hf.
Qed.

(** C6, as the code has it.  When the branch of a direction finds no
    candidate, [nextReduce] returns the first factor for 'in', 'auto',
    'height' and 'width', and the last factor for 'out'. *)
Theorem nextReduce_fallback (currentReduce : Num) (direction : string)
    (factors : list ReductionFactor) (first : ReductionFactor) :
  nth_error factors 0 = Some first ->
  In direction ["in"; "out"; "auto"; "height"; "width"] ->
  noCandidate currentReduce direction factors ->
  nextReduce currentReduce direction factors =
    Some (if String.eqb direction "out" then last factors first else first).
Proof.
  intros Hfirst Hdir Hnone.
  assert (Hne : factors <> []) by (intros ->; discriminate).
  simpl in Hdir.
  destruct Hdir as [<-|[<-|[<-|[<-|[<-|[]]]]]];
    unfold noCandidate in Hnone; unfold nextReduce; simpl String.eqb in *; cbv iota in *.
  - rewrite scanIn_none; [assumption|].
    destruct factors; [discriminate|]. now inversion Hnone.
  - rewrite scanOut_none.
    + now apply at_index_last.
    + apply Forall_forall. intros f Hf. rewrite Forall_forall in Hnone.
      apply Hnone. now apply in_rev.
  - rewrite find_none_of_forall, filter_nil_of_forall; [assumption| |].
    + eapply Forall_impl; [|exact Hnone]. intros f (_ & -> & ->). reflexivity.
    + eapply Forall_impl; [|exact Hnone]. now intros f (H & _).
  - simpl. now rewrite find_none_of_forall.
  - simpl. now rewrite find_none_of_forall.
Qed.

(** With the factors 1, 2 and 4, no factor is above 5: direction 'out'
    falls back to the last factor, 4.  None is below 1 and none carries an
    autofit tag: 'in' and 'auto' fall back to the first factor, 1. *)
Lemma nextReduce_fallback_witness :
  let factors := [rf 1; rf 2; rf 4] in
  nth_error factors 0 = Some (rf 1) /\
  (noCandidate (Finite 5) "out" factors /\
   nextReduce (Finite 5) "out" factors = Some (rf 4)) /\
  (noCandidate (Finite 1) "in" factors /\
   nextReduce (Finite 1) "in" factors = Some (rf 1)) /\
  (noCandidate (Finite 1) "auto" factors /\
   nextReduce (Finite 1) "auto" factors = Some (rf 1)).
Proof.
  intros factors.
  assert (Hout : noCandidate (Finite 5) "out" factors) by (repeat constructor).
  assert (Hin : noCandidate (Finite 1) "in" factors) by (repeat constructor).
  assert (Hauto : noCandidate (Finite 1) "auto" factors) by (repeat constructor).
  split; [reflexivity|]. split; [|split]; (split; [assumption|]).
  - apply (nextReduce_fallback (Finite 5) "out" factors (rf 1));
      [reflexivity | simpl; tauto | exact Hout].
  - apply (nextReduce_fallback (Finite 1) "in" factors (rf 1));
      [reflexivity | simpl; tauto | exact Hin].
  - apply (nextReduce_fallback (Finite 1) "auto" factors (rf 1));
      [reflexivity | simpl; tauto | exact Hauto].
Defined.

Lemma sorted_1_2_4 : sortedByReduce [rf 1; rf 2; rf 4].
Proof.
  repeat constructor; apply reduceSort_le; simpl; lra.
Qed.

(** C6 as stated fails for 'out': with the sorted factors 1, 2 and 4 and
    the current value 5 no factor is strictly above, and the result is the
    last factor, not the first. *)
Lemma nextReduce_out_fallback_is_not_first :
  ~ (forall (currentReduce : Num) (direction : string)
            (factors : list ReductionFactor) (first : ReductionFactor),
        nth_error factors 0 = Some first ->
        sortedByReduce factors ->
        In direction ["in"; "out"; "auto"; "height"; "width"] ->
        noCandidate currentReduce direction factors ->
        nextReduce currentReduce direction factors = Some first).
Proof.
  intros H.
  specialize (H (Finite 5) "out" [rf 1; rf 2; rf 4] (rf 1) eq_refl sorted_1_2_4).
  assert (Hd : In "out" ["in"; "out"; "auto"; "height"; "width"]) by (simpl; tauto).
  assert (Hn : noCandidate (Finite 5) "out" [rf 1; rf 2; rf 4]) by (repeat constructor).
  specialize (H Hd Hn). vm_compute in H. discriminate H.
Qed.

Lemma scanIn_result cur rest : forall i idx,
  let k := scanIn (Finite cur) i rest idx in
  (k = idx /\ forall g, In g rest -> ~ reduce g < cur) \/
  (exists j g, k = (i + j)%nat /\ nth_error rest j = Some g /\ reduce g < cur /\
     forall j' g', (j < j')%nat -> nth_error rest j' = Some g' -> ~ reduce g' < cur).
Proof.
  induction rest as [|g rest IH]; intros i idx; simpl.
  - left. split; [reflexivity|]. intros g [].
  - destruct (IH (S i) (if Qltb (reduce g) cur then i else idx))
      as [(Hk & Hnone)|(j & h & Hk & Hj & Hh & Hafter)].
    + destruct (Qltb (reduce g) cur) eqn:E.
      * right. exists 0%nat, g. apply Qltb_true in E. repeat split; auto with arith.
        -- lia.
        -- intros [|j'] g' Hlt Hn; [lia|]. apply Hnone. eapply nth_error_In; eassumption.
      * left. split; [assumption|]. intros h [<-|Hin]; [|now apply Hnone].
        apply Qltb_false in E. now apply Qle_not_lt.
    + right. exists (S j), h. repeat split; auto.
      * lia.
      * intros [|j'] g' Hlt Hn; [lia|]. apply (Hafter j' g'); [lia|assumption].
Qed.

(** C7.  On factors sorted ascending, direction 'in' returns the factor
    with the greatest [reduce] strictly below the current value, whenever
    some factor is strictly below it. *)
Theorem nextReduce_in_greatest_below (currentReduce : Q)
    (factors : list ReductionFactor) :
  sortedByReduce factors ->
  (exists f, In f factors /\ reduce f < currentReduce) ->
  exists res,
    nextReduce (Finite currentReduce) "in" factors = Some res /\
    In res factors /\
    reduce res < currentReduce /\
    forall g, In g factors -> reduce g < currentReduce -> reduce g <= reduce res.
Proof.
  intros Hs (f & Hf & Hbelow).
  destruct factors as [|f0 rest]; [destruct Hf|].
  unfold nextReduce. simpl String.eqb. cbv iota. simpl tl.
  destruct (scanIn_result currentReduce rest 1 0)
    as [(Hk & Hnone)|(j & h & Hk & Hj & Hh & Hafter)]; rewrite Hk.
  - exists f0. simpl nth_error.
    assert (Hf0 : f = f0).
    { destruct Hf as [->|Hin]; [reflexivity|]. exfalso. exact (Hnone f Hin Hbelow). }
    subst f. repeat split; auto.
    intros g [<-|Hin] Hg; [apply Qle_refl|]. exfalso. exact (Hnone g Hin Hg).
  - exists h. simpl nth_error. repeat split; auto.
    + right. eapply nth_error_In; eassumption.
    + intros g [<-|Hin] Hg.
      * eapply sortedByReduce_head; [exact Hs|]. eapply nth_error_In; eassumption.
      * apply In_nth_error in Hin. destruct Hin as (j' & Hj').
        destruct (Nat.le_gt_cases j' j) as [Hle|Hgt].
        -- inversion Hs as [|? ? Hrest _]; subst.
           eapply (sortedByReduce_nth _ Hrest); eassumption.
        -- exfalso. exact (Hafter j' g Hgt Hj' Hg).
Qed.

(** With the sorted factors 1, 2 and 4 and the current value 3, the
    factor 2 is the greatest below. *)
Lemma nextReduce_in_greatest_below_witness :
  let factors := [rf 1; rf 2; rf 4] in
  sortedByReduce factors /\
  (exists f, In f factors /\ reduce f < 3) /\
  (exists res,
      nextReduce (Finite 3) "in" factors = Some res /\
      In res factors /\
      reduce res < 3 /\
      forall g, In g factors -> reduce g < 3 -> reduce g <= reduce res) /\
  nextReduce (Finite 3) "in" factors = Some (rf 2).
Proof.
  assert (He : exists f, In f [rf 1; rf 2; rf 4] /\ reduce f < 3).
  { exists (rf 1). split; [simpl; tauto|]. simpl. lra. }
  split; [exact sorted_1_2_4|]. split; [exact He|]. split; [|reflexivity].
  exact (@nextReduce_in_greatest_below 3 [rf 1; rf 2; rf 4] sorted_1_2_4 He).
Defined.

(** ** The fragment codec *)

Lemma forallb_impl (p q : ascii -> bool) s :
  (forall c, p c = true -> q c = true) ->
  Str.forallb p s = true -> Str.forallb q s = true.
Proof.
  intros Hpq. induction s as [|c s IH]; simpl; [reflexivity|].
  rewrite !andb_true_iff. intros (Hc & Hs). auto.
Qed.

Lemma digit_not_slash c : Str.isDigit c = true -> negb (Ascii.eqb c "/") = true.
Proof. destruct c as [[] [] [] [] [] [] [] []]; vm_compute; congruence. Qed.

Lemma digit_not_percent c : Str.isDigit c = true -> negb (Ascii.eqb c "%") = true.
Proof. destruct c as [[] [] [] [] [] [] [] []]; vm_compute; congruence. Qed.

Lemma string_of_uint_digits d :
  Str.forallb Str.isDigit (DecimalString.NilEmpty.string_of_uint d) = true.
Proof. induction d; simpl; auto. Qed.

(** The decimal numeral of an index is made of digits, and reads back as
    the index. *)
Lemma ofZ_digits i : (0 <= i)%Z -> Str.forallb Str.isDigit (Str.ofZ i) = true.
Proof.
  intros Hi. unfold Str.ofZ.
  destruct i as [|p|p]; [reflexivity| |lia].
  simpl. destruct (Pos.to_uint p); try apply string_of_uint_digits. reflexivity.
Qed.

Lemma parseAllDigits_ofZ i : (0 <= i)%Z -> Str.parseAllDigits (Str.ofZ i) = Some i.
Proof.
  intros Hi. unfold Str.ofZ, Str.parseAllDigits.
  pose proof (DecimalZ.of_to i) as Hof.
  destruct (Z.to_int i) as [d|d] eqn:E.
  - simpl in Hof. simpl DecimalString.NilZero.string_of_int.
    destruct d as [|d'|d'|d'|d'|d'|d'|d'|d'|d'|d'];
      [rewrite <- Hof; reflexivity| ..];
      unfold DecimalString.NilZero.string_of_uint;
      match goal with
      | |- context [DecimalString.NilEmpty.string_of_uint ?x] =>
          pose proof (DecimalString.NilEmpty.usu x) as Hu;
          destruct (DecimalString.NilEmpty.string_of_uint x) eqn:Es;
          [discriminate Es | rewrite Hu; simpl; congruence]
      end.
  - destruct i; simpl in E; try discriminate. lia.
Qed.

Lemma split_plain sep s :
  Str.forallb (fun c => negb (Ascii.eqb c sep)) s = true -> Str.split sep s = [s].
Proof.
  induction s as [|c s IH]; simpl; [reflexivity|].
  rewrite andb_true_iff, negb_true_iff. intros (-> & Hs). now rewrite IH.
Qed.

Lemma split_app sep s rest :
  Str.forallb (fun c => negb (Ascii.eqb c sep)) s = true ->
  Str.split sep (s ++ String sep rest) = s :: Str.split sep rest.
Proof.
  induction s as [|c s IH]; simpl.
  - intros _. now rewrite Ascii.eqb_refl.
  - rewrite andb_true_iff, negb_true_iff. intros (-> & Hs). now rewrite IH.
Qed.

Lemma decodeFrom_plain s : forall fuel,
  (String.length s <= fuel)%nat ->
  Str.forallb (fun c => negb (Ascii.eqb c "%")) s = true ->
  URI.decodeFrom fuel s = Return s.
Proof.
  induction s as [|c s IH]; intros fuel Hlen Hs.
  - destruct fuel; reflexivity.
  - destruct fuel as [|fuel]; [simpl in Hlen; lia|].
    simpl in Hs. apply andb_true_iff in Hs. destruct Hs as (Hc & Hs).
    assert (Hrec : URI.decodeFrom fuel s = Return s)
      by (apply IH; [simpl in Hlen; lia|assumption]).
    destruct c as [[] [] [] [] [] [] [] []];
      try discriminate Hc; cbn [URI.decodeFrom]; rewrite Hrec; reflexivity.
Qed.

Lemma decodeURIComponent_plain s :
  Str.forallb (fun c => negb (Ascii.eqb c "%")) s = true ->
  URI.decodeURIComponent s = Return s.
Proof. intros Hs. now apply decodeFrom_plain. Qed.

Lemma uint_of_string_nondigit s :
  Str.forallb Str.isDigit s = false -> DecimalString.NilEmpty.uint_of_string s = None.
Proof.
  induction s as [|c s IH]; simpl; [discriminate|].
  rewrite andb_false_iff. intros [Hc|Hs].
  - destruct (DecimalString.NilEmpty.uint_of_string s); [|reflexivity].
    destruct c as [[] [] [] [] [] [] [] []]; try reflexivity; discriminate Hc.
  - now rewrite IH.
Qed.

Lemma parseAllDigits_nondigit s :
  Str.forallb Str.isDigit s = false -> Str.parseAllDigits s = None.
Proof.
  intros Hs. unfold Str.parseAllDigits. rewrite (uint_of_string_nondigit _ Hs).
  now destruct s.
Qed.

(** A fragment that is not a bare number is read through its tokens. *)
Lemma paramsFromFragment_tokens fragment urlArray :
  stripHash fragment = fragment ->
  Str.forallb Str.isDigit fragment = false ->
  Str.split "/" fragment = urlArray ->
  paramsFromFragment fragment = paramsFromUrlHash (fillUrlHash urlArray []).
Proof.
  intros Hstrip Hdigits Hsplit. unfold paramsFromFragment.
  rewrite Hstrip, (parseAllDigits_nondigit _ Hdigits), Hsplit. reflexivity.
Qed.

Lemma paramsFromFragment_page_mode d tok m :
  Str.forallb Str.isDigit d = true ->
  In (tok, m) [("1up", constMode1up); ("2up", constMode2up); ("thumb", constModeThumb)] ->
  paramsFromFragment ("page/n" ++ d ++ "/mode/" ++ tok) =
    Return (Params.setMode (MNum m) (Params.setPage (Some ("n" ++ d)) Params.empty)).
Proof.
  intros Hd Htok.
  pose proof (forallb_impl _ _ _ digit_not_slash Hd) as Hslash.
  pose proof (forallb_impl _ _ _ digit_not_percent Hd) as Hpercent.
  assert (Hdec : URI.decodeURIComponent ("n" ++ d) = Return ("n" ++ d))
    by (apply decodeURIComponent_plain; simpl; exact Hpercent).
  simpl in Htok.
  destruct Htok as [E|[E|[E|[]]]]; injection E as <- <-;
    (match goal with
     | |- paramsFromFragment (_ ++ _ ++ _ ++ ?t) = _ =>
         rewrite paramsFromFragment_tokens with (urlArray := ["page"; "n" ++ d; "mode"; t])
     end;
     [ unfold paramsFromUrlHash; cbn [fillUrlHash]; 
       change (urlHashGet "page" _) with (Some ("n" ++ d)); 
       cbv beta iota zeta; rewrite Hdec; reflexivity
     | reflexivity
     | reflexivity
     | simpl; rewrite split_app by assumption; reflexivity ]).
Qed.

Lemma paramsFromFragment_page d :
  Str.forallb Str.isDigit d = true ->
  paramsFromFragment ("page/n" ++ d) =
    Return (Params.setPage (Some ("n" ++ d)) Params.empty).
Proof.
  intros Hd.
  pose proof (forallb_impl _ _ _ digit_not_slash Hd) as Hslash.
  pose proof (forallb_impl _ _ _ digit_not_percent Hd) as Hpercent.
  assert (Hdec : URI.decodeURIComponent ("n" ++ d) = Return ("n" ++ d))
    by (apply decodeURIComponent_plain; simpl; exact Hpercent).
  rewrite paramsFromFragment_tokens with (urlArray := ["page"; "n" ++ d]).
  - unfold paramsFromUrlHash; cbn [fillUrlHash].
    change (urlHashGet "page" _) with (Some ("n" ++ d)).
    cbv beta iota zeta. rewrite Hdec. reflexivity.
  - reflexivity.
  - reflexivity.
  - simpl. rewrite split_plain by assumption. reflexivity.
Qed.

Lemma extendParams_page book d i m :
  parsePageString book ("n" ++ d) = Some i ->
  extendParams book Params.empty
    (Params.setMode m (Params.setPage (Some ("n" ++ d)) Params.empty)) =
  Params.setMode m (Params.setIndex (Some i) Params.empty).
Proof.
  intros Hparse. unfold extendParams.
  cbn [Params.extend Params.page Params.setMode Params.setPage Params.empty Params.orElse].
  rewrite Hparse. now destruct m.
Qed.

Section RoundTrip.

(** The book's page-string parser reads 'n<index>' as that index. *)
Variable book : BookModel.
Hypothesis parses_index :
  forall i, (0 <= i)%Z -> parsePageString book ("n" ++ Str.ofZ i) = Some i.

(** The case of an index [i] and the mode [m] named [tok]. *)
Ltac index_and_mode i tok m :=
  exists ("page/n" ++ Str.ofZ i ++ "/mode/" ++ tok),
    (Params.setMode (MNum m) (Params.setPage (Some ("n" ++ Str.ofZ i)) Params.empty));
  split; [reflexivity|];
  split; [apply paramsFromFragment_page_mode; [assumption|simpl; tauto]|];
  repeat split; apply extendParams_page; assumption.

(** The case of a mode alone, encoded as [fragment]. *)
Ltac mode_alone fragment m :=
  exists fragment, (Params.setMode (MNum m) Params.empty); repeat split.

(** C4.  A params record that holds only an index and a mode is encoded,
    decoded to a record with the page string 'n<index>' and the same mode,
    and normalized by [extendParams] back to the record itself. *)
Theorem fragment_round_trip (p : Params.t) (urlMode : string) :
  onlyIndexAndMode p ->
  exists fragment raw,
    fragmentFromParams p urlMode = Return fragment /\
    paramsFromFragment fragment = Return raw /\
    Params.index raw = None /\
    Params.page raw = option_map (fun i => "n" ++ Str.ofZ i) (Params.index p) /\
    Params.mode raw = Params.mode p /\
    extendParams book Params.empty raw = p.
Proof.
  destruct p as [index page mode search theme init pageFound fragmentChange].
  unfold onlyIndexAndMode.
  cbn [Params.index Params.page Params.mode Params.search Params.theme
       Params.init Params.pageFound Params.fragmentChange].
  intros (-> & -> & -> & -> & -> & -> & Hidx & Hmode).
  destruct index as [i|].
  - pose proof (ofZ_digits i (Hidx i eq_refl)) as Hd.
    pose proof (parses_index i (Hidx i eq_refl)) as Hp.
    destruct Hmode as [->|[->|[->| ->]]].
    + exists ("page/n" ++ Str.ofZ i), (Params.setPage (Some ("n" ++ Str.ofZ i)) Params.empty).
      split; [reflexivity|]. split; [now apply paramsFromFragment_page|].
      repeat split. exact (extendParams_page book _ _ MUndefined Hp).
    + index_and_mode i "1up" constMode1up.
    + index_and_mode i "2up" constMode2up.
    + index_and_mode i "thumb" constModeThumb.
  - destruct Hmode as [->|[->|[->| ->]]].
    + exists "", Params.empty. repeat split.
    + mode_alone "mode/1up" constMode1up.
    + mode_alone "mode/2up" constMode2up.
    + mode_alone "mode/thumb" constModeThumb.
Qed.

End RoundTrip.

Lemma sampleBook_parses_index i :
  (0 <= i)%Z -> parsePageString sampleBook ("n" ++ Str.ofZ i) = Some i.
Proof. intros Hi. exact (parseAllDigits_ofZ i Hi). Qed.

(** The record [{index: 5, mode: 2}] is encoded as 'page/n5/mode/2up',
    which decodes to [{page: 'n5', mode: 2}] and normalizes to the
    record. *)
Lemma fragment_round_trip_witness :
  let p := Params.setMode (MNum constMode2up) (Params.setIndex (Some 5%Z) Params.empty) in
  let raw := Params.setMode (MNum constMode2up) (Params.setPage (Some "n5") Params.empty) in
  (forall i, (0 <= i)%Z -> parsePageString sampleBook ("n" ++ Str.ofZ i) = Some i) /\
  onlyIndexAndMode p /\
  (exists fragment raw',
      fragmentFromParams p "hash" = Return fragment /\
      paramsFromFragment fragment = Return raw' /\
      Params.index raw' = None /\
      Params.page raw' = option_map (fun i => "n" ++ Str.ofZ i) (Params.index p) /\
      Params.mode raw' = Params.mode p /\
      extendParams sampleBook Params.empty raw' = p) /\
  fragmentFromParams p "hash" = Return "page/n5/mode/2up" /\
  paramsFromFragment "page/n5/mode/2up" = Return raw /\
  extendParams sampleBook Params.empty raw = p.
Proof.
  intros p raw.
  assert (Hp : onlyIndexAndMode p).
  { unfold onlyIndexAndMode, p, isModeConstant. simpl.
    repeat split; auto. intros i E. injection E as <-. lia. }
  split; [exact sampleBook_parses_index|]. split; [exact Hp|]. split.
  - exact (fragment_round_trip sampleBook sampleBook_parses_index p "hash" Hp).
  - repeat split.
Defined.

Lemma decodeFrom_throws fuel : forall s e,
  URI.decodeFrom fuel s = Throw e -> e = URIError "URI malformed".
Proof.
  induction fuel as [|fuel IH]; intros s e; [discriminate|].
  destruct s as [|c s]; [discriminate|].
  assert (Hrec : forall t (k : string -> string),
             bindC (URI.decodeFrom fuel t) (fun r => Return (k r)) = Throw e ->
             e = URIError "URI malformed").
  { intros t k. destruct (URI.decodeFrom fuel t) eqn:E; [discriminate|].
    simpl. intros H. injection H as <-. exact (IH _ _ E). }
  destruct c as [[] [] [] [] [] [] [] []]; cbn [URI.decodeFrom];
    try exact (Hrec s _).
  destruct (URI.hexOctet s) as [(b, rest1)|]; [|congruence].
  destruct (b <? 128)%N; [exact (Hrec rest1 _)|].
  destruct (URI.continuations b) as [k|]; [|congruence].
  destruct (URI.escapes k rest1) as [(bs, rest2)|]; [|congruence].
  destruct (URI.validUtf8 (b :: bs)); [exact (Hrec rest2 _)|congruence].
Qed.

Lemma decodeURIComponentPlus_throws v e :
  URI.decodeURIComponentPlus v = Throw e -> e = URIError "URI malformed".
Proof.
  unfold URI.decodeURIComponentPlus, URI.decodeURIComponent.
  destruct (URI.decodeFrom _ v) eqn:E; [discriminate|].
  simpl. intros H. injection H as <-. exact (decodeFrom_throws _ _ _ E).
Qed.

Lemma urlHashIs_false urlHash key token :
  urlHashGet key urlHash <> Some token -> urlHashIs urlHash key token = false.
Proof.
  unfold urlHashIs. destruct (urlHashGet key urlHash) as [v|]; [|reflexivity].
  intros Hne. destruct (String.eqb_spec token v); [subst; congruence|reflexivity].
Qed.

(** What [paramsFromUrlHash] does when the mode value is not recognized. *)
Lemma paramsFromUrlHash_unrecognized urlHash :
  urlHashGet "mode" urlHash <> Some "1up" ->
  urlHashGet "mode" urlHash <> Some "2up" ->
  urlHashGet "mode" urlHash <> Some "thumb" ->
  (forall p, paramsFromUrlHash urlHash = Return p -> Params.mode p = MUndefined) /\
  (forall e, paramsFromUrlHash urlHash = Throw e -> e = URIError "URI malformed") /\
  ((forall v, urlHashGet "page" urlHash = Some v ->
              exists d, URI.decodeURIComponent v = Return d) ->
   (forall v, urlHashGet "search" urlHash = Some v ->
              exists d, URI.decodeURIComponentPlus v = Return d) ->
   exists p, paramsFromUrlHash urlHash = Return p).
Proof.
  intros H1 H2 H3. unfold paramsFromUrlHash.
  rewrite !urlHashIs_false by assumption.
  destruct (urlHashGet "page" urlHash) as [pv|];
    [destruct (URI.decodeURIComponent pv) as [pd|pe] eqn:Ep|];
    (destruct (urlHashGet "search" urlHash) as [sv|];
     [destruct (URI.decodeURIComponentPlus sv) as [sd|se] eqn:Es|]);
    destruct (urlHashGet "theme" urlHash) as [tv|]; cbn [bindC];
    (split; [intros p E; try discriminate E; injection E as <-; reflexivity|]);
    (split; [intros e E; try discriminate E; injection E as <-;
             first [exact (decodeFrom_throws _ _ _ Ep)
                   |exact (decodeURIComponentPlus_throws _ _ Es)]|]);
    intros Hp Hs; try (eexists; reflexivity);
    try (destruct (Hs _ eq_refl) as (? & ?); congruence);
    try (destruct (Hp _ eq_refl) as (? & ?); congruence).
Qed.

(** C10, as the code has it.  When the mode value of a fragment is none of
    '1up', '2up' and 'thumb', every params record [paramsFromFragment]
    returns has no mode, the only error it can raise is the URIError of a
    malformed page or search value, and it returns whenever those values
    are well-formed; [fragmentFromParams] throws for every mode that is
    defined and is not a mode constant. *)
Theorem unrecognized_mode_dropped (fragment : string) :
  unrecognizedMode fragment ->
  (forall p, paramsFromFragment fragment = Return p -> Params.mode p = MUndefined) /\
  (forall e, paramsFromFragment fragment = Throw e -> e = URIError "URI malformed") /\
  (decodable fragment ->
   exists p, paramsFromFragment fragment = Return p /\ Params.mode p = MUndefined) /\
  (forall (p : Params.t) (urlMode : string),
      Params.mode p <> MUndefined -> ~ isModeConstant (Params.mode p) ->
      fragmentFromParams p urlMode =
        Throw (ThrownString ("fragmentFromParams called with unknown mode "
                             ++ Mode.toString (Params.mode p)))).
Proof.
  intros (H1 & H2 & H3). unfold fragmentValue in *.
  destruct (paramsFromUrlHash_unrecognized _ H1 H2 H3) as (Hret & Hthrow & Hok).
  assert (Hmode : forall p, paramsFromFragment fragment = Return p ->
                            Params.mode p = MUndefined).
  { unfold paramsFromFragment.
    destruct (Str.parseAllDigits (stripHash fragment)); [|exact Hret].
    intros p E. injection E as <-. reflexivity. }
  split; [exact Hmode|]. split; [|split].
  - unfold paramsFromFragment.
    destruct (Str.parseAllDigits (stripHash fragment)); [discriminate|exact Hthrow].
  - intros (Hp & Hs).
    assert (Hex : exists p, paramsFromFragment fragment = Return p).
    { unfold paramsFromFragment.
      destruct (Str.parseAllDigits (stripHash fragment)); [eexists; reflexivity|].
      exact (Hok Hp Hs). }
    destruct Hex as (p & E). exists p. split; [exact E|exact (Hmode p E)].
  - intros p urlMode Hdef Hconst. unfold fragmentFromParams.
    destruct (Params.mode p) as [| |n|key] eqn:Em; [congruence|reflexivity| |reflexivity].
    unfold isModeConstant, constMode1up, constMode2up, constModeThumb in Hconst.
    cbn [Mode.looseEqNum].
    destruct (Z.eqb_spec n constMode1up); [subst; exfalso; apply Hconst; auto|].
    destruct (Z.eqb_spec n constMode2up); [subst; exfalso; apply Hconst; auto|].
    destruct (Z.eqb_spec n constModeThumb); [subst; exfalso; apply Hconst; auto|].
    reflexivity.
Qed.

(** The fragment 'mode/3up': its mode is dropped; the mode 4 is not
    encoded. *)
Lemma unrecognized_mode_dropped_witness :
  unrecognizedMode "mode/3up" /\
  decodable "mode/3up" /\
  paramsFromFragment "mode/3up" = Return Params.empty /\
  (exists p, paramsFromFragment "mode/3up" = Return p /\ Params.mode p = MUndefined) /\
  fragmentFromParams (Params.setMode (MNum 4) Params.empty) "hash" =
    Throw (ThrownString "fragmentFromParams called with unknown mode 4").
Proof.
  assert (Hu : unrecognizedMode "mode/3up") by (repeat split; discriminate).
  assert (Hd : decodable "mode/3up") by (split; intros v E; discriminate E).
  split; [exact Hu|]. split; [exact Hd|]. split; [reflexivity|]. split.
  - exact (proj1 (proj2 (proj2 (@unrecognized_mode_dropped "mode/3up" Hu))) Hd).
  - apply (proj2 (proj2 (proj2 (@unrecognized_mode_dropped "mode/3up" Hu)))).
    + discriminate.
    + unfold isModeConstant. simpl. intros [E|[E|E]]; discriminate E.
Defined.

(** C10 as stated fails: a fragment with an unrecognized mode value can
    still raise an error, here through the malformed page value '%'. *)
Lemma unrecognized_mode_fragment_can_throw :
  unrecognizedMode "mode/3up/page/%" /\
  paramsFromFragment "mode/3up/page/%" = Throw (URIError "URI malformed") /\
  ~ (forall fragment,
        unrecognizedMode fragment ->
        exists p, paramsFromFragment fragment = Return p /\ Params.mode p = MUndefined).
Proof.
  assert (Hu : unrecognizedMode "mode/3up/page/%") by (repeat split; discriminate).
  split; [exact Hu|]. split; [reflexivity|].
  intros H. destruct (H _ Hu) as (p & E & _). discriminate E.
Qed.

(** ** Navigation *)

(** C1.  A jump to a page that is not viewable and is not the start of its
    unviewable run, in a viewer that can tell whether it displays the
    start of the run.  The call is redirected: to the page [findNext] gives
    if the start is displayed, to the start otherwise; with no page to go
    to, it returns and leaves the viewer as it was.  So, if the start is
    displayed and no page follows the run, the jump is abandoned; if the
    start is displayed and a viewable page follows the run, the jump lands
    there; if the start is not displayed, the jump lands on the start of
    the run.  Two nested calls suffice. *)
Theorem jumpToIndex_unviewable_run (br : BR.t) (i start : Z) (displayed : bool)
    (pageX pageY : option Q) (noAnimate : option bool) (fuel : nat) :
  let book := BR.book br in
  let page := getPage book i in
  Page.isViewable page = false ->
  Page.unviewablesStart page = Some start ->
  start <> Page.index page ->
  _isIndexDisplayed (Some start) br = Return displayed ->
  jumpToIndex (S fuel) i pageX pageY noAnimate br =
    match (if displayed then option_map Page.index (findNext book page)
           else Some start) with
    | Some newIndex => jumpToIndex fuel newIndex pageX pageY noAnimate br
    | None => Some (Return tt, br)
    end /\
  (displayed = true -> findNext book page = None ->
   jumpToIndex (S fuel) i pageX pageY noAnimate br = Some (Return tt, br)) /\
  (forall nxt r,
      displayed = true -> findNext book page = Some nxt ->
      Page.isViewable (getPage book (Page.index nxt)) = true ->
      activeMode br = Some r ->
      jumpToIndex (S (S fuel)) i pageX pageY noAnimate br =
        Some (Return tt, landOn r (Page.index nxt) pageX pageY noAnimate br)) /\
  (forall r,
      displayed = false ->
      insideUnviewableRun (getPage book start) = false ->
      activeMode br = Some r ->
      jumpToIndex (S (S fuel)) i pageX pageY noAnimate br =
        Some (Return tt, landOn r start pageX pageY noAnimate br)).
Proof.
  intros book page Hview Hstart Hne Hshown.
  assert (Hinside : insideUnviewableRun page = true).
  { unfold insideUnviewableRun. rewrite Hview, Hstart. simpl.
    destruct (Z.eqb_spec start (Page.index page)); [contradiction|reflexivity]. }
  assert (Hstep : forall n,
             jumpToIndex (S n) i pageX pageY noAnimate br =
             match (if displayed then option_map Page.index (findNext book page)
                    else Some start) with
             | Some j => jumpToIndex n j pageX pageY noAnimate br
             | None => Some (Return tt, br)
             end).
  { intros n. cbn [jumpToIndex]. fold book. fold page.
    change (negb (Page.isViewable page) && _) with (insideUnviewableRun page).
    rewrite Hinside, Hstart, Hshown. reflexivity. }
  assert (Hland : forall n j r,
             insideUnviewableRun (getPage book j) = false ->
             activeMode br = Some r ->
             jumpToIndex (S n) j pageX pageY noAnimate br =
               Some (Return tt, landOn r j pageX pageY noAnimate br)).
  { intros n j r Hj Hr. cbn [jumpToIndex]. fold book.
    change (negb (Page.isViewable (getPage book j)) && _)
      with (insideUnviewableRun (getPage book j)).
    rewrite Hj.
    change (activeMode (trigger (eventNames "stop") br)) with (activeMode br).
    rewrite Hr. reflexivity. }
  split; [apply Hstep|]. split; [|split].
  - intros -> Hnone. rewrite Hstep, Hnone. reflexivity.
  - intros nxt r -> Hnext Hv Hr. rewrite Hstep, Hnext. simpl option_map. cbv iota.
    apply Hland; [|exact Hr]. unfold insideUnviewableRun. now rewrite Hv.
  - intros r -> Hs Hr. rewrite Hstep. apply Hland; assumption.
Qed.

(** In [sampleBook] the run starts at 10 and 14 is the next viewable
    page.  A jump to 12 from page 3 lands on 10; a jump to 12 while 10 is
    shown lands on 14.  In [shortBook] the run 1..2 ends the book: a jump
    to 2 while 1 is shown changes nothing. *)
Lemma jumpToIndex_unviewable_run_witness :
  let far := sampleViewer sampleBook 3 in
  let atStart := sampleViewer sampleBook 10 in
  let atEnd := sampleViewer shortBook 1 in
  (Page.isViewable (getPage sampleBook 12) = false /\
   Page.unviewablesStart (getPage sampleBook 12) = Some 10%Z /\
   option_map Page.index (findNext sampleBook (getPage sampleBook 12)) = Some 14%Z) /\
  (_isIndexDisplayed (Some 10%Z) far = Return false /\
   jumpToIndex 2 12 None None None far =
     Some (Return tt, landOn Mode1Up 10 None None None far)) /\
  (_isIndexDisplayed (Some 10%Z) atStart = Return true /\
   jumpToIndex 2 12 None None None atStart =
     Some (Return tt, landOn Mode1Up 14 None None None atStart)) /\
  (_isIndexDisplayed (Some 1%Z) atEnd = Return true /\
   findNext shortBook (getPage shortBook 2) = None /\
   jumpToIndex 1 2 None None None atEnd = Some (Return tt, atEnd)).
Proof.
  intros far atStart atEnd.
  assert (Hne : 10%Z <> Page.index (getPage sampleBook 12)) by (vm_compute; discriminate).
  assert (Hne' : 1%Z <> Page.index (getPage shortBook 2)) by (vm_compute; discriminate).
  split; [repeat split|]. split; [|split].
  - split; [reflexivity|].
    exact (proj2 (proj2 (proj2 (jumpToIndex_unviewable_run far 12 10 false
                                  None None None 0 eq_refl eq_refl Hne eq_refl)))
             Mode1Up eq_refl eq_refl eq_refl).
  - split; [reflexivity|].
    exact (proj1 (proj2 (proj2 (jumpToIndex_unviewable_run atStart 12 10 true
                                  None None None 0 eq_refl eq_refl Hne eq_refl)))
             (getPage sampleBook 14) Mode1Up eq_refl eq_refl eq_refl eq_refl).
  - split; [reflexivity|]. split; [reflexivity|].
    exact (proj1 (proj2 (jumpToIndex_unviewable_run atEnd 2 1 true None None None 0
                           eq_refl eq_refl Hne' eq_refl))
             eq_refl eq_refl).
Defined.

(** ** Modes *)

Lemma strictEq_eq a b : Mode.strictEq a b = true <-> a = b.
Proof.
  destruct a, b; simpl; split; intros H; try discriminate; try reflexivity.
  - apply Z.eqb_eq in H. now subst.
  - injection H as ->. apply Z.eqb_refl.
  - apply String.eqb_eq in H. now subst.
  - injection H as ->. apply String.eqb_refl.
Qed.

Lemma activeMode_some br r :
  activeMode br = Some r ->
  (BR.mode br = MNum constMode1up /\ r = Mode1Up) \/
  (BR.mode br = MNum constMode2up /\ r = Mode2Up) \/
  (BR.mode br = MNum constModeThumb /\ r = ModeThumb).
Proof.
  unfold activeMode. destruct (BR.mode br) as [| |n|]; try discriminate.
  destruct n as [|p|p]; try discriminate.
  destruct p as [[p|p|]|[p|p|]|]; try discriminate;
    intros H; injection H as <-; auto.
Qed.

Lemma prepareMode_returns m br :
  m = constMode2up \/ m = constModeThumb ->
  (m = constModeThumb -> BR.reductionFactors (BR.options br) <> []) ->
  exists br',
    prepareMode (MNum m) br = (Return tt, br') /\
    BR.mode br' = BR.mode br /\
    BR.suppressFragmentChange br' = BR.suppressFragmentChange br /\
    BR.plugins br' = BR.plugins br /\
    BR.effects br' = (BR.effects br ++ [Prepare (rendererOf m)])%list.
Proof.
  intros [-> | ->] Hfactors; unfold prepareMode; cbn [Mode.looseEqNum Z.eqb constMode1up
    constMode2up constModeThumb Pos.eqb].
  - eexists. split; [reflexivity|]. repeat split.
  - destruct (BR.reductionFactors (BR.options br)) as [|f0 rest] eqn:Ef;
      [exfalso; now apply Hfactors|].
    unfold quantizeReduce.
    eexists. split; [reflexivity|]. repeat split.
Qed.

Lemma announceMode_effects m opts br :
  m = constMode2up \/ m = constModeThumb ->
  BR.mode (announceMode (MNum m) opts br) = BR.mode br /\
  BR.effects (announceMode (MNum m) opts br) =
    (BR.effects br
     ++ (if BR.suppressFragmentChange br || suppressFragmentChange opts
         then [] else [Triggered "BookReader:fragmentChange"])
     ++ [Triggered ("BookReader:" ++ Str.ofZ m ++ "PageViewSelected")]
     ++ (if BR.textSelection (BR.plugins br) then [StopPageFlip] else []))%list.
Proof.
  intros Hm. unfold announceMode.
  assert (Hname : eventNames (Mode.toString (MNum m) ++ "PageViewSelected")
                  = Some (Str.ofZ m ++ "PageViewSelected"))
    by (destruct Hm; subst; reflexivity).
  rewrite Hname.
  destruct (BR.suppressFragmentChange br || suppressFragmentChange opts);
    cbn [negb]; cbv zeta;
    cbn [BR.plugins trigger BR.perform BR.setEffects];
    destruct (BR.textSelection (BR.plugins br));
    (split; [reflexivity|]); cbn; rewrite <- ?app_assoc; reflexivity.
Qed.

(** An accepted transition to two-page or thumbnail mode: what
    [switchMode] does once its guards let the call through. *)
Lemma switchMode_applies (br : BR.t) (target : ModeArg) (opts : SwitchModeOptions)
    (m : Z) (r : Renderer) :
  resolveMode target = MNum m ->
  m = constMode2up \/ m = constModeThumb ->
  activeMode br = Some r ->
  (m = constModeThumb -> BR.reductionFactors (BR.options br) <> []) ->
  BR.initComplete br && Mode.strictEq (MNum m) (BR.mode br) = false ->
  BR.initComplete br && negb (canSwitchToMode (MNum m) br) = false ->
  exists br',
    switchMode target opts br = (Return tt, br') /\
    BR.mode br' = MNum m /\
    BR.effects br' =
      (BR.effects br
       ++ switchEffects m (if Mode.looseEq (BR.mode br) (MNum m) then None else Some r)
            (BR.suppressFragmentChange br || suppressFragmentChange opts) br)%list.
Proof.
  intros Hres Hm Hr Hfactors Hsame Hcan.
  unfold switchMode. rewrite Hres.
  assert (Htruthy : Mode.truthy (MNum m) = true) by (destruct Hm; subst; reflexivity).
  rewrite Htruthy. cbn [negb]. rewrite Hsame, Hcan. cbv zeta.
  set (br1 := BR.setPrevReadMode _ (trigger _ br)).
  unfold bindM at 1. unfold unprepareActiveMode.
  change (BR.mode br1) with (BR.mode br).
  change (activeMode br1) with (activeMode br). rewrite Hr.
  set (br2 := if negb (Mode.looseEq (BR.mode br) (MNum m))
              then BR.perform (Unprepare r) br1 else br1).
  assert (E2 : (if negb (Mode.looseEq (BR.mode br) (MNum m))
                then (Return tt, BR.perform (Unprepare r) br1)
                else (Return tt, br1)) = (Return tt, br2))
    by (unfold br2; destruct (Mode.looseEq (BR.mode br) (MNum m)); reflexivity).
  rewrite E2. clear E2.
  set (br3 := if scaleDiffers _ _ then _ else BR.setMode (MNum m) br2).
  assert (H3 : BR.mode br3 = MNum m /\
               BR.options br3 = BR.options br /\
               BR.suppressFragmentChange br3 = BR.suppressFragmentChange br /\
               BR.plugins br3 = BR.plugins br /\
               BR.effects br3 =
                 (BR.effects br ++ Triggered "BookReader:stop"
                    :: (if Mode.looseEq (BR.mode br) (MNum m) then [] else [Unprepare r]))%list).
  { unfold br3, br2, br1.
    destruct (scaleDiffers _ _), (Mode.looseEq (BR.mode br) (MNum m)); cbn;
      repeat split; now rewrite <- ?app_assoc. }
  destruct H3 as (Hmode3 & Hopt3 & Hsup3 & Hplug3 & Heff3).
  destruct (prepareMode_returns m br3 Hm) as (br4 & E4 & Hmode4 & Hsup4 & Hplug4 & Heff4).
  { now rewrite Hopt3. }
  unfold bindM. rewrite E4.
  eexists. split; [reflexivity|].
  destruct (announceMode_effects m opts br4 Hm) as (Hmode5 & Heff5).
  split; [now rewrite Hmode5, Hmode4|].
  rewrite Heff5, Hsup4, Hsup3, Hplug4, Hplug3, Heff4, Heff3.
  unfold switchEffects.
  destruct (Mode.looseEq (BR.mode br) (MNum m));
    cbn [app]; rewrite <- ?app_assoc; reflexivity.
Qed.

Lemma looseEq_of_active br r m :
  activeMode br = Some r -> BR.mode br <> MNum m ->
  Mode.looseEq (BR.mode br) (MNum m) = false.
Proof.
  intros Hr Hne. apply activeMode_some in Hr.
  destruct (Mode.strictEq (BR.mode br) (MNum m)) eqn:E.
  - apply strictEq_eq in E. contradiction.
  - destruct Hr as [(Hm & _)|[(Hm & _)|(Hm & _)]]; rewrite Hm in *; exact E.
Qed.

(** C2.  For a target that resolves to two-page or thumbnail mode, the
    guard [canSwitchToMode] refuses it exactly when the book has fewer than
    two pages.  Once initialization is complete, [switchMode] on a book of
    fewer than two pages returns with the viewer unchanged, so with no
    event; on a book of two pages or more, from another mode, it makes the
    transition.  Before initialization is complete it makes the transition
    whatever the number of pages.  Where a transition is made, the viewer
    is in one of the three modes, and thumbnail mode has reduction factors
    to quantize to. *)
Theorem switchMode_page_count_guard (br : BR.t) (target : ModeArg)
    (opts : SwitchModeOptions) (m : Z) :
  resolveMode target = MNum m ->
  m = constMode2up \/ m = constModeThumb ->
  (canSwitchToMode (MNum m) br = false <-> (getNumLeafs (BR.book br) < 2)%Z) /\
  (BR.initComplete br = true -> (getNumLeafs (BR.book br) < 2)%Z ->
   switchMode target opts br = (Return tt, br)) /\
  (forall r,
      BR.initComplete br = true -> (2 <= getNumLeafs (BR.book br))%Z ->
      activeMode br = Some r -> BR.mode br <> MNum m ->
      (m = constModeThumb -> BR.reductionFactors (BR.options br) <> []) ->
      exists br',
        switchMode target opts br = (Return tt, br') /\
        BR.mode br' = MNum m /\
        BR.effects br' =
          (BR.effects br
           ++ switchEffects m (Some r)
                (BR.suppressFragmentChange br || suppressFragmentChange opts) br)%list) /\
  (forall r,
      BR.initComplete br = false ->
      activeMode br = Some r ->
      (m = constModeThumb -> BR.reductionFactors (BR.options br) <> []) ->
      exists br',
        switchMode target opts br = (Return tt, br') /\
        BR.mode br' = MNum m /\
        BR.effects br' =
          (BR.effects br
           ++ switchEffects m
                (if Mode.looseEq (BR.mode br) (MNum m) then None else Some r)
                (BR.suppressFragmentChange br || suppressFragmentChange opts) br)%list).
Proof.
  intros Hres Hm.
  assert (Hguard : canSwitchToMode (MNum m) br = false
                   <-> (getNumLeafs (BR.book br) < 2)%Z).
  { unfold canSwitchToMode.
    assert (Hor : Mode.looseEqNum (MNum m) constMode2up
                  || Mode.looseEqNum (MNum m) constModeThumb = true)
      by (destruct Hm; subst; reflexivity).
    rewrite Hor. cbn [andb].
    destruct (Z.ltb_spec (getNumLeafs (BR.book br)) 2); split; intros H';
      try reflexivity; try assumption; try discriminate; lia. }
  split; [exact Hguard|]. split; [|split].
  - intros Hinit Hfew. unfold switchMode. rewrite Hres, Hinit.
    assert (Htruthy : Mode.truthy (MNum m) = true) by (destruct Hm; subst; reflexivity).
    rewrite Htruthy, (proj2 Hguard Hfew). cbn [negb andb].
    now destruct (Mode.strictEq (MNum m) (BR.mode br)).
  - intros r Hinit Hmany Hr Hne Hfactors.
    assert (Hsame : BR.initComplete br && Mode.strictEq (MNum m) (BR.mode br) = false).
    { destruct (Mode.strictEq (MNum m) (BR.mode br)) eqn:E; [|apply andb_false_r].
      apply strictEq_eq in E. congruence. }
    assert (Hcan : BR.initComplete br && negb (canSwitchToMode (MNum m) br) = false).
    { destruct (canSwitchToMode (MNum m) br); [apply andb_false_r|].
      pose proof (proj1 Hguard eq_refl). lia. }
    destruct (switchMode_applies br target opts m r Hres Hm Hr Hfactors Hsame Hcan)
      as (br' & E & Hmode & Heff).
    exists br'. rewrite (looseEq_of_active br r m Hr Hne) in Heff. auto.
  - intros r Hinit Hr Hfactors.
    apply (switchMode_applies br target opts m r Hres Hm Hr Hfactors);
      rewrite Hinit; reflexivity.
Qed.

(** Thumbnail mode is refused on a book of one page and entered on a book
    of two; during initialization it is entered on a book of one page. *)
Lemma switchMode_page_count_guard_witness :
  let thumb := ArgValue (MNum constModeThumb) in
  let one := sampleViewer onePageBook 0 in
  let two := sampleViewer twoPageBook 0 in
  let early := initializingViewer onePageBook in
  (getNumLeafs onePageBook = 1%Z /\ getNumLeafs twoPageBook = 2%Z) /\
  switchMode thumb noOptions one = (Return tt, one) /\
  (exists br',
      switchMode thumb noOptions two = (Return tt, br') /\
      BR.mode br' = MNum constModeThumb /\
      BR.effects br' =
        [Triggered "BookReader:stop"; Unprepare Mode1Up; Prepare ModeThumb;
         Triggered "BookReader:fragmentChange";
         Triggered "BookReader:3PageViewSelected"]) /\
  (exists br',
      switchMode thumb noOptions early = (Return tt, br') /\
      BR.mode br' = MNum constModeThumb /\
      BR.effects br' =
        [Triggered "BookReader:stop"; Unprepare Mode1Up; Prepare ModeThumb;
         Triggered "BookReader:3PageViewSelected"]).
Proof.
  intros thumb one two early.
  assert (H3 : constModeThumb = constMode2up \/ constModeThumb = constModeThumb)
    by (right; reflexivity).
  assert (Hne : MNum constMode1up <> MNum constModeThumb) by discriminate.
  assert (Hf : constModeThumb = constModeThumb -> [rf 1; rf 2; rf 4] <> [])
    by discriminate.
  split; [split; reflexivity|]. split; [|split].
  - apply (proj1 (proj2 (switchMode_page_count_guard one thumb noOptions
                           constModeThumb eq_refl H3))); [reflexivity|].
    change (1 < 2)%Z. lia.
  - apply (proj1 (proj2 (proj2 (switchMode_page_count_guard two thumb noOptions
                                  constModeThumb eq_refl H3))) Mode1Up);
      try reflexivity; try assumption.
  - apply (proj2 (proj2 (proj2 (switchMode_page_count_guard early thumb noOptions
                                  constModeThumb eq_refl H3))) Mode1Up);
      try reflexivity; assumption.
Defined.

Lemma ofString_falsy s :
  Mode.truthy (Mode.ofString s) = false <->
  ~ In s ["1up"; "2up"; "thumb"] /\ ~ In s Mode.objectPrototypeKeys.
Proof.
  unfold Mode.ofString.
  destruct (String.eqb_spec s "1up") as [->|H1];
    [split; [discriminate|intros (H & _); exfalso; apply H; simpl; auto]|].
  destruct (String.eqb_spec s "2up") as [->|H2];
    [split; [discriminate|intros (H & _); exfalso; apply H; simpl; auto]|].
  destruct (String.eqb_spec s "thumb") as [->|H3];
    [split; [discriminate|intros (H & _); exfalso; apply H; simpl; auto]|].
  destruct (existsb (String.eqb s) Mode.objectPrototypeKeys) eqn:E.
  - apply existsb_exists in E. destruct E as (k & Hk & Ek).
    apply String.eqb_eq in Ek. subst k.
    split; [discriminate|]. intros (_ & H). contradiction.
  - split; [|reflexivity]. intros _. split.
    + simpl. intros [E'|[E'|[E'|[]]]]; congruence.
    + intros Hin. assert (Ht : existsb (String.eqb s) Mode.objectPrototypeKeys = true).
      { apply existsb_exists. exists s. split; [assumption|apply String.eqb_refl]. }
      congruence.
Qed.

Lemma unresolvable_falsy mode :
  unresolvable mode <-> Mode.truthy (resolveMode mode) = false.
Proof.
  destruct mode as [v|s]; simpl.
  - destruct v as [| |n|k]; simpl; split; auto; try discriminate.
    + intros [E|[E|E]]; try discriminate. injection E as ->. reflexivity.
    + rewrite negb_false_iff, Z.eqb_eq. intros ->. auto.
    + intros [E|[E|E]]; discriminate.
  - symmetry. apply ofString_falsy.
Qed.

(** C3, as the code has it.  [switchMode] throws 'Invalid mode' exactly for
    the arguments that resolve to a falsy value: a string that is no mode
    name (and names no inherited property), undefined, null and 0.  It
    throws before it touches the viewer. *)
Theorem switchMode_invalid_mode_atomic (br : BR.t) (mode : ModeArg)
    (opts : SwitchModeOptions) :
  (unresolvable mode ->
   switchMode mode opts br =
     (Throw (Error ("Invalid mode: " ++ Mode.toString (resolveMode mode))), br)) /\
  (~ unresolvable mode ->
   forall msg, fst (switchMode mode opts br) <> Throw (Error msg)).
Proof.
  split.
  - intros Hu. apply unresolvable_falsy in Hu. unfold switchMode. now rewrite Hu.
  - intros Hu msg.
    assert (Ht : Mode.truthy (resolveMode mode) = true).
    { destruct (Mode.truthy (resolveMode mode)) eqn:E; [reflexivity|].
      exfalso. apply Hu, unresolvable_falsy, E. }
    unfold switchMode. rewrite Ht. cbn [negb].
    destruct (BR.initComplete br && Mode.strictEq _ _); [discriminate|].
    destruct (BR.initComplete br && negb _); [discriminate|].
    cbv zeta. unfold bindM, unprepareActiveMode, prepareMode, quantizeReduce.
    repeat match goal with
           | |- context [if ?c then _ else _] => destruct c
           | |- context [match activeMode ?b with _ => _ end] => destruct (activeMode b)
           | |- context [match BR.reductionFactors ?o with _ => _ end] =>
               destruct (BR.reductionFactors o)
           end; discriminate.
Qed.

(** The strings '3up' and '' and the value 0 are refused and leave the
    viewer as it was. *)
Lemma switchMode_invalid_mode_atomic_witness :
  let br := sampleViewer sampleBook 0 in
  unresolvable (ArgString "3up") /\
  switchMode (ArgString "3up") noOptions br =
    (Throw (Error "Invalid mode: undefined"), br) /\
  switchMode (ArgString "") noOptions br =
    (Throw (Error "Invalid mode: undefined"), br) /\
  switchMode (ArgValue (MNum 0)) noOptions br = (Throw (Error "Invalid mode: 0"), br) /\
  (~ unresolvable (ArgString "thumb") /\
   forall msg, fst (switchMode (ArgString "thumb") noOptions br) <> Throw (Error msg)).
Proof.
  intros br.
  assert (H3 : unresolvable (ArgString "3up")).
  { apply unresolvable_falsy. reflexivity. }
  assert (He : unresolvable (ArgString "")).
  { apply unresolvable_falsy. reflexivity. }
  assert (H0 : unresolvable (ArgValue (MNum 0))) by (simpl; auto).
  assert (Ht : ~ unresolvable (ArgString "thumb")).
  { intros H. apply unresolvable_falsy in H. discriminate H. }
  split; [exact H3|]. split; [|split; [|split; [|split]]].
  - exact (proj1 (switchMode_invalid_mode_atomic br (ArgString "3up") noOptions) H3).
  - exact (proj1 (switchMode_invalid_mode_atomic br (ArgString "") noOptions) He).
  - exact (proj1 (switchMode_invalid_mode_atomic br (ArgValue (MNum 0)) noOptions) H0).
  - exact Ht.
  - exact (proj2 (switchMode_invalid_mode_atomic br (ArgString "thumb") noOptions) Ht).
Defined.

(** C3 as stated fails: the number 4 is neither a mode constant nor a mode
    name, yet [switchMode] does not throw and sets the mode to 4. *)
Lemma switchMode_accepts_unknown_number :
  let br := sampleViewer sampleBook 0 in
  ~ isModeToken (ArgValue (MNum 4)) /\
  fst (switchMode (ArgValue (MNum 4)) noOptions br) = Return tt /\
  BR.mode (snd (switchMode (ArgValue (MNum 4)) noOptions br)) = MNum 4 /\
  ~ (forall mode opts br0,
        ~ isModeToken mode -> exists e, switchMode mode opts br0 = (Throw e, br0)).
Proof.
  intros br.
  assert (Hn : ~ isModeToken (ArgValue (MNum 4))).
  { unfold isModeToken. simpl. intros [E|[E|[E|[E|[E|[E|[]]]]]]]; discriminate E. }
  split; [exact Hn|]. split; [reflexivity|]. split; [reflexivity|].
  intros H. destruct (H (ArgValue (MNum 4)) noOptions br Hn) as (e & E).
  vm_compute in E. discriminate E.
Qed.

(** ** The first index *)

Lemma firstIndexIs_eq x br : firstIndexIs x br = true <-> BR.firstIndex br = Some x.
Proof.
  unfold firstIndexIs. destruct (BR.firstIndex br) as [i|]; [|split; discriminate].
  rewrite Z.eqb_eq. split; [now intros ->|congruence].
Qed.

Lemma updateFirstIndex_same x s br :
  BR.firstIndex br = Some x -> updateFirstIndex x s br = br.
Proof.
  intros H. apply firstIndexIs_eq in H. unfold updateFirstIndex. now rewrite H.
Qed.

Lemma updateFirstIndex_change x s br :
  BR.firstIndex br <> Some x ->
  BR.firstIndex (updateFirstIndex x s br) = Some x /\
  BR.effects (updateFirstIndex x s br) =
    (BR.effects br ++ updateEffects x (BR.suppressFragmentChange br || s))%list.
Proof.
  intros H. unfold updateFirstIndex, updateEffects.
  destruct (firstIndexIs x br) eqn:E; [apply firstIndexIs_eq in E; contradiction|].
  cbv zeta. cbn [BR.suppressFragmentChange BR.setFirstIndex].
  destruct (BR.suppressFragmentChange br || s); cbn [negb];
    match goal with
    | |- context [if ?c then _ else _] => destruct c
    end; split; try reflexivity; cbn; rewrite <- ?app_assoc; reflexivity.
Qed.

Lemma skipn_app_length {A} (l more : list A) : skipn (List.length l) (l ++ more) = more.
Proof. induction l as [|a l IH]; simpl; auto. Qed.

(** C8, as the code has it.  After [updateFirstIndex x], a second call with
    the same [x] changes nothing and emits nothing, and [firstIndex] is
    [x].  If [x] was the first index already, the first call changes
    nothing either.  Otherwise the two calls together emit 'pageChanged'
    once, and 'fragmentChange' once unless the global flag or the option
    of the first call suppresses it, in which case it is not emitted. *)
Theorem updateFirstIndex_twice (br : BR.t) (x : Z) (s1 s2 : bool) :
  let once := updateFirstIndex x s1 br in
  let twice := updateFirstIndex x s2 once in
  twice = once /\
  BR.firstIndex twice = Some x /\
  (BR.firstIndex br = Some x -> once = br) /\
  (BR.firstIndex br <> Some x ->
   BR.effects twice =
     (BR.effects br ++ updateEffects x (BR.suppressFragmentChange br || s1))%list /\
   timesTriggered "pageChanged" (effectsSince br twice) = 1%nat /\
   timesTriggered "fragmentChange" (effectsSince br twice) =
     if BR.suppressFragmentChange br || s1 then 0%nat else 1%nat).
Proof.
  intros once twice.
  assert (Hfirst : BR.firstIndex once = Some x).
  { unfold once. destruct (firstIndexIs x br) eqn:E.
    - apply firstIndexIs_eq in E. now rewrite updateFirstIndex_same.
    - apply updateFirstIndex_change. intros H. apply firstIndexIs_eq in H. congruence. }
  assert (Htwice : twice = once) by (apply updateFirstIndex_same, Hfirst).
  split; [exact Htwice|]. rewrite Htwice. split; [exact Hfirst|].
  split; [apply updateFirstIndex_same|].
  intros Hne. destruct (updateFirstIndex_change x s1 br Hne) as (_ & Heff).
  fold once in Heff. split; [exact Heff|].
  unfold effectsSince. rewrite Heff, skipn_app_length. unfold updateEffects.
  destruct (BR.suppressFragmentChange br || s1); split; reflexivity.
Qed.

(** From page 0, two calls with 5 emit each event once; while fragment
    changes are suppressed they emit 'pageChanged' alone. *)
Lemma updateFirstIndex_twice_witness :
  let br := sampleViewer sampleBook 0 in
  let twice := updateFirstIndex 5 false (updateFirstIndex 5 false br) in
  BR.firstIndex br <> Some 5%Z /\
  BR.effects twice =
    [Triggered "BookReader:fragmentChange"; Triggered "BookReader:pageChanged";
     Triggered "BookReader:userAction"; UpdateNavIndexThrottled 5] /\
  timesTriggered "pageChanged" (effectsSince br twice) = 1%nat /\
  timesTriggered "fragmentChange" (effectsSince br twice) = 1%nat.
Proof.
  intros br twice.
  assert (Hne : BR.firstIndex br <> Some 5%Z) by discriminate.
  split; [exact Hne|].
  exact (proj2 (proj2 (proj2 (updateFirstIndex_twice br 5 false false))) Hne).
Defined.

(** C8 as stated fails: while fragment changes are suppressed, as they are
    during initialization, two calls with a new index emit 'pageChanged'
    once and 'fragmentChange' not at all. *)
Lemma updateFirstIndex_suppressed_fragmentChange :
  let br := initializingViewer sampleBook in
  let twice := updateFirstIndex 5 false (updateFirstIndex 5 false br) in
  BR.firstIndex br = Some 0%Z /\
  BR.firstIndex twice = Some 5%Z /\
  timesTriggered "pageChanged" (effectsSince br twice) = 1%nat /\
  timesTriggered "fragmentChange" (effectsSince br twice) = 0%nat /\
  ~ (forall (br0 : BR.t) (x : Z),
        let twice0 := updateFirstIndex x false (updateFirstIndex x false br0) in
        BR.firstIndex twice0 = Some x /\
        timesTriggered "pageChanged" (effectsSince br0 twice0) = 1%nat /\
        timesTriggered "fragmentChange" (effectsSince br0 twice0) = 1%nat).
Proof.
  intros br twice. repeat split.
  intros H. destruct (H br 5%Z) as (_ & _ & E). vm_compute in E. discriminate E.
Qed.

(** ** Start-up parameters *)

Lemma paramsFromUrlHash_fragmentChange urlHash p :
  paramsFromUrlHash urlHash = Return p -> Params.fragmentChange p = None.
Proof.
  unfold paramsFromUrlHash.
  destruct (urlHashIs urlHash "mode" "1up"), (urlHashIs urlHash "mode" "2up"),
    (urlHashIs urlHash "mode" "thumb");
    (destruct (urlHashGet "page" urlHash) as [pv|];
     [destruct (URI.decodeURIComponent pv)|]);
    (destruct (urlHashGet "search" urlHash) as [sv|];
     [destruct (URI.decodeURIComponentPlus sv)|]);
    destruct (urlHashGet "theme" urlHash); cbn [bindC];
    intros E; try discriminate E; injection E as <-; reflexivity.
Qed.

Lemma paramsFromFragment_fragmentChange fragment p :
  paramsFromFragment fragment = Return p -> Params.fragmentChange p = None.
Proof.
  unfold paramsFromFragment.
  destruct (Str.parseAllDigits (stripHash fragment)).
  - intros E. injection E as <-. reflexivity.
  - apply paramsFromUrlHash_fragmentChange.
Qed.

Lemma extendParams_fragmentChange book params newParams :
  Params.fragmentChange newParams = None ->
  Params.fragmentChange (extendParams book params newParams) =
  Params.fragmentChange params.
Proof.
  intros H. unfold extendParams.
  destruct (Params.page (Params.extend Params.empty newParams));
    [destruct (parsePageString book _)|]; cbn; now rewrite H.
Qed.

Lemma paramsFromDefaults_fragmentChange br p0 :
  paramsFromDefaults br = Return p0 -> Params.fragmentChange p0 = Some false.
Proof.
  unfold paramsFromDefaults. cbv zeta.
  set (base := match BR.titleLeaf (BR.options br) with Some _ => _ | None => _ end).
  assert (Hbase : Params.fragmentChange base = Some false).
  { unfold base. destruct (BR.titleLeaf (BR.options br)); [destruct (_ <? _)%Z|];
      reflexivity. }
  destruct (BR.defaults (BR.options br)) as [[|c defaults]|];
    try (intros E; injection E as <-; exact Hbase).
  destruct (paramsFromFragment (String c defaults)) as [dp|] eqn:Ed; [|discriminate].
  cbn [bindC]. intros E. injection E as <-.
  rewrite extendParams_fragmentChange by exact (paramsFromFragment_fragmentChange _ _ Ed).
  now destruct (Params.page dp).
Qed.

Lemma indexDiffers_ne index val : indexDiffers index val = true <-> index <> Some val.
Proof.
  unfold indexDiffers. destruct index as [i|]; [|split; [discriminate|reflexivity]].
  rewrite negb_true_iff, Z.eqb_neq. split; congruence.
Qed.

Lemma paramsFromResume_fragmentChange br p0 :
  Params.fragmentChange p0 = Some false ->
  exists b, Params.fragmentChange (paramsFromResume br p0) = Some b /\
            (b = true <-> exists val, resumeValue br = Some val /\
                                      Params.index p0 <> Some val).
Proof.
  intros H0. unfold paramsFromResume.
  destruct (resumeValue br) as [val|].
  - destruct (indexDiffers (Params.index p0) val) eqn:E; cbn.
    + exists true. split; [reflexivity|]. split; [|reflexivity].
      intros _. exists val. split; [reflexivity|]. now apply indexDiffers_ne.
    + exists false. split; [exact H0|]. split; [discriminate|].
      intros (v & Hv & Hne). injection Hv as <-.
      apply indexDiffers_ne in Hne. congruence.
  - exists false. split; [exact H0|]. split; [discriminate|].
    intros (v & Hv & _). discriminate Hv.
Qed.

Lemma paramsFromUrl_fragmentChange br p1 p b :
  Params.fragmentChange p1 = Some b ->
  paramsFromUrl br p1 = Return p ->
  exists b', Params.fragmentChange p = Some b' /\
             (b' = true <-> b = true \/ urlHasParams br).
Proof.
  intros H1. unfold paramsFromUrl, urlHasParams.
  destruct (BR.enableUrlPlugin (BR.options br)).
  - destruct (readUrlParams br) as [u|] eqn:Eu; [|discriminate]. cbn [bindC].
    destruct (Params.keysLength u =? 0)%nat eqn:Ek; cbn [negb]; intros E;
      injection E as <-.
    + exists b. split; [exact H1|]. split; [auto|].
      intros [Hb|(_ & u' & Hu' & Hk)]; [exact Hb|].
      injection Hu' as <-. apply Nat.eqb_eq in Ek. contradiction.
    + exists true. split; [reflexivity|]. split; [|reflexivity].
      intros _. right. split; [reflexivity|]. exists u. split; [reflexivity|].
      now apply Nat.eqb_neq.
  - intros E. injection E as <-. exists b. split; [exact H1|]. split; [auto|].
    intros [Hb|(Hen & _)]; [exact Hb|discriminate Hen].
Qed.

Lemma resolveParams_fragmentChange br p :
  resolveParams br = Return p ->
  exists b, Params.fragmentChange p = Some b /\
            (b = true <-> resumeDiffers br \/ urlHasParams br).
Proof.
  unfold resolveParams.
  destruct (paramsFromDefaults br) as [p0|] eqn:E0; [|discriminate]. cbn [bindC].
  pose proof (paramsFromDefaults_fragmentChange br p0 E0) as H0.
  destruct (paramsFromResume_fragmentChange br p0 H0) as (b1 & H1 & Hb1).
  intros E.
  destruct (paramsFromUrl_fragmentChange br _ p b1 H1 E) as (b & Hb & Hiff).
  exists b. split; [exact Hb|]. rewrite Hiff, Hb1. unfold resumeDiffers.
  split; intros [H|H]; auto; left.
  - destruct H as (val & Hv & Hne). exists p0, val. auto.
  - destruct H as (p0' & val & Ep & Hv & Hne). exists val.
    rewrite E0 in Ep. injection Ep as <-. auto.
Qed.

(** C9.  When [initParams] returns, the global [suppressFragmentChange] is
    the negation of the [fragmentChange] flag of the params it returns; the
    flag is set exactly when the resume plugin holds an index other than
    the default one or the URL plugin finds parameters, so fragment changes
    are suppressed exactly when neither is the case. *)
Theorem initParams_suppressFragmentChange (br br' : BR.t) (params : Params.t) :
  initParams br = (Return params, br') ->
  exists fragmentChange,
    Params.fragmentChange params = Some fragmentChange /\
    BR.suppressFragmentChange br' = negb fragmentChange /\
    (BR.suppressFragmentChange br' = true <->
     ~ resumeDiffers br /\ ~ urlHasParams br).
Proof.
  unfold initParams.
  destruct (resolveParams br) as [p|] eqn:Ep; [|discriminate].
  destruct (resolveParams_fragmentChange br p Ep) as (b & Hb & Hiff).
  set (searched := match BR.search (BR.plugins br) with Some _ => _ | None => _ end).
  destruct searched as [[[]|e] br1]; [|discriminate].
  intros E. injection E as <- <-. exists b. split; [exact Hb|].
  cbn [BR.suppressFragmentChange BR.setSuppressFragmentChange]. rewrite Hb.
  assert (Hopt : optionTruthy (Some b) = b) by now destruct b.
  rewrite Hopt. split; [reflexivity|].
  rewrite negb_true_iff. split.
  - intros -> . split; intros H; assert (false = true) by (apply Hiff; auto);
      discriminate.
  - intros (Hr & Hu). destruct b; [|reflexivity].
    destruct (proj1 Hiff eq_refl); contradiction.
Qed.

(** A viewer whose URL holds 'page/n3' resolves to index 3 and does not
    suppress fragment changes; one with nothing to resume and an empty URL
    suppresses them. *)
Lemma initParams_suppressFragmentChange_witness :
  let quiet := sampleViewer sampleBook 0 in
  let linked :=
    {| BR.options :=
         {| BR.defaults := Some "mode/1up"; BR.titleLeaf := None;
            BR.reductionFactors := [rf 1; rf 2; rf 4];
            BR.enableUrlPlugin := true; BR.urlMode := "hash" |};
       BR.env :=
         {| BR.location_search := ""; BR.location_hash := "#page/n3";
            BR.urlReadFragment := "page/n3"; BR.urlReadHashFragment := "";
            BR.searchParamsGet := fun _ _ => None |};
       BR.book := sampleBook;
       BR.plugins := BR.plugins quiet;
       BR.mode := MNull; BR.prevReadMode := MNull; BR.firstIndex := None;
       BR.reduce := Some 8; BR.pageScale := Some 8;
       BR.displayedIndices := Some [];
       BR.suppressFragmentChange := false; BR.initComplete := false;
       BR.effects := [] |} in
  let resolved :=
    {| Params.index := Some 3%Z; Params.page := None; Params.mode := MNum constMode1up;
       Params.search := None; Params.theme := None; Params.init := Some true;
       Params.pageFound := Some true; Params.fragmentChange := Some true |} in
  let default :=
    {| Params.index := Some 0%Z; Params.page := None; Params.mode := MUndefined;
       Params.search := None; Params.theme := None; Params.init := Some true;
       Params.pageFound := Some false; Params.fragmentChange := Some false |} in
  (initParams linked = (Return resolved, BR.setSuppressFragmentChange false linked) /\
   exists fragmentChange,
     Params.fragmentChange resolved = Some fragmentChange /\
     BR.suppressFragmentChange (BR.setSuppressFragmentChange false linked)
       = negb fragmentChange /\
     (BR.suppressFragmentChange (BR.setSuppressFragmentChange false linked) = true <->
      ~ resumeDiffers linked /\ ~ urlHasParams linked)) /\
  (initParams quiet = (Return default, BR.setSuppressFragmentChange true quiet) /\
   exists fragmentChange,
     Params.fragmentChange default = Some fragmentChange /\
     BR.suppressFragmentChange (BR.setSuppressFragmentChange true quiet)
       = negb fragmentChange /\
     (BR.suppressFragmentChange (BR.setSuppressFragmentChange true quiet) = true <->
      ~ resumeDiffers quiet /\ ~ urlHasParams quiet)).
Proof.
  intros quiet linked resolved default.
  assert (El : initParams linked
               = (Return resolved, BR.setSuppressFragmentChange false linked))
    by reflexivity.
  assert (Eq : initParams quiet
               = (Return default, BR.setSuppressFragmentChange true quiet))
    by reflexivity.
  split.
  - split; [exact El|]. exact (initParams_suppressFragmentChange linked _ _ El).
  - split; [exact Eq|]. exact (initParams_suppressFragmentChange quiet _ _ Eq).
Defined.

(** * Further properties *)

(** ** Reduction factors: the other directions *)

Lemma scanOut_result cur revd : forall idx,
  let k := scanOut (Finite cur) revd idx in
  (k = idx /\ forall g, In g revd -> ~ cur < reduce g) \/
  (exists pre g more,
     revd = (pre ++ g :: more)%list /\ k = Z.of_nat (List.length more) /\
     cur < reduce g /\ forall h, In h more -> ~ cur < reduce h).
Proof.
  induction revd as [|g more IH]; intros idx; cbn [scanOut Num.lt].
  - left. split; [reflexivity|]. intros g [].
  - destruct (IH (if Qltb cur (reduce g) then Z.of_nat (List.length more) else idx))
      as [(Hk & Hnone)|(pre & h & more' & Hrev & Hk & Hh & Hafter)].
    + destruct (Qltb cur (reduce g)) eqn:E.
      * right. exists [], g, more. apply Qltb_true in E. repeat split; auto.
      * left. split; [assumption|]. intros h [<-|Hin]; [|now apply Hnone].
        apply Qltb_false in E. now apply Qle_not_lt.
    + right. exists (g :: pre), h, more'. split; [now rewrite Hrev|]. auto.
Qed.

Lemma rev_split {A} (l pre more : list A) g :
  rev l = (pre ++ g :: more)%list -> l = (rev more ++ g :: rev pre)%list.
Proof.
  intros H. rewrite <- (rev_involutive l), H, rev_app_distr. simpl.
  now rewrite <- app_assoc.
Qed.

Lemma nth_error_middle {A} (l r : list A) g :
  nth_error (l ++ g :: r) (List.length l) = Some g.
Proof. rewrite nth_error_app2 by lia. now rewrite Nat.sub_diag. Qed.

(** X1.  On factors sorted ascending, direction 'out' returns the factor
    with the least [reduce] strictly above the current value, whenever some
    factor is strictly above it. *)
Theorem nextReduce_out_least_above (currentReduce : Q)
    (factors : list ReductionFactor) :
  sortedByReduce factors ->
  (exists f, In f factors /\ currentReduce < reduce f) ->
  exists res,
    nextReduce (Finite currentReduce) "out" factors = Some res /\
    In res factors /\
    currentReduce < reduce res /\
    forall g, In g factors -> currentReduce < reduce g -> reduce res <= reduce g.
Proof.
  intros Hs (f & Hf & Habove).
  unfold nextReduce. simpl String.eqb. cbv iota zeta.
  destruct (scanOut_result currentReduce (rev factors)
              (Z.of_nat (List.length factors) - 1))
    as [(_ & Hnone)|(pre & g & more & Hrev & Hk & Hg & Hafter)].
  - exfalso. apply (Hnone f); [now apply in_rev in Hf|assumption].
  - rewrite Hk. apply rev_split in Hrev.
    assert (Hnth : nth_error factors (List.length more) = Some g).
    { rewrite Hrev, <- (length_rev more). apply nth_error_middle. }
    exists g. split; [|split; [|split]].
    + unfold at_index.
      destruct (Z.ltb_spec (Z.of_nat (List.length more)) 0) as [Hneg|_]; [lia|].
      now rewrite Nat2Z.id.
    + eapply nth_error_In; eassumption.
    + assumption.
    + intros h Hin Hh. apply In_nth_error in Hin. destruct Hin as (j & Hj).
      destruct (Nat.le_gt_cases (List.length more) j) as [Hle|Hgt].
      * eapply (sortedByReduce_nth _ Hs); eassumption.
      * exfalso. apply (Hafter h); [|assumption].
        rewrite Hrev, nth_error_app1 in Hj by (rewrite length_rev; assumption).
        apply in_rev. eapply nth_error_In; eassumption.
Qed.

(** With the sorted factors 1, 2 and 4 and the current value 3/2, the
    factor 2 is the least above. *)
Lemma nextReduce_out_least_above_witness :
  let factors := [rf 1; rf 2; rf 4] in
  sortedByReduce factors /\
  (exists f, In f factors /\ 3 # 2 < reduce f) /\
  (exists res,
      nextReduce (Finite (3 # 2)) "out" factors = Some res /\
      In res factors /\
      3 # 2 < reduce res /\
      forall g, In g factors -> 3 # 2 < reduce g -> reduce res <= reduce g) /\
  nextReduce (Finite (3 # 2)) "out" factors = Some (rf 2).
Proof.
  assert (He : exists f, In f [rf 1; rf 2; rf 4] /\ 3 # 2 < reduce f).
  { exists (rf 4). split; [simpl; tauto|]. reflexivity. }
  split; [exact sorted_1_2_4|]. split; [exact He|]. split; [|reflexivity].
  exact (nextReduce_out_least_above (3 # 2) [rf 1; rf 2; rf 4] sorted_1_2_4 He).
Defined.

Lemma scanIn_bound cur rest : forall i idx,
  let k := scanIn cur i rest idx in
  k = idx \/ (i <= k < i + List.length rest)%nat.
Proof.
  induction rest as [|g rest IH]; intros i idx; cbn [scanIn]; [now left|].
  destruct (IH (S i) (if Num.lt (Finite (reduce g)) cur then i else idx)) as [Hk|Hk].
  - rewrite Hk. destruct (Num.lt (Finite (reduce g)) cur); [right|now left].
    simpl List.length. lia.
  - right. simpl List.length. lia.
Qed.

Lemma scanOut_bound cur revd : forall idx,
  let k := scanOut cur revd idx in
  k = idx \/ (0 <= k < Z.of_nat (List.length revd))%Z.
Proof.
  induction revd as [|g more IH]; intros idx; cbn [scanOut]; [now left|].
  destruct (IH (if Num.lt cur (Finite (reduce g))
                then Z.of_nat (List.length more) else idx)) as [Hk|Hk].
  - rewrite Hk. destruct (Num.lt cur (Finite (reduce g))); [right|now left].
    simpl List.length. lia.
  - right. simpl List.length. lia.
Qed.

(** The candidate loop of 'auto' ends on a candidate of greatest [reduce],
    unless there is none. *)
Lemma chooseLeastReduction_greatest candidates : forall choice,
  match chooseLeastReduction choice candidates with
  | None => choice = None /\ candidates = []
  | Some r =>
      (choice = Some r \/ In r candidates) /\
      (forall c, choice = Some c -> reduce c <= reduce r) /\
      (forall c, In c candidates -> reduce c <= reduce r)
  end.
Proof.
  induction candidates as [|c more IH]; intros choice; cbn [chooseLeastReduction].
  - destruct choice as [r|]; [|auto].
    split; [now left|]. split; [|intros c []].
    intros c E. injection E as <-. apply Qle_refl.
  - match goal with
    | |- match chooseLeastReduction ?ch more with _ => _ end =>
        specialize (IH ch); destruct (chooseLeastReduction ch more) as [r|]
    end.
    + destruct IH as (Hr & Hch & Hmore).
      destruct choice as [ch|].
      * destruct (Qltb (reduce ch) (reduce c)) eqn:E.
        -- apply Qltb_true in E. pose proof (Hch c eq_refl) as Hc.
           split; [|split].
           ++ right. destruct Hr as [Hr|Hr]; [injection Hr as <-; now left|now right].
           ++ intros c' E'. injection E' as <-. apply Qlt_le_weak.
              eapply Qlt_le_trans; eassumption.
           ++ intros c' [<-|Hin]; [assumption|now apply Hmore].
        -- apply Qltb_false in E. pose proof (Hch ch eq_refl) as Hc.
           split; [|split].
           ++ destruct Hr as [Hr|Hr]; [now left|right; now right].
           ++ assumption.
           ++ intros c' [<-|Hin]; [|now apply Hmore].
              eapply Qle_trans; eassumption.
      * split; [|split].
        -- right. destruct Hr as [Hr|Hr]; [injection Hr as <-; now left|now right].
        -- discriminate.
        -- intros c' [<-|Hin]; [now apply Hch|now apply Hmore].
    + destruct IH as (Hch & _). destruct choice as [ch|]; [|discriminate].
      destruct (Qltb (reduce ch) (reduce c)); discriminate.
Qed.

(** X2.  Whatever the current value and the direction, known or not,
    [nextReduce] returns a member of the list of factors; it returns
    undefined only for the empty list. *)
Theorem nextReduce_member (currentReduce : Num) (direction : string)
    (factors : list ReductionFactor) :
  (nextReduce currentReduce direction factors = None <-> factors = []) /\
  (forall res, nextReduce currentReduce direction factors = Some res ->
               In res factors).
Proof.
  destruct factors as [|f0 rest].
  - split; [|intros res H; exfalso; revert H].
    + split; [reflexivity|]. intros _. unfold nextReduce.
      repeat match goal with |- context [String.eqb ?a ?b] =>
        destruct (String.eqb a b) end; reflexivity.
    + unfold nextReduce.
      repeat match goal with |- context [String.eqb ?a ?b] =>
        destruct (String.eqb a b) end; discriminate.
  - assert (H : exists res, nextReduce currentReduce direction (f0 :: rest) = Some res
                            /\ In res (f0 :: rest)).
    { unfold nextReduce.
      destruct (String.eqb direction "in"); [|destruct (String.eqb direction "out")].
      - cbn [tl].
        destruct (scanIn_bound currentReduce rest 1 0) as [Hk|Hk].
        + rewrite Hk. exists f0. split; [reflexivity|now left].
        + destruct (nth_error (f0 :: rest) (scanIn currentReduce 1 rest 0)) as [res|] eqn:E.
          * exists res. split; [reflexivity|]. eapply nth_error_In; eassumption.
          * apply nth_error_None in E. simpl List.length in E. lia.
      - cbv zeta.
        set (k := scanOut currentReduce (rev (f0 :: rest))
                    (Z.of_nat (List.length (f0 :: rest)) - 1)).
        assert (Hk : (0 <= k < Z.of_nat (List.length (f0 :: rest)))%Z).
        { destruct (scanOut_bound currentReduce (rev (f0 :: rest))
                      (Z.of_nat (List.length (f0 :: rest)) - 1)) as [Hk|Hk];
            fold k in Hk.
          - rewrite Hk. simpl List.length. lia.
          - now rewrite length_rev in Hk. }
        unfold at_index. destruct (Z.ltb_spec k 0) as [Hneg|_]; [lia|].
        destruct (nth_error (f0 :: rest) (Z.to_nat k)) as [res|] eqn:E.
        * exists res. split; [reflexivity|]. eapply nth_error_In; eassumption.
        * apply nth_error_None in E. lia.
      - cbv zeta. destruct (String.eqb direction "auto").
        + destruct (find (autofitIs "auto") (f0 :: rest)) as [a|] eqn:E.
          * exists a. split; [reflexivity|]. now apply find_some in E.
          * pose proof (chooseLeastReduction_greatest
                          (filter (fun rf => autofitIs "height" rf || autofitIs "width" rf)
                                  (f0 :: rest)) None) as Hc.
            destruct (chooseLeastReduction None _) as [c|].
            -- exists c. split; [reflexivity|].
               destruct Hc as ([Hc|Hc] & _); [discriminate|].
               now apply filter_In in Hc.
            -- exists f0. split; [reflexivity|now left].
        + destruct (String.eqb direction "height" || String.eqb direction "width").
          * destruct (find (autofitIs direction) (f0 :: rest)) as [a|] eqn:E.
            -- exists a. split; [reflexivity|]. now apply find_some in E.
            -- exists f0. split; [reflexivity|now left].
          * exists f0. split; [reflexivity|now left]. }
    destruct H as (res & Hres & Hin). rewrite Hres. split.
    + split; discriminate.
    + intros res' E. now injection E as <-.
Qed.

(** X3.  When no factor is tagged 'auto', direction 'auto' returns, of the
    factors tagged 'height' or 'width', one of greatest [reduce]. *)
Theorem nextReduce_auto_greatest (currentReduce : Num)
    (factors : list ReductionFactor) :
  Forall (fun f => autofitIs "auto" f = false) factors ->
  (exists c, In c factors /\ fitsHeightOrWidth c = true) ->
  exists res,
    nextReduce currentReduce "auto" factors = Some res /\
    In res factors /\
    fitsHeightOrWidth res = true /\
    forall c, In c factors -> fitsHeightOrWidth c = true -> reduce c <= reduce res.
Proof.
  intros Hnoauto (c0 & Hc0 & Hfit0).
  unfold nextReduce. simpl String.eqb. cbv iota zeta.
  rewrite (find_none_of_forall _ _ Hnoauto).
  fold fitsHeightOrWidth.
  change (fun rf => autofitIs "height" rf || autofitIs "width" rf)
    with fitsHeightOrWidth.
  pose proof (chooseLeastReduction_greatest (filter fitsHeightOrWidth factors) None) as Hc.
  destruct (chooseLeastReduction None (filter fitsHeightOrWidth factors)) as [r|].
  - destruct Hc as ([Hr|Hr] & _ & Hmax); [discriminate|].
    apply filter_In in Hr. destruct Hr as (Hin & Hfit).
    exists r. repeat split; auto.
    intros c Hc Hfitc. apply Hmax. apply filter_In. auto.
  - destruct Hc as (_ & Hnil). exfalso.
    assert (Hin : In c0 (filter fitsHeightOrWidth factors)) by (apply filter_In; auto).
    rewrite Hnil in Hin. destruct Hin.
Qed.

Lemma nextReduce_auto_greatest_witness :
  let fit t r := {| reduce := r; autofit := Some t |} in
  let factors := [rf 1; fit "height" 2; fit "width" 3; rf 4] in
  Forall (fun f => autofitIs "auto" f = false) factors /\
  (exists c, In c factors /\ fitsHeightOrWidth c = true) /\
  (exists res,
     nextReduce (Finite 1) "auto" factors = Some res /\
     In res factors /\
     fitsHeightOrWidth res = true /\
     forall c, In c factors -> fitsHeightOrWidth c = true -> reduce c <= reduce res) /\
  nextReduce (Finite 1) "auto" factors = Some (fit "width" 3).
Proof.
  intros fit factors.
  assert (Hno : Forall (fun f => autofitIs "auto" f = false) factors)
    by (repeat constructor).
  assert (He : exists c, In c factors /\ fitsHeightOrWidth c = true).
  { exists (fit "height" 2). split; [simpl; tauto|reflexivity]. }
  split; [exact Hno|]. split; [exact He|]. split; [|reflexivity].
  exact (nextReduce_auto_greatest (Finite 1) factors Hno He).
Defined.

Lemma find_first {A} (p : A -> bool) l :
  (exists f, In f l /\ p f = true) ->
  exists pre res post,
    l = (pre ++ res :: post)%list /\ find p l = Some res /\ p res = true /\
    Forall (fun f => p f = false) pre.
Proof.
  induction l as [|x l IH]; intros (f & Hin & Hf); [destruct Hin|].
  simpl find. destruct (p x) eqn:E.
  - exists [], x, l. repeat split; auto.
  - destruct IH as (pre & res & post & Hl & Hfind & Hres & Hpre).
    { destruct Hin as [<-|Hin]; [congruence|]. exists f. auto. }
    exists (x :: pre), res, post. split; [now rewrite Hl|]. auto.
Qed.

(** X4.  Directions 'auto', 'height' and 'width' return the first factor
    of the list whose [autofit] is the direction, when there is one;
    a factor tagged 'auto' so goes before the candidates of 'auto'. *)
Theorem nextReduce_autofit_tag (currentReduce : Num) (direction : string)
    (factors : list ReductionFactor) :
  In direction ["auto"; "height"; "width"] ->
  (exists f, In f factors /\ autofitIs direction f = true) ->
  exists pre res post,
    factors = (pre ++ res :: post)%list /\
    nextReduce currentReduce direction factors = Some res /\
    autofitIs direction res = true /\
    Forall (fun f => autofitIs direction f = false) pre.
Proof.
  intros Hdir He.
  destruct (find_first (autofitIs direction) factors He)
    as (pre & res & post & Hl & Hfind & Hres & Hpre).
  exists pre, res, post. split; [exact Hl|]. split; [|split; assumption].
  simpl in Hdir. destruct Hdir as [<-|[<-|[<-|[]]]];
    unfold nextReduce; simpl String.eqb; cbv iota zeta; simpl orb; cbv iota;
    rewrite Hfind; reflexivity.
Qed.

Lemma nextReduce_autofit_tag_witness :
  let fit t r := {| reduce := r; autofit := Some t |} in
  let factors := [rf 1; fit "height" 2; fit "auto" 3; fit "auto" 4] in
  In "auto" ["auto"; "height"; "width"] /\
  (exists f, In f factors /\ autofitIs "auto" f = true) /\
  (exists pre res post,
     factors = (pre ++ res :: post)%list /\
     nextReduce NaN "auto" factors = Some res /\
     autofitIs "auto" res = true /\
     Forall (fun f => autofitIs "auto" f = false) pre) /\
  nextReduce NaN "auto" factors = Some (fit "auto" 3).
Proof.
  intros fit factors.
  assert (Hd : In "auto" ["auto"; "height"; "width"]) by (simpl; tauto).
  assert (He : exists f, In f factors /\ autofitIs "auto" f = true).
  { exists (fit "auto" 4). split; [simpl; tauto|reflexivity]. }
  split; [exact Hd|]. split; [exact He|]. split; [|reflexivity].
  exact (nextReduce_autofit_tag NaN "auto" factors Hd He).
Defined.

(** ** Quantization as a projection *)

Lemma quantizeReduce_nearest r factors :
  factors <> [] ->
  exists k f,
    firstNearest r factors k f /\
    quantizeReduce (Finite r) factors = Return (reduce f).
Proof.
  destruct factors as [|f0 rest]; [congruence|]. intros _.
  assert (H0 : firstNearest r [f0] 0 f0).
  { repeat split.
    - intros g [<-|[]]. apply Qle_refl.
    - intros j g Hj. lia. }
  destruct (quantizeScan_firstNearest r rest _ _ _ H0) as (k & f & Hf & Hq).
  exists k, f. split; [exact Hf|].
  unfold quantizeReduce. cbn [Num.abs Num.sub]. fold (distanceTo r f0).
  now rewrite Hq.
Qed.

(** X5.  Quantizing is idempotent: the value [quantizeReduce] returns is
    the [reduce] of a member of the list, and quantizing it again returns
    an equal number. *)
Theorem quantizeReduce_idempotent (r q : Q) (factors : list ReductionFactor) :
  quantizeReduce (Finite r) factors = Return q ->
  (exists f, In f factors /\ q = reduce f) /\
  exists q', quantizeReduce (Finite q) factors = Return q' /\ q' == q.
Proof.
  intros Hq.
  assert (Hne : factors <> []) by (intros ->; discriminate Hq).
  destruct (quantizeReduce_nearest r factors Hne) as (k & f & (Hk & _ & _) & Hr).
  rewrite Hr in Hq. injection Hq as <-.
  assert (Hin : In f factors) by (eapply nth_error_In; eassumption).
  split; [exists f; auto|].
  destruct (quantizeReduce_nearest (reduce f) factors Hne)
    as (k' & f' & (_ & Hmin & _) & Hr').
  exists (reduce f'). split; [exact Hr'|].
  specialize (Hmin f Hin). unfold distanceTo in Hmin.
  rewrite (round_of_zero (reduce f - reduce f)) in Hmin by ring.
  assert (H0 : Num.round (reduce f - reduce f') == 0).
  { change (Qabs 0) with 0 in Hmin.
    apply Qabs_Qle_condition in Hmin. destruct Hmin as (Hlo & Hhi). lra. }
  apply (proj1 (round_eq_zero _)) in H0. lra.
Qed.

Lemma quantizeReduce_idempotent_witness :
  quantizeReduce (Finite 3) [rf 1; rf 2; rf 4] = Return 2 /\
  ((exists f, In f [rf 1; rf 2; rf 4] /\ 2 = reduce f) /\
   exists q', quantizeReduce (Finite 2) [rf 1; rf 2; rf 4] = Return q' /\ q' == 2).
Proof.
  split; [reflexivity|].
  exact (quantizeReduce_idempotent 3 2 [rf 1; rf 2; rf 4] eq_refl).
Defined.

Lemma quantizeScan_nan quantized rest :
  quantizeScan NaN quantized NaN rest = quantized.
Proof. induction rest as [|g rest IH]; [reflexivity|exact IH]. Qed.

(** X6.  [quantizeReduce] throws a TypeError on an empty list of factors,
    whatever the input; on an input that is not a number (an undefined
    [reduce]) it returns the first factor. *)
Theorem quantizeReduce_edges (r : Num) (f0 : ReductionFactor)
    (rest : list ReductionFactor) :
  (exists msg, quantizeReduce r [] = Throw (TypeError msg)) /\
  quantizeReduce (Num.ofOption None) (f0 :: rest) = Return (reduce f0).
Proof.
  split; [eexists; reflexivity|].
  unfold quantizeReduce. cbn [Num.ofOption Num.sub Num.abs].
  now rewrite quantizeScan_nan.
Qed.

(** ** Stepping in and out *)

Lemma strictlySorted_nth l : strictlySortedByReduce l ->
  forall j j' a b, (j < j')%nat ->
    nth_error l j = Some a -> nth_error l j' = Some b -> reduce a < reduce b.
Proof.
  induction 1 as [|f l Hs IH Hall]; intros j j' a b Hlt Ha Hb.
  - destruct j; discriminate.
  - destruct j as [|j], j' as [|j']; simpl in *; try lia.
    + injection Ha as <-. rewrite Forall_forall in Hall.
      apply Hall. eapply nth_error_In; eassumption.
    + apply (IH j j'); auto with arith.
Qed.

(** X7.  On factors sorted ascending with no repeated [reduce], stepping
    'in' from a factor returns the factor before it, and stepping 'out'
    from that one returns to where the step began. *)
Theorem nextReduce_in_then_out (factors : list ReductionFactor) (k : nat)
    (f : ReductionFactor) :
  strictlySortedByReduce factors ->
  nth_error factors (S k) = Some f ->
  exists g,
    nth_error factors k = Some g /\
    nextReduce (Finite (reduce f)) "in" factors = Some g /\
    nextReduce (Finite (reduce g)) "out" factors = Some f.
Proof.
  intros Hs Hf.
  assert (Hlen : (S k < List.length factors)%nat)
    by (apply nth_error_Some; congruence).
  destruct (nth_error factors k) as [g|] eqn:Hg;
    [|apply nth_error_None in Hg; lia].
  exists g. split; [reflexivity|].
  assert (Hgf : reduce g < reduce f)
    by (apply (strictlySorted_nth _ Hs k (S k)); auto).
  split.
  - unfold nextReduce. simpl String.eqb. cbv iota.
    destruct factors as [|f0 rest]; [discriminate|]. cbn [tl].
    destruct (scanIn_result (reduce f) rest 1 0)
      as [(Hk & Hnone)|(j & h & Hk & Hj & Hh & Hafter)]; rewrite Hk.
    + destruct k as [|k]; [exact Hg|]. exfalso.
      apply (Hnone g); [|assumption]. simpl in Hg. eapply nth_error_In; eassumption.
    + assert (Hjk : (1 + j = k)%nat).
      { destruct (Nat.lt_trichotomy (1 + j) k) as [Hlt|[Heq|Hgt]]; [|assumption|].
        - exfalso. destruct k as [|k]; [lia|]. simpl in Hg.
          apply (Hafter k g); [lia|assumption|assumption].
        - exfalso. simpl in Hf.
          destruct (Nat.eq_dec j k) as [->|Hne].
          + rewrite Hf in Hj. injection Hj as <-. exact (Qlt_irrefl _ Hh).
          + assert (Hfh : reduce f < reduce h).
            { apply (strictlySorted_nth _ Hs (S k) (S j)); [lia|exact Hf|exact Hj]. }
            exact (Qlt_irrefl _ (Qlt_trans _ _ _ Hfh Hh)). }
      rewrite Hjk. exact Hg.
  - unfold nextReduce. simpl String.eqb. cbv iota zeta.
    destruct (scanOut_result (reduce g) (rev factors)
                (Z.of_nat (List.length factors) - 1))
      as [(_ & Hnone)|(pre & x & more & Hrev & Hk & Hx & Hafter)].
    + exfalso. apply (Hnone f); [|assumption].
      apply in_rev. rewrite rev_involutive. eapply nth_error_In; eassumption.
    + rewrite Hk. apply rev_split in Hrev.
      assert (Hnth : nth_error factors (List.length more) = Some x).
      { rewrite Hrev, <- (length_rev more). apply nth_error_middle. }
      assert (Hm : List.length more = S k).
      { destruct (Nat.lt_trichotomy (List.length more) (S k)) as [Hlt|[Heq|Hgt]];
          [|assumption|].
        - exfalso. destruct (Nat.eq_dec (List.length more) k) as [E|Hne].
          + rewrite E, Hg in Hnth. injection Hnth as <-. exact (Qlt_irrefl _ Hx).
          + assert (Hxg : reduce x < reduce g).
            { apply (strictlySorted_nth _ Hs (List.length more) k); [lia|assumption|assumption]. }
            exact (Qlt_irrefl _ (Qlt_trans _ _ _ Hxg Hx)).
        - exfalso. apply (Hafter f); [|assumption].
          rewrite Hrev, nth_error_app1 in Hf by (rewrite length_rev; assumption).
          apply in_rev. eapply nth_error_In; eassumption. }
      unfold at_index.
      destruct (Z.ltb_spec (Z.of_nat (List.length more)) 0) as [Hneg|_]; [lia|].
      rewrite Nat2Z.id, Hm. exact Hf.
Qed.

Lemma strictly_sorted_1_2_4 : strictlySortedByReduce [rf 1; rf 2; rf 4].
Proof. repeat constructor. Qed.

Lemma nextReduce_in_then_out_witness :
  let factors := [rf 1; rf 2; rf 4] in
  strictlySortedByReduce factors /\
  nth_error factors 2 = Some (rf 4) /\
  exists g,
    nth_error factors 1 = Some g /\
    nextReduce (Finite (reduce (rf 4))) "in" factors = Some g /\
    nextReduce (Finite (reduce g)) "out" factors = Some (rf 4).
Proof.
  split; [exact strictly_sorted_1_2_4|]. split; [reflexivity|].
  exact (nextReduce_in_then_out [rf 1; rf 2; rf 4] 1 (rf 4)
           strictly_sorted_1_2_4 eq_refl).
Defined.

(** ** The fragment codec: legacy form, shape, page strings *)

Lemma digit_not_hash c s :
  Str.isDigit c = true -> stripHash (String c s) = String c s.
Proof.
  intros Hc. destruct c as [[] [] [] [] [] [] [] []]; try reflexivity; discriminate Hc.
Qed.

Lemma stripHash_digits s :
  Str.forallb Str.isDigit s = true -> stripHash s = s.
Proof.
  destruct s as [|c s]; [reflexivity|]. simpl. rewrite andb_true_iff.
  intros (Hc & _). now apply digit_not_hash.
Qed.

(** X8.  The legacy form: a fragment that is the decimal numeral of a page
    index, with or without the leading '#', decodes to that index and to
    no other key. *)
Theorem paramsFromFragment_legacy (i : Z) :
  (0 <= i)%Z ->
  paramsFromFragment (Str.ofZ i) = Return (Params.setIndex (Some i) Params.empty) /\
  paramsFromFragment ("#" ++ Str.ofZ i) =
    Return (Params.setIndex (Some i) Params.empty).
Proof.
  intros Hi. unfold paramsFromFragment. split.
  - rewrite (stripHash_digits _ (ofZ_digits i Hi)).
    now rewrite (parseAllDigits_ofZ i Hi).
  - change (stripHash ("#" ++ Str.ofZ i)) with (Str.ofZ i).
    now rewrite (parseAllDigits_ofZ i Hi).
Qed.

Lemma paramsFromFragment_legacy_witness :
  (0 <= 42)%Z /\
  (paramsFromFragment (Str.ofZ 42) = Return (Params.setIndex (Some 42%Z) Params.empty) /\
   paramsFromFragment ("#" ++ Str.ofZ 42) =
     Return (Params.setIndex (Some 42%Z) Params.empty)) /\
  Str.ofZ 42 = "42".
Proof.
  split; [lia|]. split; [|reflexivity].
  apply (paramsFromFragment_legacy 42). lia.
Defined.

Lemma parseAllDigits_nonneg s n : Str.parseAllDigits s = Some n -> (0 <= n)%Z.
Proof.
  unfold Str.parseAllDigits. destruct s as [|c s]; [discriminate|].
  destruct (DecimalString.NilEmpty.uint_of_string (String c s)) as [d|]; [|discriminate].
  intros E. injection E as <-. unfold Z.of_uint. apply N2Z.is_nonneg.
Qed.

(** Encoding throws only on a mode that is neither undefined nor a mode
    constant. *)
Lemma fragmentFromParams_returns p urlMode :
  Params.mode p = MUndefined \/ isModeConstant (Params.mode p) ->
  exists s, fragmentFromParams p urlMode = Return s.
Proof.
  intros Hm. unfold fragmentFromParams.
  destruct Hm as [->|[->|[->| ->]]]; cbn [Mode.looseEqNum bindC];
    simpl Z.eqb; cbv iota; cbn [bindC]; eexists; reflexivity.
Qed.

Lemma paramsFromUrlHash_shape urlHash p :
  paramsFromUrlHash urlHash = Return p ->
  (Params.mode p = MUndefined \/ isModeConstant (Params.mode p)) /\
  Params.index p = None /\ Params.init p = None /\
  Params.pageFound p = None /\ Params.fragmentChange p = None.
Proof.
  unfold paramsFromUrlHash, isModeConstant.
  destruct (urlHashIs urlHash "mode" "1up");
    [|destruct (urlHashIs urlHash "mode" "2up");
      [|destruct (urlHashIs urlHash "mode" "thumb")]];
    (destruct (urlHashGet "page" urlHash) as [pg|];
     [destruct (URI.decodeURIComponent pg); [|discriminate]|];
     (destruct (urlHashGet "search" urlHash) as [sr|];
      [destruct (URI.decodeURIComponentPlus sr); [|discriminate]|];
      (destruct (urlHashGet "theme" urlHash);
       cbn [bindC]; intros E; injection E as <-; cbn; tauto))).
Qed.

(** X9.  Whatever the fragment, what [paramsFromFragment] returns holds a
    mode that is undefined or a mode constant, holds an index only in the
    legacy form, where it is non-negative and the only key, and holds none
    of [init], [pageFound] and [fragmentChange]; [fragmentFromParams]
    encodes it without throwing. *)
Theorem paramsFromFragment_shape (fragment : string) (p : Params.t) :
  paramsFromFragment fragment = Return p ->
  (Params.mode p = MUndefined \/ isModeConstant (Params.mode p)) /\
  (forall i, Params.index p = Some i ->
             (0 <= i)%Z /\ p = Params.setIndex (Some i) Params.empty) /\
  Params.init p = None /\ Params.pageFound p = None /\
  Params.fragmentChange p = None /\
  forall urlMode, exists s, fragmentFromParams p urlMode = Return s.
Proof.
  intros Hp.
  assert (H : (Params.mode p = MUndefined \/ isModeConstant (Params.mode p)) /\
              (forall i, Params.index p = Some i ->
                         (0 <= i)%Z /\ p = Params.setIndex (Some i) Params.empty) /\
              Params.init p = None /\ Params.pageFound p = None /\
              Params.fragmentChange p = None).
  { unfold paramsFromFragment in Hp.
    destruct (Str.parseAllDigits (stripHash fragment)) as [n|] eqn:E.
    - injection Hp as <-. apply parseAllDigits_nonneg in E. cbn.
      split; [now left|]. split; [|auto].
      intros i Hi. injection Hi as <-. auto.
    - apply paramsFromUrlHash_shape in Hp.
      destruct Hp as (Hm & Hi & Hinit & Hpf & Hfc).
      split; [exact Hm|]. split; [|auto]. intros i Hi'. congruence. }
  destruct H as (Hm & Hi & Hinit & Hpf & Hfc).
  split; [exact Hm|]. split; [exact Hi|]. split; [exact Hinit|].
  split; [exact Hpf|]. split; [exact Hfc|].
  intros urlMode. now apply fragmentFromParams_returns.
Qed.

Lemma paramsFromFragment_shape_witness :
  let p := Params.setTheme (Some "dark") (pageAndMode "iv" (MNum constMode2up)) in
  paramsFromFragment "#page/iv/mode/2up/theme/dark/zoom" = Return p /\
  ((Params.mode p = MUndefined \/ isModeConstant (Params.mode p)) /\
   (forall i, Params.index p = Some i ->
              (0 <= i)%Z /\ p = Params.setIndex (Some i) Params.empty) /\
   Params.init p = None /\ Params.pageFound p = None /\
   Params.fragmentChange p = None /\
   forall urlMode, exists s, fragmentFromParams p urlMode = Return s).
Proof.
  split; [reflexivity|].
  exact (paramsFromFragment_shape "#page/iv/mode/2up/theme/dark/zoom" _ eq_refl).
Defined.

Lemma encodeURIComponent_no_slash s :
  Str.forallb (fun c => negb (Ascii.eqb c "/")) (URI.encodeURIComponent s) = true.
Proof.
  induction s as [|c s IH]; [reflexivity|].
  destruct c as [[] [] [] [] [] [] [] []]; simpl; exact IH.
Qed.

Lemma encodeURIComponent_length c s :
  (S (String.length (URI.encodeURIComponent s))
   <= String.length (URI.encodeURIComponent (String c s)))%nat.
Proof.
  cbn [URI.encodeURIComponent]. destruct (URI.unreserved c); simpl; lia.
Qed.

(** Decoding undoes encoding on the strings of the ASCII range. *)
Lemma decodeFrom_encodeURIComponent s : forall fuel,
  Str.forallb isAsciiChar s = true ->
  (String.length (URI.encodeURIComponent s) <= fuel)%nat ->
  URI.decodeFrom fuel (URI.encodeURIComponent s) = Return s.
Proof.
  induction s as [|c s IH]; intros fuel Hs Hlen.
  - destruct fuel; reflexivity.
  - pose proof (encodeURIComponent_length c s) as Hl.
    destruct fuel as [|fuel]; [lia|].
    simpl in Hs. apply andb_true_iff in Hs. destruct Hs as (Hc & Hs).
    assert (Hrec : URI.decodeFrom fuel (URI.encodeURIComponent s) = Return s)
      by (apply IH; [assumption|lia]).
    clear Hlen Hl IH.
    destruct c as [[] [] [] [] [] [] [] []]; try discriminate Hc;
      cbn; rewrite Hrec; reflexivity.
Qed.

Lemma decode_encodeURIComponent s :
  Str.forallb isAsciiChar s = true ->
  URI.decodeURIComponent (URI.encodeURIComponent s) = Return s.
Proof. intros Hs. now apply decodeFrom_encodeURIComponent. Qed.

Lemma paramsFromFragment_page_value v d :
  Str.forallb (fun c => negb (Ascii.eqb c "/")) v = true ->
  URI.decodeURIComponent v = Return d ->
  paramsFromFragment ("page/" ++ v) = Return (pageAndMode d MUndefined).
Proof.
  intros Hslash Hdec.
  rewrite paramsFromFragment_tokens with (urlArray := ["page"; v]).
  - unfold paramsFromUrlHash; cbn [fillUrlHash].
    change (urlHashGet "page" _) with (Some v).
    cbv beta iota zeta. rewrite Hdec. reflexivity.
  - reflexivity.
  - reflexivity.
  - simpl. rewrite split_plain by assumption. reflexivity.
Qed.

Lemma paramsFromFragment_page_value_mode v d tok m :
  Str.forallb (fun c => negb (Ascii.eqb c "/")) v = true ->
  URI.decodeURIComponent v = Return d ->
  In (tok, m) [("1up", constMode1up); ("2up", constMode2up); ("thumb", constModeThumb)] ->
  paramsFromFragment ("page/" ++ v ++ "/mode/" ++ tok) = Return (pageAndMode d (MNum m)).
Proof.
  intros Hslash Hdec Htok. simpl in Htok.
  destruct Htok as [E|[E|[E|[]]]]; injection E as <- <-;
    (match goal with
     | |- paramsFromFragment (_ ++ _ ++ _ ++ ?t) = _ =>
         rewrite paramsFromFragment_tokens with (urlArray := ["page"; v; "mode"; t])
     end;
     [ unfold paramsFromUrlHash; cbn [fillUrlHash];
       change (urlHashGet "page" _) with (Some v);
       cbv beta iota zeta; rewrite Hdec; reflexivity
     | reflexivity
     | reflexivity
     | simpl; rewrite split_app by assumption; reflexivity ]).
Qed.

(** X10.  A page string of the ASCII range survives the round trip through
    the fragment, whatever characters it holds, '/', '%' and '#' among
    them: the fragment of params with that page and a mode that is
    undefined or a mode constant decodes to the same page and mode.  An
    index held beside the page is not encoded. *)
Theorem page_round_trip (pg : string) (index : option Z) (m : ModeVal)
    (urlMode : string) :
  Str.forallb isAsciiChar pg = true ->
  m = MUndefined \/ isModeConstant m ->
  exists fragment,
    fragmentFromParams (Params.setIndex index (pageAndMode pg m)) urlMode
      = Return fragment /\
    paramsFromFragment fragment = Return (pageAndMode pg m).
Proof.
  intros Hpg Hm.
  pose proof (encodeURIComponent_no_slash pg) as Hslash.
  pose proof (decode_encodeURIComponent pg Hpg) as Hdec.
  destruct Hm as [->|[->|[->| ->]]].
  - exists ("page/" ++ URI.encodeURIComponent pg). split; [reflexivity|].
    now apply paramsFromFragment_page_value.
  - exists ("page/" ++ URI.encodeURIComponent pg ++ "/mode/" ++ "1up").
    split; [reflexivity|].
    apply paramsFromFragment_page_value_mode; simpl; auto.
  - exists ("page/" ++ URI.encodeURIComponent pg ++ "/mode/" ++ "2up").
    split; [reflexivity|].
    apply paramsFromFragment_page_value_mode; simpl; auto.
  - exists ("page/" ++ URI.encodeURIComponent pg ++ "/mode/" ++ "thumb").
    split; [reflexivity|].
    apply paramsFromFragment_page_value_mode; simpl; auto.
Qed.

Lemma page_round_trip_witness :
  Str.forallb isAsciiChar "5/6 #a%" = true /\
  (MNum constMode2up = MUndefined \/ isModeConstant (MNum constMode2up)) /\
  (exists fragment,
     fragmentFromParams
       (Params.setIndex (Some 7%Z) (pageAndMode "5/6 #a%" (MNum constMode2up))) "hash"
       = Return fragment /\
     paramsFromFragment fragment = Return (pageAndMode "5/6 #a%" (MNum constMode2up))) /\
  fragmentFromParams
    (Params.setIndex (Some 7%Z) (pageAndMode "5/6 #a%" (MNum constMode2up))) "hash"
    = Return "page/5%2F6%20%23a%25/mode/2up".
Proof.
  assert (Hm : MNum constMode2up = MUndefined \/ isModeConstant (MNum constMode2up))
    by (right; right; left; reflexivity).
  split; [reflexivity|]. split; [exact Hm|]. split; [|reflexivity].
  exact (page_round_trip "5/6 #a%" (Some 7%Z) (MNum constMode2up) "hash" eq_refl Hm).
Defined.

(** ** Start-up parameters: what the resolved params hold *)

Lemma orElse_none {A} (o : option A) : Params.orElse o None = o.
Proof. now destruct o. Qed.

Lemma extendParams_index book params newParams :
  Params.index (extendParams book params newParams) =
  Params.orElse (normalizedIndex book newParams) (Params.index params).
Proof.
  unfold extendParams, normalizedIndex.
  destruct newParams as [idx pg md sr th ini pf fc].
  destruct pg as [pg|]; cbn; [destruct (parsePageString book pg); cbn|];
    now rewrite ?orElse_none.
Qed.

Lemma extendParams_keeps book params newParams :
  Params.init newParams = None -> Params.pageFound newParams = None ->
  Params.page (extendParams book params newParams) = Params.page params /\
  Params.init (extendParams book params newParams) = Params.init params /\
  Params.pageFound (extendParams book params newParams) = Params.pageFound params /\
  Params.mode (extendParams book params newParams) =
    match Params.mode newParams with
    | MUndefined => Params.mode params
    | m => m
    end.
Proof.
  intros Hi Hf. unfold extendParams.
  destruct newParams as [idx pg md sr th ini pf fc]. cbn in Hi, Hf. subst ini pf.
  destruct pg as [pg|]; cbn; [destruct (parsePageString book pg); cbn|];
    (repeat split; now destruct md).
Qed.

Lemma paramsFromFragment_flags fragment p :
  paramsFromFragment fragment = Return p ->
  (Params.mode p = MUndefined \/ isModeConstant (Params.mode p)) /\
  Params.init p = None /\ Params.pageFound p = None.
Proof.
  unfold paramsFromFragment.
  destruct (Str.parseAllDigits (stripHash fragment)).
  - intros E. injection E as <-. cbn. auto.
  - intros E. apply paramsFromUrlHash_shape in E. tauto.
Qed.

Lemma defaultParams_flags br d :
  defaultParams br = Some d ->
  (Params.mode d = MUndefined \/ isModeConstant (Params.mode d)) /\
  Params.init d = None /\ Params.pageFound d = None.
Proof.
  unfold defaultParams. destruct (BR.defaults (BR.options br)) as [[|c s]|];
    try discriminate.
  destruct (paramsFromFragment (String c s)) as [p|] eqn:E; [|discriminate].
  intros H. injection H as <-. now apply paramsFromFragment_flags in E.
Qed.

Lemma readUrlParams_flags br u :
  readUrlParams br = Return u ->
  (Params.mode u = MUndefined \/ isModeConstant (Params.mode u)) /\
  Params.init u = None /\ Params.pageFound u = None.
Proof.
  unfold readUrlParams. intros Eu.
  destruct (paramsFromFragment (BR.urlReadFragment (BR.env br))) as [u0|] eqn:E0;
    [|discriminate]. cbn [bindC] in Eu.
  match type of Eu with (if ?c then _ else _) = _ => destruct c end.
  - now apply paramsFromFragment_flags in Eu.
  - injection Eu as <-. now apply paramsFromFragment_flags in E0.
Qed.

Lemma urlParams_flags br u :
  urlParams br = Some u ->
  (Params.mode u = MUndefined \/ isModeConstant (Params.mode u)) /\
  Params.init u = None /\ Params.pageFound u = None.
Proof.
  unfold urlParams. destruct (BR.enableUrlPlugin (BR.options br)); [|discriminate].
  destruct (readUrlParams br) as [p|] eqn:E; [|discriminate].
  intros H. injection H as <-. now apply readUrlParams_flags in E.
Qed.

(** The params after the step of the defaults. *)
Lemma paramsFromDefaults_fields br p0 :
  paramsFromDefaults br = Return p0 ->
  Params.page p0 = None /\ Params.init p0 = Some true /\
  Params.pageFound p0 = Some (hasPage (defaultParams br)) /\
  Params.mode p0 =
    match defaultParams br with
    | Some d => Params.mode d
    | None => MUndefined
    end /\
  Params.index p0 =
    match defaultParams br with
    | Some d => Params.orElse (normalizedIndex (BR.book br) d) (titleIndex br)
    | None => titleIndex br
    end.
Proof.
  unfold paramsFromDefaults, defaultParams, titleIndex.
  destruct (BR.defaults (BR.options br)) as [[|c d]|].
  - intros E. injection E as <-.
    destruct (BR.titleLeaf (BR.options br));
      [destruct (2 <? getNumLeafs (BR.book br))%Z|]; cbn; auto 6.
  - destruct (paramsFromFragment (String c d)) as [dp|] eqn:Ed; [|discriminate].
    cbn [bindC]. intros E. injection E as <-.
    destruct (paramsFromFragment_flags _ _ Ed) as (Hm & Hi & Hf).
    match goal with
    | |- context [extendParams ?b ?p dp] =>
        destruct (extendParams_keeps b p dp Hi Hf) as (E1 & E2 & E3 & E4);
        rewrite E1, E2, E3, E4, (extendParams_index b p dp)
    end.
    unfold hasPage.
    destruct (Params.page dp);
      (destruct (BR.titleLeaf (BR.options br));
       [destruct (2 <? getNumLeafs (BR.book br))%Z|]);
      cbn; (repeat split; auto); now destruct (Params.mode dp).
  - intros E. injection E as <-.
    destruct (BR.titleLeaf (BR.options br));
      [destruct (2 <? getNumLeafs (BR.book br))%Z|]; cbn; auto 6.
Qed.

Lemma paramsFromResume_fields br p0 :
  Params.page (paramsFromResume br p0) = Params.page p0 /\
  Params.init (paramsFromResume br p0) = Params.init p0 /\
  Params.pageFound (paramsFromResume br p0) = Params.pageFound p0 /\
  Params.mode (paramsFromResume br p0) = Params.mode p0 /\
  Params.index (paramsFromResume br p0) =
    Params.orElse (resumeValue br) (Params.index p0).
Proof.
  unfold paramsFromResume. destruct (resumeValue br) as [v|]; [|now cbn].
  destruct (indexDiffers (Params.index p0) v); now cbn.
Qed.

Lemma keysLength_zero u :
  Params.keysLength u = 0%nat ->
  Params.page u = None /\ Params.index u = None /\ Params.mode u = MUndefined.
Proof.
  unfold Params.keysLength.
  destruct (Params.index u), (Params.page u), (Params.mode u); cbn; auto; lia.
Qed.

Lemma paramsFromUrl_fields br p1 p :
  paramsFromUrl br p1 = Return p ->
  Params.page p = Params.page p1 /\
  Params.init p = Params.init p1 /\
  Params.pageFound p =
    (if hasPage (urlParams br) then Some true else Params.pageFound p1) /\
  Params.mode p =
    match urlParams br with
    | Some u => match Params.mode u with MUndefined => Params.mode p1 | m => m end
    | None => Params.mode p1
    end /\
  Params.index p =
    match urlParams br with
    | Some u => Params.orElse (normalizedIndex (BR.book br) u) (Params.index p1)
    | None => Params.index p1
    end.
Proof.
  unfold paramsFromUrl, urlParams.
  destruct (BR.enableUrlPlugin (BR.options br)).
  - destruct (readUrlParams br) as [u|] eqn:Eu; [|discriminate]. cbn [bindC].
    destruct (readUrlParams_flags br u Eu) as (Hm & Hi & Hf).
    destruct (Params.keysLength u =? 0)%nat eqn:Ek; cbn [negb]; intros E;
      injection E as <-.
    + apply Nat.eqb_eq, keysLength_zero in Ek. destruct Ek as (Hpg & Hidx & Hmd).
      unfold hasPage, normalizedIndex. rewrite Hpg, Hidx, Hmd.
      repeat split; auto.
    + match goal with
      | |- context [extendParams ?b ?q u] =>
          destruct (extendParams_keeps b q u Hi Hf) as (E1 & E2 & E3 & E4);
          pose proof (extendParams_index b q u) as E5
      end.
      cbn [Params.page Params.init Params.pageFound Params.mode Params.index
           Params.setFragmentChange].
      rewrite E1, E2, E3, E4, E5. unfold hasPage.
      destruct (Params.page u); cbn; repeat split; auto.
  - intros E. injection E as <-. cbn. repeat split; auto.
Qed.

Lemma initParams_resolves br params br' :
  initParams br = (Return params, br') -> resolveParams br = Return params.
Proof.
  unfold initParams.
  destruct (resolveParams br) as [p|]; [|discriminate].
  set (searched := match BR.search (BR.plugins br) with Some _ => _ | None => _ end).
  destruct searched as [[[]|e] br1]; [|discriminate].
  intros E. now injection E as <- _.
Qed.

(** What [resolveParams] returns, field by field. *)
Lemma resolveParams_fields br p :
  resolveParams br = Return p ->
  Params.page p = None /\ Params.init p = Some true /\
  Params.pageFound p = Some (hasPage (defaultParams br) || hasPage (urlParams br)) /\
  Params.mode p =
    match (match urlParams br with Some u => Params.mode u | None => MUndefined end) with
    | MUndefined =>
        match defaultParams br with Some d => Params.mode d | None => MUndefined end
    | m => m
    end /\
  Params.index p =
    Params.orElse
      (match urlParams br with
       | Some u => normalizedIndex (BR.book br) u
       | None => None
       end)
      (Params.orElse (resumeValue br)
         (match defaultParams br with
          | Some d => Params.orElse (normalizedIndex (BR.book br) d) (titleIndex br)
          | None => titleIndex br
          end)).
Proof.
  unfold resolveParams.
  destruct (paramsFromDefaults br) as [p0|] eqn:E0; [|discriminate]. cbn [bindC].
  intros E.
  destruct (paramsFromDefaults_fields br p0 E0) as (A1 & A2 & A3 & A4 & A5).
  destruct (paramsFromResume_fields br p0) as (B1 & B2 & B3 & B4 & B5).
  destruct (paramsFromUrl_fields br _ p E) as (C1 & C2 & C3 & C4 & C5).
  rewrite C1, C2, C3, C4, C5, B1, B2, B3, B4, B5, A1, A2, A3, A4, A5.
  split; [reflexivity|]. split; [reflexivity|]. split; [|split].
  - destruct (hasPage (urlParams br)), (hasPage (defaultParams br)); reflexivity.
  - now destruct (urlParams br).
  - now destruct (urlParams br).
Qed.

Lemma resolveParams_mode br p :
  resolveParams br = Return p ->
  Params.mode p = MUndefined \/ isModeConstant (Params.mode p).
Proof.
  intros H. destruct (resolveParams_fields br p H) as (_ & _ & _ & -> & _).
  destruct (urlParams br) as [u|] eqn:Eu.
  - destruct (urlParams_flags br u Eu) as ([Hu|Hu] & _).
    + rewrite Hu. destruct (defaultParams br) as [d|] eqn:Ed; [|now left].
      now destruct (defaultParams_flags br d Ed).
    + right. destruct Hu as [Hu|[Hu|Hu]]; rewrite Hu; unfold isModeConstant; auto.
  - destruct (defaultParams br) as [d|] eqn:Ed; [|now left].
    now destruct (defaultParams_flags br d Ed).
Qed.

(** X11.  The params [initParams] returns are normalized: they hold no
    page string (it has become an index), [init] is true, [pageFound] and
    [fragmentChange] are booleans, and the mode is undefined or a mode
    constant. *)
Theorem initParams_normalized (br br' : BR.t) (params : Params.t) :
  initParams br = (Return params, br') ->
  Params.page params = None /\
  Params.init params = Some true /\
  (exists b, Params.pageFound params = Some b) /\
  (exists b, Params.fragmentChange params = Some b) /\
  (Params.mode params = MUndefined \/ isModeConstant (Params.mode params)).
Proof.
  intros H. apply initParams_resolves in H.
  destruct (resolveParams_fields br params H) as (H1 & H2 & H3 & _).
  destruct (resolveParams_fragmentChange br params H) as (b & Hb & _).
  pose proof (resolveParams_mode br params H) as Hm.
  repeat split; eauto.
Qed.

Lemma initParams_normalized_witness :
  let br := startingViewer (Some "page/n5/mode/2up") None "page/n3" in
  let br' := startedViewer (Some "page/n5/mode/2up") None "page/n3" false false in
  let params :=
    {| Params.index := Some 3%Z; Params.page := None; Params.mode := MNum constMode2up;
       Params.search := None; Params.theme := None; Params.init := Some true;
       Params.pageFound := Some true; Params.fragmentChange := Some true |} in
  initParams br = (Return params, br') /\
  (Params.page params = None /\
   Params.init params = Some true /\
   (exists b, Params.pageFound params = Some b) /\
   (exists b, Params.fragmentChange params = Some b) /\
   (Params.mode params = MUndefined \/ isModeConstant (Params.mode params))).
Proof.
  intros br br' params.
  assert (E : initParams br = (Return params, br')) by (vm_compute; reflexivity).
  split; [exact E|]. exact (initParams_normalized br br' params E).
Defined.

(** X12.  The sources of the start-up params are ranked: the index is the
    one the URL gives (its page string, when the book finds the page, else
    its index) if the URL plugin is enabled and the URL gives one; else the
    value of the resume plugin, if enabled and not null; else the one
    [options.defaults] gives; else the index of the title leaf or 0.  The
    mode is that of the URL, else that of [options.defaults], else
    undefined. *)
Theorem initParams_priority (br br' : BR.t) (params : Params.t) :
  initParams br = (Return params, br') ->
  let fromUrl :=
    match urlParams br with
    | Some u => normalizedIndex (BR.book br) u
    | None => None
    end in
  let fromDefaults :=
    match defaultParams br with
    | Some d => normalizedIndex (BR.book br) d
    | None => None
    end in
  Params.index params =
    match fromUrl, resumeValue br, fromDefaults with
    | Some i, _, _ => Some i
    | None, Some v, _ => Some v
    | None, None, Some i => Some i
    | None, None, None => titleIndex br
    end /\
  Params.mode params =
    match (match urlParams br with Some u => Params.mode u | None => MUndefined end) with
    | MUndefined =>
        match defaultParams br with Some d => Params.mode d | None => MUndefined end
    | m => m
    end.
Proof.
  intros H. apply initParams_resolves in H.
  destruct (resolveParams_fields br params H) as (_ & _ & _ & Hm & Hi).
  cbv zeta. split; [|exact Hm]. rewrite Hi.
  destruct (urlParams br) as [u|]; [destruct (normalizedIndex (BR.book br) u)|];
    cbn [Params.orElse]; try reflexivity;
    (destruct (resumeValue br); cbn [Params.orElse]; [reflexivity|];
     destruct (defaultParams br) as [d|]; [|reflexivity];
     destruct (normalizedIndex (BR.book br) d); reflexivity).
Qed.

(** The defaults name page 5 in two-page mode, the resume plugin holds 7
    and the URL holds page 3: the params hold index 3 and mode 2.  With a
    URL that holds only a theme, they hold index 7. *)
Lemma initParams_priority_witness :
  let br := startingViewer (Some "page/n5/mode/2up") (Some 7%Z) "page/n3" in
  let br' := startedViewer (Some "page/n5/mode/2up") (Some 7%Z) "page/n3" false false in
  let params :=
    {| Params.index := Some 3%Z; Params.page := None; Params.mode := MNum constMode2up;
       Params.search := None; Params.theme := None; Params.init := Some true;
       Params.pageFound := Some true; Params.fragmentChange := Some true |} in
  let br2 := startingViewer (Some "page/n5/mode/2up") (Some 7%Z) "theme/dark" in
  let br2' :=
    startedViewer (Some "page/n5/mode/2up") (Some 7%Z) "theme/dark" false false in
  let params2 :=
    {| Params.index := Some 7%Z; Params.page := None; Params.mode := MNum constMode2up;
       Params.search := None; Params.theme := Some "dark"; Params.init := Some true;
       Params.pageFound := Some true; Params.fragmentChange := Some true |} in
  (initParams br = (Return params, br') /\
   Params.index params = Some 3%Z /\ Params.mode params = MNum constMode2up) /\
  (initParams br2 = (Return params2, br2') /\
   Params.index params2 = Some 7%Z /\ Params.mode params2 = MNum constMode2up).
Proof.
  intros br br' params br2 br2' params2.
  assert (E : initParams br = (Return params, br')) by (vm_compute; reflexivity).
  assert (E2 : initParams br2 = (Return params2, br2')) by (vm_compute; reflexivity).
  split.
  - split; [exact E|].
    destruct (initParams_priority br br' params E) as (Hi & Hm).
    split; [rewrite Hi|rewrite Hm]; vm_compute; reflexivity.
  - split; [exact E2|].
    destruct (initParams_priority br2 br2' params2 E2) as (Hi & Hm).
    split; [rewrite Hi|rewrite Hm]; vm_compute; reflexivity.
Defined.

Lemma initSearch_result sp params br c br1 :
  initSearch sp params br = (c, br1) ->
  exists sp',
    BR.plugins br1 =
      {| BR.search := Some sp'; BR.resume := BR.resume (BR.plugins br);
         BR.textSelection := BR.textSelection (BR.plugins br) |} /\
    SearchPlugin.options_goToFirstResult sp' =
      Some (negb (optionTruthy (Params.pageFound params))) /\
    BR.effects br1 = BR.effects br /\ BR.mode br1 = BR.mode br /\
    BR.prevReadMode br1 = BR.prevReadMode br /\
    BR.firstIndex br1 = BR.firstIndex br /\ BR.reduce br1 = BR.reduce br /\
    BR.initComplete br1 = BR.initComplete br /\
    BR.options br1 = BR.options br /\ BR.book br1 = BR.book br.
Proof.
  unfold initSearch.
  destruct (Str.truthy (SearchPlugin.initialSearchTerm sp)) eqn:E1;
    cbn [SearchPlugin.initialSearchTerm]; rewrite E1.
  - intros E. injection E as <- <-. eexists. repeat split.
  - destruct (Str.truthy (Params.search params)).
    + intros E. injection E as <- <-. eexists. repeat split.
    + match goal with
      | |- context [BR.searchParamsGet ?e ?q ?k] =>
          destruct (BR.searchParamsGet e q k) as [[|ch term]|]
      end.
      * intros E. injection E as <- <-. eexists. repeat split.
      * destruct (URI.decodeURIComponentPlus (String ch term));
          intros E; injection E as <- <-; eexists; repeat split.
      * intros E. injection E as <- <-. eexists. repeat split.
Qed.

(** X13.  [pageFound] of the params [initParams] returns is true exactly
    when [options.defaults] or the URL holds a page string, the value of
    the resume plugin not counting; an enabled search plugin is left with
    [goToFirstResult] the negation of it. *)
Theorem initParams_pageFound (br br' : BR.t) (params : Params.t) :
  initParams br = (Return params, br') ->
  let found := hasPage (defaultParams br) || hasPage (urlParams br) in
  Params.pageFound params = Some found /\
  forall sp,
    BR.search (BR.plugins br) = Some sp ->
    SearchPlugin.options_enabled sp = true ->
    exists sp',
      BR.search (BR.plugins br') = Some sp' /\
      SearchPlugin.options_goToFirstResult sp' = Some (negb found).
Proof.
  intros H. pose proof (initParams_resolves br params br' H) as Hr.
  destruct (resolveParams_fields br params Hr) as (_ & _ & Hf & _).
  cbv zeta. split; [exact Hf|].
  intros sp Hsp Hen. unfold initParams in H. rewrite Hr, Hsp, Hen in H.
  destruct (initSearch sp params br) as [[[]|e] br1] eqn:Es; [|discriminate H].
  injection H as <-.
  destruct (initSearch_result sp params br _ _ Es) as (sp' & Hpl & Hgo & _).
  exists sp'. cbn [BR.plugins BR.setSuppressFragmentChange]. rewrite Hpl.
  split; [reflexivity|]. rewrite Hgo, Hf.
  now destruct (hasPage (defaultParams br) || hasPage (urlParams br)).
Qed.

(** The resume plugin holds an index and the URL a page: the page counts
    as found.  With the resume value alone it does not, and the search
    plugin is to go to the first result. *)
Lemma initParams_pageFound_witness :
  let br := startingViewer (Some "mode/2up") (Some 7%Z) "page/n3" in
  let br' := startedViewer (Some "mode/2up") (Some 7%Z) "page/n3" false false in
  let params :=
    {| Params.index := Some 3%Z; Params.page := None; Params.mode := MNum constMode2up;
       Params.search := None; Params.theme := None; Params.init := Some true;
       Params.pageFound := Some true; Params.fragmentChange := Some true |} in
  let br2 := startingViewer (Some "mode/2up") (Some 7%Z) "" in
  let br2' := startedViewer (Some "mode/2up") (Some 7%Z) "" true false in
  let params2 :=
    {| Params.index := Some 7%Z; Params.page := None; Params.mode := MNum constMode2up;
       Params.search := None; Params.theme := None; Params.init := Some true;
       Params.pageFound := Some false; Params.fragmentChange := Some true |} in
  (initParams br = (Return params, br') /\
   Params.pageFound params = Some true /\
   exists sp',
     BR.search (BR.plugins br') = Some sp' /\
     SearchPlugin.options_goToFirstResult sp' = Some false) /\
  (initParams br2 = (Return params2, br2') /\
   Params.pageFound params2 = Some false /\
   exists sp',
     BR.search (BR.plugins br2') = Some sp' /\
     SearchPlugin.options_goToFirstResult sp' = Some true).
Proof.
  intros br br' params br2 br2' params2.
  assert (E : initParams br = (Return params, br')) by (vm_compute; reflexivity).
  assert (E2 : initParams br2 = (Return params2, br2')) by (vm_compute; reflexivity).
  split.
  - split; [exact E|].
    destruct (initParams_pageFound br br' params E) as (Hf & Hgo).
    split; [reflexivity|].
    destruct (Hgo _ eq_refl eq_refl) as (sp' & Hsp & Hg).
    exists sp'. split; [exact Hsp|]. rewrite Hg. vm_compute. reflexivity.
  - split; [exact E2|].
    destruct (initParams_pageFound br2 br2' params2 E2) as (Hf & Hgo).
    split; [reflexivity|].
    destruct (Hgo _ eq_refl eq_refl) as (sp' & Hsp & Hg).
    exists sp'. split; [exact Hsp|]. rewrite Hg. vm_compute. reflexivity.
Defined.

Lemma initParams_options br c br' :
  initParams br = (c, br') ->
  BR.options br' = BR.options br /\ BR.book br' = BR.book br.
Proof.
  unfold initParams. destruct (resolveParams br) as [p|].
  - destruct (BR.search (BR.plugins br)) as [sp|] eqn:Esp.
    + destruct (SearchPlugin.options_enabled sp).
      * destruct (initSearch sp p br) as [[[]|e] br1] eqn:Es;
          destruct (initSearch_result sp p br _ _ Es)
            as (sp' & _ & _ & _ & _ & _ & _ & _ & _ & H7 & H8);
          intros E; injection E as <- <-; auto.
      * intros E. injection E as <- <-. auto.
    + intros E. injection E as <- <-. auto.
  - intros E. injection E as <- <-. auto.
Qed.

(** X14.  [initParams] emits no event and touches neither the mode, the
    first index, the reduction, the state of initialization, the options
    nor the book, whether it returns or throws: beyond the search plugin it
    changes only [suppressFragmentChange]. *)
Theorem initParams_frame (br br' : BR.t) (c : Completion Params.t) :
  initParams br = (c, br') ->
  BR.effects br' = BR.effects br /\ BR.mode br' = BR.mode br /\
  BR.prevReadMode br' = BR.prevReadMode br /\
  BR.firstIndex br' = BR.firstIndex br /\ BR.reduce br' = BR.reduce br /\
  BR.initComplete br' = BR.initComplete br /\
  BR.options br' = BR.options br /\ BR.book br' = BR.book br /\
  BR.resume (BR.plugins br') = BR.resume (BR.plugins br).
Proof.
  unfold initParams. destruct (resolveParams br) as [p|].
  - destruct (BR.search (BR.plugins br)) as [sp|] eqn:Esp.
    + destruct (SearchPlugin.options_enabled sp).
      * destruct (initSearch sp p br) as [[[]|e] br1] eqn:Es;
          destruct (initSearch_result sp p br _ _ Es)
            as (sp' & Hpl & _ & H1 & H2 & H3 & H4 & H5 & H6 & H7 & H8);
          intros E; injection E as <- <-;
          cbn [BR.effects BR.mode BR.prevReadMode BR.firstIndex BR.reduce
               BR.initComplete BR.plugins BR.options BR.book
               BR.setSuppressFragmentChange];
          rewrite ?Hpl; cbn [BR.resume]; auto 12.
      * intros E. injection E as <- <-. repeat split.
    + intros E. injection E as <- <-. repeat split.
  - intros E. injection E as <- <-. repeat split.
Qed.

Lemma initParams_frame_witness :
  let br := startingViewer (Some "mode/2up") (Some 7%Z) "page/n3" in
  let br' := startedViewer (Some "mode/2up") (Some 7%Z) "page/n3" false false in
  let params :=
    {| Params.index := Some 3%Z; Params.page := None; Params.mode := MNum constMode2up;
       Params.search := None; Params.theme := None; Params.init := Some true;
       Params.pageFound := Some true; Params.fragmentChange := Some true |} in
  initParams br = (Return params, br') /\
  (BR.effects br' = BR.effects br /\ BR.mode br' = BR.mode br /\
   BR.prevReadMode br' = BR.prevReadMode br /\
   BR.firstIndex br' = BR.firstIndex br /\ BR.reduce br' = BR.reduce br /\
   BR.initComplete br' = BR.initComplete br /\
   BR.options br' = BR.options br /\ BR.book br' = BR.book br /\
   BR.resume (BR.plugins br') = BR.resume (BR.plugins br)).
Proof.
  intros br br' params.
  assert (E : initParams br = (Return params, br')) by (vm_compute; reflexivity).
  split; [exact E|]. exact (initParams_frame br br' (Return params) E).
Defined.

(** ** Modes: what an accepted transition leaves behind *)

Lemma sameView_refl br : sameView br br.
Proof. repeat split. Qed.

Lemma sameView_trans a b c : sameView a b -> sameView b c -> sameView a c.
Proof.
  unfold sameView.
  intros (A1 & A2 & A3 & A4 & A5 & A6 & A7 & A8 & A9 & A10 & A11)
         (B1 & B2 & B3 & B4 & B5 & B6 & B7 & B8 & B9 & B10 & B11).
  repeat split; congruence.
Qed.

Lemma unprepareActiveMode_result md br c br2 :
  unprepareActiveMode md br = (c, br2) ->
  sameView br br2 /\ BR.reduce br2 = BR.reduce br /\
  ((c = Return tt /\ BR.effects br2 = BR.effects br /\
    Mode.looseEq (BR.mode br) md = true) \/
   (exists r, c = Return tt /\ activeMode br = Some r /\
      BR.effects br2 = (BR.effects br ++ [Unprepare r])%list /\
      Mode.looseEq (BR.mode br) md = false) \/
   (exists msg, c = Throw (TypeError msg) /\ activeMode br = None /\
      br2 = br /\ Mode.looseEq (BR.mode br) md = false)).
Proof.
  unfold unprepareActiveMode.
  destruct (Mode.looseEq (BR.mode br) md); cbn [negb].
  - intros E. injection E as <- <-. split; [apply sameView_refl|]. auto.
  - destruct (activeMode br) as [r|].
    + intros E. injection E as <- <-. split; [repeat split|].
      split; [reflexivity|]. right. left. exists r. auto.
    + intros E. injection E as <- <-. split; [apply sameView_refl|].
      split; [reflexivity|]. right. right. eexists. auto.
Qed.

Lemma quantizeScan_member r rest : forall q d,
  quantizeScan r q d rest = q \/
  exists f, In f rest /\ quantizeScan r q d rest = reduce f.
Proof.
  induction rest as [|g rest IH]; intros q d; cbn [quantizeScan]; [now left|].
  destruct (Num.lt _ d).
  - right. destruct (IH (reduce g) (Num.abs (Num.sub r (Finite (reduce g)))))
      as [E|(f & Hf & E)].
    + exists g. split; [now left|exact E].
    + exists f. split; [now right|exact E].
  - destruct (IH q d) as [E|(f & Hf & E)]; [now left|].
    right. exists f. split; [now right|exact E].
Qed.

(** Whatever the input, a number or not, the quantized value is the
    [reduce] of a member of the list. *)
Lemma quantizeReduce_member r factors q :
  quantizeReduce r factors = Return q -> exists f, In f factors /\ q = reduce f.
Proof.
  unfold quantizeReduce. destruct factors as [|f0 rest]; [discriminate|].
  intros E. injection E as <-.
  match goal with
  | |- context [quantizeScan r ?q ?d rest] =>
      destruct (quantizeScan_member r rest q d) as [E|(f & Hf & E)]
  end.
  - exists f0. split; [now left|exact E].
  - exists f. split; [now right|exact E].
Qed.

Lemma prepareMode_result md br br4 :
  prepareMode md br = (Return tt, br4) ->
  sameView br br4 /\
  BR.effects br4 = (BR.effects br ++ [Prepare (rendererFor md)])%list /\
  (if Mode.looseEqNum md constModeThumb
   then exists f, In f (BR.reductionFactors (BR.options br)) /\
                  BR.reduce br4 = Some (reduce f)
   else BR.reduce br4 = BR.reduce br).
Proof.
  unfold prepareMode, rendererFor.
  destruct (Mode.looseEqNum md constMode1up) eqn:E1.
  - assert (E3 : Mode.looseEqNum md constModeThumb = false).
    { destruct md; try reflexivity. simpl in *. apply Z.eqb_eq in E1. now subst. }
    rewrite E3. intros E. injection E as <-. repeat split.
  - destruct (Mode.looseEqNum md constModeThumb).
    + destruct (quantizeReduce _ _) as [q|] eqn:Eq; [|discriminate].
      intros E. injection E as <-.
      split; [repeat split|]. split; [reflexivity|].
      destruct (quantizeReduce_member _ _ _ Eq) as (f & Hf & ->).
      exists f. auto.
    + intros E. injection E as <-. repeat split.
Qed.

Lemma announceMode_result md opts br :
  sameView br (announceMode md opts br) /\
  BR.reduce (announceMode md opts br) = BR.reduce br /\
  BR.effects (announceMode md opts br) =
    (BR.effects br
     ++ (if BR.suppressFragmentChange br || suppressFragmentChange opts
         then [] else [Triggered "BookReader:fragmentChange"])
     ++ [Triggered (selectedEvent md)]
     ++ (if BR.textSelection (BR.plugins br) then [StopPageFlip] else []))%list.
Proof.
  unfold announceMode, selectedEvent.
  destruct (BR.suppressFragmentChange br || suppressFragmentChange opts);
    cbn [negb]; cbv zeta;
    cbn [BR.plugins trigger BR.perform BR.setEffects];
    destruct (BR.textSelection (BR.plugins br));
    (split; [repeat split|]); (split; [reflexivity|]);
    cbn; rewrite <- ?app_assoc; reflexivity.
Qed.

Lemma scaleDiffers_refl a : scaleDiffers a a = false.
Proof.
  destruct a as [q|]; [|reflexivity]. simpl.
  rewrite (proj2 (Qeq_bool_iff q q) (Qeq_refl q)). reflexivity.
Qed.

Lemma switchAccepted_guards target br :
  switchAccepted target br = true ->
  Mode.truthy (resolveMode target) = true /\
  BR.initComplete br && Mode.strictEq (resolveMode target) (BR.mode br) = false /\
  BR.initComplete br && negb (canSwitchToMode (resolveMode target) br) = false.
Proof.
  unfold switchAccepted. cbv zeta.
  destruct (Mode.truthy (resolveMode target)); [|discriminate].
  destruct (BR.initComplete br); [|auto].
  destruct (Mode.strictEq _ _); [discriminate|].
  destruct (canSwitchToMode _ _); [auto|discriminate].
Qed.

(** The viewer after the first two statements of an accepted
    [switchMode]: 'stop' is triggered and the previous reading mode is
    recorded. *)
Lemma switchMode_unfold target opts br :
  switchAccepted target br = true ->
  switchMode target opts br =
    let md := resolveMode target in
    let br1 := BR.setPrevReadMode (getPrevReadMode (BR.mode br) br)
                 (trigger (eventNames "stop") br) in
    bindM (unprepareActiveMode md) (fun _ br =>
      let br := BR.setMode md br in
      let br :=
        if scaleDiffers (BR.pageScale br) (BR.reduce br)
        then BR.setReduce (BR.pageScale br) br else br in
      bindM (prepareMode md) (fun _ br =>
        (Return tt, announceMode md opts br)) br) br1.
Proof.
  intros H. destruct (switchAccepted_guards _ _ H) as (Ht & Hs & Hc).
  unfold switchMode. rewrite Ht. cbn [negb]. rewrite Hs, Hc. reflexivity.
Qed.

(** An accepted [switchMode] that returns: the state it leaves and the
    calls it made. *)
Lemma switchMode_accepted_result target opts br br' :
  switchAccepted target br = true ->
  switchMode target opts br = (Return tt, br') ->
  let md := resolveMode target in
  BR.mode br' = md /\
  BR.prevReadMode br' = getPrevReadMode (BR.mode br) br /\
  BR.initComplete br' = BR.initComplete br /\
  BR.pageScale br' = BR.pageScale br /\
  BR.firstIndex br' = BR.firstIndex br /\
  BR.suppressFragmentChange br' = BR.suppressFragmentChange br /\
  BR.options br' = BR.options br /\ BR.book br' = BR.book br /\
  BR.plugins br' = BR.plugins br /\
  (if Mode.looseEqNum md constModeThumb
   then exists f, In f (BR.reductionFactors (BR.options br)) /\
                  BR.reduce br' = Some (reduce f)
   else scaleDiffers (BR.pageScale br') (BR.reduce br') = false) /\
  exists leaving,
    (leaving = [] /\ Mode.looseEq (BR.mode br) md = true \/
     exists r, leaving = [Unprepare r] /\ activeMode br = Some r /\
               Mode.looseEq (BR.mode br) md = false) /\
    BR.effects br' =
      (BR.effects br ++ [Triggered "BookReader:stop"] ++ leaving
       ++ [Prepare (rendererFor md)]
       ++ (if BR.suppressFragmentChange br || suppressFragmentChange opts
           then [] else [Triggered "BookReader:fragmentChange"])
       ++ [Triggered (selectedEvent md)]
       ++ (if BR.textSelection (BR.plugins br) then [StopPageFlip] else []))%list.
Proof.
  intros Hacc. rewrite (switchMode_unfold target opts br Hacc). cbv zeta.
  set (md := resolveMode target).
  set (br1 := BR.setPrevReadMode _ (trigger _ br)).
  unfold bindM at 1.
  destruct (unprepareActiveMode md br1) as [[[]|e] br2] eqn:E2; [|discriminate].
  apply unprepareActiveMode_result in E2.
  destruct E2 as (S2 & R2 & Hleave).
  set (br3 := if scaleDiffers _ _ then _ else BR.setMode md br2).
  unfold bindM.
  destruct (prepareMode md br3) as [[[]|e] br4] eqn:E4; [|discriminate].
  apply prepareMode_result in E4. destruct E4 as (S4 & F4 & R4).
  intros E. injection E as <-.
  destruct (announceMode_result md opts br4) as (S5 & R5 & F5).
  assert (S3 : BR.options br2 = BR.options br3 /\ BR.book br2 = BR.book br3 /\
               BR.plugins br2 = BR.plugins br3 /\ BR.mode br3 = md /\
               BR.prevReadMode br2 = BR.prevReadMode br3 /\
               BR.firstIndex br2 = BR.firstIndex br3 /\
               BR.pageScale br2 = BR.pageScale br3 /\
               BR.suppressFragmentChange br2 = BR.suppressFragmentChange br3 /\
               BR.initComplete br2 = BR.initComplete br3 /\
               BR.effects br3 = BR.effects br2 /\
               scaleDiffers (BR.pageScale br3) (BR.reduce br3) = false).
  { unfold br3. destruct (scaleDiffers _ _) eqn:Ed; cbn; repeat split; auto.
    apply scaleDiffers_refl. }
  destruct S3 as (T1 & T2 & T3 & T4 & T5 & T6 & T7 & T8 & T9 & T10 & T11).
  destruct S2 as (A1 & _ & A3 & A4 & A5 & A6 & A7 & A8 & _ & A10 & A11).
  destruct S4 as (B1 & _ & B3 & B4 & B5 & B6 & B7 & B8 & _ & B10 & B11).
  destruct S5 as (C1 & _ & C3 & C4 & C5 & C6 & C7 & C8 & _ & C10 & C11).
  assert (P1 : BR.options br1 = BR.options br /\ BR.book br1 = BR.book br /\
               BR.plugins br1 = BR.plugins br /\ BR.mode br1 = BR.mode br /\
               BR.prevReadMode br1 = getPrevReadMode (BR.mode br) br /\
               BR.firstIndex br1 = BR.firstIndex br /\
               BR.pageScale br1 = BR.pageScale br /\
               BR.suppressFragmentChange br1 = BR.suppressFragmentChange br /\
               BR.initComplete br1 = BR.initComplete br /\
               activeMode br1 = activeMode br /\
               BR.effects br1 = (BR.effects br ++ [Triggered "BookReader:stop"])%list)
    by (repeat split).
  destruct P1 as (P1 & P2 & P3 & P4 & P5 & P6 & P7 & P8 & P9 & P10 & P11).
  split; [congruence|]. split; [congruence|]. split; [congruence|].
  split; [congruence|]. split; [congruence|]. split; [congruence|].
  split; [congruence|]. split; [congruence|]. split; [congruence|].
  split.
  - destruct (Mode.looseEqNum md constModeThumb).
    + destruct R4 as (f & Hf & Hr). exists f. split; [congruence|]. congruence.
    + rewrite <- C8, <- B8, R5, R4. exact T11.
  - rewrite P4, P10 in Hleave.
    destruct Hleave as [(_ & He & Hl)|[(r & _ & Hr & He & Hl)|(msg & Hc & _)]];
      [| |discriminate Hc].
    + exists []. split; [left; auto|].
      rewrite F5, F4, T10, He, P11.
      rewrite <- B10, <- T8, <- A10, P8, <- B4, <- T3, <- A4, P3.
      rewrite <- !app_assoc. reflexivity.
    + exists [Unprepare r]. split; [right; exists r; auto|].
      rewrite F5, F4, T10, He, P11.
      rewrite <- B10, <- T8, <- A10, P8, <- B4, <- T3, <- A4, P3.
      rewrite <- !app_assoc. reflexivity.
Qed.

Lemma strictEq_refl a : Mode.strictEq a a = true.
Proof. now apply strictEq_eq. Qed.

(** X15.  Once initialization is complete, [switchMode] is idempotent: when
    a call returns, a second call with the same mode, whatever its options,
    returns with the viewer unchanged and so emits nothing. *)
Theorem switchMode_idempotent (br br' : BR.t) (target : ModeArg)
    (opts opts' : SwitchModeOptions) :
  BR.initComplete br = true ->
  switchMode target opts br = (Return tt, br') ->
  switchMode target opts' br' = (Return tt, br').
Proof.
  intros Hinit H.
  destruct (switchAccepted target br) eqn:Hacc.
  - destruct (switchMode_accepted_result target opts br br' Hacc H)
      as (Hm & _ & Hi & _).
    unfold switchMode.
    destruct (switchAccepted_guards _ _ Hacc) as (-> & _). cbn [negb].
    rewrite Hi, Hinit, Hm, strictEq_refl. reflexivity.
  - unfold switchAccepted in Hacc. cbv zeta in Hacc. rewrite Hinit in Hacc.
    unfold switchMode in *. rewrite Hinit in *. cbn [andb] in *.
    destruct (Mode.truthy (resolveMode target)); cbn [negb andb] in *;
      [|discriminate H].
    destruct (Mode.strictEq (resolveMode target) (BR.mode br)) eqn:Es.
    + injection H as <-. rewrite Hinit, Es. reflexivity.
    + cbn [orb] in Hacc. apply negb_false_iff in Hacc. rewrite Hacc in H.
      injection H as <-. rewrite Hinit, Es, Hacc. reflexivity.
Qed.

Lemma switchMode_idempotent_witness :
  let br := sampleViewer sampleBook 0 in
  let br' := snd (switchMode (ArgString "thumb") noOptions br) in
  BR.initComplete br = true /\
  switchMode (ArgString "thumb") noOptions br = (Return tt, br') /\
  BR.mode br' = MNum constModeThumb /\
  switchMode (ArgValue (MNum constModeThumb)) noOptions br' = (Return tt, br').
Proof.
  intros br br'.
  assert (E : switchMode (ArgString "thumb") noOptions br = (Return tt, br'))
    by (vm_compute; reflexivity).
  split; [reflexivity|]. split; [exact E|]. split; [vm_compute; reflexivity|].
  exact (switchMode_idempotent br br' (ArgString "thumb") noOptions noOptions
           eq_refl E).
Defined.

(** X16.  An accepted transition from one-page or two-page mode into
    thumbnail mode records in [prevReadMode] the mode that is left; the
    next accepted transition, out of thumbnail mode, leaves [prevReadMode]
    undefined: the recorded reading mode is lost. *)
Theorem prevReadMode_through_thumbnail (br br1 br2 : BR.t)
    (toThumb target : ModeArg) (opts1 opts2 : SwitchModeOptions) :
  BR.mode br = MNum constMode1up \/ BR.mode br = MNum constMode2up ->
  resolveMode toThumb = MNum constModeThumb ->
  switchAccepted toThumb br = true ->
  switchMode toThumb opts1 br = (Return tt, br1) ->
  switchAccepted target br1 = true ->
  switchMode target opts2 br1 = (Return tt, br2) ->
  BR.prevReadMode br1 = BR.mode br /\ BR.prevReadMode br2 = MUndefined.
Proof.
  intros Hmode Hthumb Hacc1 H1 Hacc2 H2.
  destruct (switchMode_accepted_result toThumb opts1 br br1 Hacc1 H1)
    as (Hm1 & Hp1 & _).
  destruct (switchMode_accepted_result target opts2 br1 br2 Hacc2 H2)
    as (_ & Hp2 & _).
  assert (E1 : BR.prevReadMode br1 = BR.mode br).
  { rewrite Hp1. unfold getPrevReadMode. destruct Hmode as [-> | ->]; reflexivity. }
  split; [exact E1|].
  rewrite Hp2, Hm1, Hthumb. unfold getPrevReadMode. rewrite E1.
  destruct Hmode as [-> | ->]; reflexivity.
Qed.

Lemma prevReadMode_through_thumbnail_witness :
  let br := sampleViewer sampleBook 0 in
  let br1 := snd (switchMode (ArgString "thumb") noOptions br) in
  let br2 := snd (switchMode (ArgString "2up") noOptions br1) in
  (BR.mode br = MNum constMode1up \/ BR.mode br = MNum constMode2up) /\
  resolveMode (ArgString "thumb") = MNum constModeThumb /\
  switchAccepted (ArgString "thumb") br = true /\
  switchMode (ArgString "thumb") noOptions br = (Return tt, br1) /\
  switchAccepted (ArgString "2up") br1 = true /\
  switchMode (ArgString "2up") noOptions br1 = (Return tt, br2) /\
  BR.prevReadMode br1 = BR.mode br /\ BR.prevReadMode br2 = MUndefined.
Proof.
  intros br br1 br2.
  assert (Hm : BR.mode br = MNum constMode1up \/ BR.mode br = MNum constMode2up)
    by (left; reflexivity).
  assert (A1 : switchAccepted (ArgString "thumb") br = true)
    by (vm_compute; reflexivity).
  assert (E1 : switchMode (ArgString "thumb") noOptions br = (Return tt, br1))
    by (vm_compute; reflexivity).
  assert (A2 : switchAccepted (ArgString "2up") br1 = true)
    by (vm_compute; reflexivity).
  assert (E2 : switchMode (ArgString "2up") noOptions br1 = (Return tt, br2))
    by (vm_compute; reflexivity).
  split; [exact Hm|]. split; [reflexivity|]. split; [exact A1|].
  split; [exact E1|]. split; [exact A2|]. split; [exact E2|].
  exact (prevReadMode_through_thumbnail br br1 br2 (ArgString "thumb")
           (ArgString "2up") noOptions noOptions Hm eq_refl A1 E1 A2 E2).
Defined.

(** X17.  An accepted [switchMode] that returns keeps [pageScale].  Into
    thumbnail mode it leaves [reduce] the [reduce] of a member of the
    reduction factors; into any other mode it leaves [reduce] equal to
    [pageScale]. *)
Theorem switchMode_reduce (br br' : BR.t) (target : ModeArg)
    (opts : SwitchModeOptions) :
  switchAccepted target br = true ->
  switchMode target opts br = (Return tt, br') ->
  BR.pageScale br' = BR.pageScale br /\
  (resolveMode target = MNum constModeThumb ->
   exists f, In f (BR.reductionFactors (BR.options br)) /\
             BR.reduce br' = Some (reduce f)) /\
  (resolveMode target <> MNum constModeThumb ->
   scaleDiffers (BR.pageScale br') (BR.reduce br') = false).
Proof.
  intros Hacc H.
  destruct (switchMode_accepted_result target opts br br' Hacc H)
    as (_ & _ & _ & Hps & _ & _ & _ & _ & _ & Hr & _).
  split; [exact Hps|]. split.
  - intros Ht. rewrite Ht in Hr. exact Hr.
  - intros Hne.
    destruct (Mode.looseEqNum (resolveMode target) constModeThumb) eqn:E;
      [|exact Hr].
    exfalso. apply Hne. destruct (resolveMode target); try discriminate E.
    simpl in E. apply Z.eqb_eq in E. now subst.
Qed.

(** From one-page mode at scale 2/1, thumbnail mode quantizes [reduce] to
    the factor 2, and two-page mode reinstates the scale. *)
Lemma switchMode_reduce_witness :
  let br := BR.setReduce (Some 3) (sampleViewer sampleBook 0) in
  let br1 := snd (switchMode (ArgString "thumb") noOptions br) in
  switchAccepted (ArgString "thumb") br = true /\
  switchMode (ArgString "thumb") noOptions br = (Return tt, br1) /\
  (BR.pageScale br1 = BR.pageScale br /\
   (resolveMode (ArgString "thumb") = MNum constModeThumb ->
    exists f, In f (BR.reductionFactors (BR.options br)) /\
              BR.reduce br1 = Some (reduce f)) /\
   (resolveMode (ArgString "thumb") <> MNum constModeThumb ->
    scaleDiffers (BR.pageScale br1) (BR.reduce br1) = false)) /\
  BR.reduce br1 = Some 2.
Proof.
  intros br br1.
  assert (A1 : switchAccepted (ArgString "thumb") br = true)
    by (vm_compute; reflexivity).
  assert (E1 : switchMode (ArgString "thumb") noOptions br = (Return tt, br1))
    by (vm_compute; reflexivity).
  split; [exact A1|]. split; [exact E1|]. split; [|vm_compute; reflexivity].
  exact (switchMode_reduce br br1 (ArgString "thumb") noOptions A1 E1).
Defined.

(** X18.  A viewer with no active renderer, as it is before [init] while
    its mode is null, cannot change mode: once the guards let the call
    through, [switchMode] throws a TypeError, and not without trace: 'stop'
    has been triggered and [prevReadMode] overwritten, while the mode is
    unchanged. *)
Theorem switchMode_without_renderer (br : BR.t) (target : ModeArg)
    (opts : SwitchModeOptions) :
  switchAccepted target br = true ->
  activeMode br = None ->
  Mode.looseEq (BR.mode br) (resolveMode target) = false ->
  exists msg br',
    switchMode target opts br = (Throw (TypeError msg), br') /\
    BR.mode br' = BR.mode br /\
    BR.prevReadMode br' = getPrevReadMode (BR.mode br) br /\
    BR.effects br' = (BR.effects br ++ [Triggered "BookReader:stop"])%list.
Proof.
  intros Hacc Hactive Hloose.
  rewrite (switchMode_unfold target opts br Hacc). cbv zeta.
  unfold bindM at 1, unprepareActiveMode.
  cbn [BR.mode BR.setPrevReadMode trigger BR.perform BR.setEffects].
  rewrite Hloose. cbn [negb].
  change (activeMode (BR.setPrevReadMode _ _)) with (activeMode br).
  rewrite Hactive. eexists. eexists. split; [reflexivity|]. repeat split.
Qed.

Lemma switchMode_without_renderer_witness :
  let br := startingViewer None None "" in
  switchAccepted (ArgValue (MNum constMode1up)) br = true /\
  activeMode br = None /\
  Mode.looseEq (BR.mode br) (resolveMode (ArgValue (MNum constMode1up))) = false /\
  exists msg br',
    switchMode (ArgValue (MNum constMode1up)) noOptions br
      = (Throw (TypeError msg), br') /\
    BR.mode br' = BR.mode br /\
    BR.prevReadMode br' = getPrevReadMode (BR.mode br) br /\
    BR.effects br' = (BR.effects br ++ [Triggered "BookReader:stop"])%list.
Proof.
  intros br. split; [reflexivity|]. split; [reflexivity|]. split; [reflexivity|].
  exact (switchMode_without_renderer br (ArgValue (MNum constMode1up)) noOptions
           eq_refl eq_refl eq_refl).
Defined.

(** ** Suppressed fragment changes *)

Lemma string_length_append (a b : string) :
  String.length (a ++ b) = (String.length a + String.length b)%nat.
Proof. induction a as [|c a IH]; simpl; [reflexivity|now rewrite IH]. Qed.

Lemma selectedEvent_not_fragmentChange md :
  String.eqb (selectedEvent md) "BookReader:fragmentChange" = false.
Proof.
  unfold selectedEvent, eventNames.
  destruct (existsb _ _); [|reflexivity].
  change (String.eqb (Mode.toString md ++ "PageViewSelected") "fragmentChange" = false).
  destruct (String.eqb _ _) eqn:E; [|reflexivity].
  apply String.eqb_eq in E. apply (f_equal String.length) in E.
  rewrite string_length_append in E. simpl in E. lia.
Qed.

Lemma timesTriggered_app name l1 l2 :
  timesTriggered name (l1 ++ l2) =
  (timesTriggered name l1 + timesTriggered name l2)%nat.
Proof. unfold timesTriggered. now rewrite filter_app, length_app. Qed.

Lemma prepareMode_throws md br e br4 :
  prepareMode md br = (Throw e, br4) -> br4 = br.
Proof.
  unfold prepareMode.
  destruct (Mode.looseEqNum md constMode1up); [discriminate|].
  destruct (Mode.looseEqNum md constModeThumb); [|discriminate].
  destruct (quantizeReduce _ _); [discriminate|].
  intros E. now injection E as _ <-.
Qed.

Lemma reinstate_effects md b :
  BR.effects (if scaleDiffers (BR.pageScale (BR.setMode md b))
                   (BR.reduce (BR.setMode md b))
              then BR.setReduce (BR.pageScale (BR.setMode md b)) (BR.setMode md b)
              else BR.setMode md b) = BR.effects b.
Proof. now destruct (scaleDiffers _ _). Qed.

(** While the global flag is set, no call of [switchMode] triggers
    'fragmentChange', however it completes. *)
Lemma switchMode_quiet target opts br c br2 :
  BR.suppressFragmentChange br = true ->
  switchMode target opts br = (c, br2) ->
  exists l, BR.effects br2 = (BR.effects br ++ l)%list /\
            timesTriggered "fragmentChange" l = 0%nat.
Proof.
  intros Hflag H.
  destruct (switchAccepted target br) eqn:Hacc.
  - destruct c as [[]|e].
    + destruct (switchMode_accepted_result target opts br br2 Hacc H)
        as (_ & _ & _ & _ & _ & _ & _ & _ & _ & _ & leaving & Hl & He).
      rewrite Hflag in He. cbn [orb] in He.
      eexists. split; [exact He|].
      rewrite !timesTriggered_app.
      assert (Hleave : timesTriggered "fragmentChange" leaving = 0%nat)
        by (destruct Hl as [(-> & _)|(r & -> & _)]; reflexivity).
      rewrite Hleave.
      assert (Hsel : timesTriggered "fragmentChange"
                       [Triggered (selectedEvent (resolveMode target))] = 0%nat).
      { unfold timesTriggered. cbn [filter].
        change ("BookReader:" ++ "fragmentChange") with "BookReader:fragmentChange".
        now rewrite selectedEvent_not_fragmentChange. }
      rewrite Hsel. now destruct (BR.textSelection (BR.plugins br)).
    + rewrite (switchMode_unfold target opts br Hacc) in H. cbv zeta in H.
      set (br1 := BR.setPrevReadMode _ (trigger _ br)) in H.
      unfold bindM at 1 in H.
      destruct (unprepareActiveMode (resolveMode target) br1) as [[[]|e2] b2] eqn:E2.
      * apply unprepareActiveMode_result in E2. destruct E2 as (_ & _ & Hleave).
        unfold bindM in H.
        match type of H with
        | context [prepareMode ?m ?b] =>
            destruct (prepareMode m b) as [[[]|e4] b4] eqn:E4; [discriminate H|];
            apply prepareMode_throws in E4
        end.
        injection H as _ <-. rewrite E4, reinstate_effects.
        destruct Hleave as [(_ & He & _)|[(r & _ & _ & He & _)|(msg & Hc & _)]];
          [| |discriminate Hc]; rewrite He; unfold br1;
          cbn [BR.effects BR.setPrevReadMode trigger BR.perform BR.setEffects eventNames
               existsb String.eqb Ascii.eqb Bool.eqb orb];
          rewrite <- ?app_assoc; eexists; (split; [reflexivity|reflexivity]).
      * injection H as _ <-. apply unprepareActiveMode_result in E2.
        destruct E2 as (_ & _ & [(Hc & _)|[(r & Hc & _)|(msg & _ & _ & -> & _)]]);
          try discriminate Hc.
        exists [Triggered "BookReader:stop"]. split; reflexivity.
  - exists []. rewrite app_nil_r. split; [|reflexivity].
    unfold switchAccepted in Hacc. cbv zeta in Hacc. unfold switchMode in H.
    destruct (Mode.truthy (resolveMode target)); cbn [negb andb] in *.
    + apply negb_false_iff in Hacc.
      destruct (BR.initComplete br); [|discriminate Hacc]. cbn [andb] in *.
      destruct (Mode.strictEq (resolveMode target) (BR.mode br)).
      * now injection H as _ <-.
      * cbn [orb] in Hacc. rewrite Hacc in H. now injection H as _ <-.
    + now injection H as _ <-.
Qed.

Lemma initParams_flag br params br1 :
  initParams br = (Return params, br1) ->
  BR.suppressFragmentChange br1 = negb (optionTruthy (Params.fragmentChange params)).
Proof.
  unfold initParams.
  destruct (resolveParams br) as [p|]; [|discriminate].
  set (searched := match BR.search (BR.plugins br) with Some _ => _ | None => _ end).
  destruct searched as [[[]|e] b1]; [|discriminate].
  intros E. now injection E as <- <-.
Qed.

(** X19.  When [initParams] resolves params that do not ask for a fragment
    change (the URL holds nothing and there is nothing to resume), the
    viewer it leaves triggers 'fragmentChange' neither in the next
    [switchMode], whatever the mode and the options and however the call
    completes, nor in the next [updateFirstIndex]. *)
Theorem canonical_init_is_quiet (br br1 : BR.t) (params : Params.t) :
  initParams br = (Return params, br1) ->
  Params.fragmentChange params = Some false ->
  (forall target opts c br2,
     switchMode target opts br1 = (c, br2) ->
     timesTriggered "fragmentChange" (effectsSince br1 br2) = 0%nat) /\
  (forall index suppress,
     timesTriggered "fragmentChange"
       (effectsSince br1 (updateFirstIndex index suppress br1)) = 0%nat).
Proof.
  intros H Hfc. apply initParams_flag in H. rewrite Hfc in H. cbn in H. split.
  - intros target opts c br2 Hs.
    destruct (switchMode_quiet target opts br1 c br2 H Hs) as (l & He & Hl).
    unfold effectsSince. now rewrite He, skipn_app_length.
  - intros index suppress. unfold effectsSince.
    destruct (firstIndexIs index br1) eqn:E.
    + apply firstIndexIs_eq in E. rewrite (updateFirstIndex_same _ _ _ E).
      rewrite <- (app_nil_r (BR.effects br1)) at 2.
      now rewrite skipn_app_length.
    + assert (Hne : BR.firstIndex br1 <> Some index)
        by (intros Hf; apply firstIndexIs_eq in Hf; congruence).
      destruct (updateFirstIndex_change index suppress br1 Hne) as (_ & He).
      rewrite He, skipn_app_length, H. reflexivity.
Qed.

(** A viewer with an empty URL and nothing to resume: the switch to the
    initial mode and the first change of index leave the URL alone. *)
Lemma canonical_init_is_quiet_witness :
  let br := startingViewer (Some "mode/2up") None "" in
  let br1 := startedViewer (Some "mode/2up") None "" true true in
  let params :=
    {| Params.index := Some 1%Z; Params.page := None; Params.mode := MNum constMode2up;
       Params.search := None; Params.theme := None; Params.init := Some true;
       Params.pageFound := Some false; Params.fragmentChange := Some false |} in
  initParams br = (Return params, br1) /\
  Params.fragmentChange params = Some false /\
  (forall target opts c br2,
     switchMode target opts br1 = (c, br2) ->
     timesTriggered "fragmentChange" (effectsSince br1 br2) = 0%nat) /\
  (forall index suppress,
     timesTriggered "fragmentChange"
       (effectsSince br1 (updateFirstIndex index suppress br1)) = 0%nat).
Proof.
  intros br br1 params.
  assert (E : initParams br = (Return params, br1)) by (vm_compute; reflexivity).
  split; [exact E|]. split; [reflexivity|].
  exact (canonical_init_is_quiet br br1 params E eq_refl).
Defined.

Lemma updateFirstIndex_flag x s br :
  BR.firstIndex br <> Some x ->
  BR.suppressFragmentChange (updateFirstIndex x s br) =
    (if hasInitialSearchTerm br && negb s then false
     else BR.suppressFragmentChange br) /\
  BR.plugins (updateFirstIndex x s br) = BR.plugins br.
Proof.
  intros H. unfold updateFirstIndex.
  destruct (firstIndexIs x br) eqn:E; [apply firstIndexIs_eq in E; contradiction|].
  cbv zeta. cbn [BR.suppressFragmentChange BR.setFirstIndex].
  destruct (BR.suppressFragmentChange br || s); cbn [negb];
    match goal with
    | |- context [if hasInitialSearchTerm ?b && negb s then _ else _] =>
        change (hasInitialSearchTerm b) with (hasInitialSearchTerm br);
        destruct (hasInitialSearchTerm br && negb s)
    end; split; reflexivity.
Qed.

(** X20.  With an initial search term, the first change of the index that
    is not suppressed by its own option lifts the global suppression: the
    change itself is announced by 'fragmentChange' only if the flag was
    clear, and the change that follows is announced whatever the flag
    was. *)
Theorem updateFirstIndex_lifts_suppression (br : BR.t) (x y : Z) :
  hasInitialSearchTerm br = true ->
  BR.firstIndex br <> Some x -> x <> y ->
  let once := updateFirstIndex x false br in
  let twice := updateFirstIndex y false once in
  BR.suppressFragmentChange once = false /\
  effectsSince br twice =
    (updateEffects x (BR.suppressFragmentChange br) ++ updateEffects y false)%list.
Proof.
  intros Hterm Hx Hxy once twice.
  destruct (updateFirstIndex_flag x false br Hx) as (Hflag & Hplug).
  rewrite Hterm in Hflag. cbn in Hflag. fold once in Hflag.
  destruct (updateFirstIndex_change x false br Hx) as (Hfirst & Heff).
  fold once in Hfirst, Heff.
  assert (Hy : BR.firstIndex once <> Some y) by (rewrite Hfirst; congruence).
  destruct (updateFirstIndex_change y false once Hy) as (_ & Heff2).
  fold twice in Heff2.
  split; [exact Hflag|].
  unfold effectsSince. rewrite Heff2, Heff, Hflag, <- app_assoc, skipn_app_length.
  now rewrite orb_false_r.
Qed.

(** A viewer in the middle of [init] that holds a search term: the jump to
    page 5 is silent, the following one to page 6 is announced. *)
Lemma updateFirstIndex_lifts_suppression_witness :
  let sp :=
    {| SearchPlugin.options_enabled := true;
       SearchPlugin.options_goToFirstResult := Some true;
       SearchPlugin.options_initialSearchTerm := Some "whale";
       SearchPlugin.initialSearchTerm := None;
       SearchPlugin.searchTerm := None |} in
  let br := BR.setSearch sp (initializingViewer sampleBook) in
  hasInitialSearchTerm br = true /\
  BR.firstIndex br <> Some 5%Z /\ 5%Z <> 6%Z /\
  BR.suppressFragmentChange (updateFirstIndex 5 false br) = false /\
  effectsSince br (updateFirstIndex 6 false (updateFirstIndex 5 false br)) =
    [Triggered "BookReader:pageChanged"; Triggered "BookReader:userAction";
     UpdateNavIndexThrottled 5;
     Triggered "BookReader:fragmentChange"; Triggered "BookReader:pageChanged";
     Triggered "BookReader:userAction"; UpdateNavIndexThrottled 6].
Proof.
  intros sp br.
  assert (Hx : BR.firstIndex br <> Some 5%Z) by discriminate.
  assert (Hxy : 5%Z <> 6%Z) by discriminate.
  split; [reflexivity|]. split; [exact Hx|]. split; [exact Hxy|].
  exact (updateFirstIndex_lifts_suppression br 5 6 eq_refl Hx Hxy).
Defined.

(** ** The initial mode *)

Lemma modeStringToNumber_throws d :
  ~ In d (map fst modeStrings) -> ~ In d Mode.objectPrototypeKeys ->
  exists e, _modeStringToNumber d = Throw e.
Proof.
  intros Hm Hk. unfold _modeStringToNumber.
  destruct (String.eqb d "mode/1up") eqn:E1;
    [apply String.eqb_eq in E1; exfalso; apply Hm; simpl; auto|].
  destruct (String.eqb d "mode/2up") eqn:E2;
    [apply String.eqb_eq in E2; exfalso; apply Hm; simpl; auto|].
  destruct (String.eqb d "mode/thumb") eqn:E3;
    [apply String.eqb_eq in E3; exfalso; apply Hm; simpl; auto|].
  destruct (existsb (String.eqb d) Mode.objectPrototypeKeys) eqn:E4.
  - exfalso. apply Hk. apply existsb_exists in E4. destruct E4 as (k & Hin & Hk').
    apply String.eqb_eq in Hk'. now subst.
  - eexists. reflexivity.
Qed.

Lemma modeStringToNumber_constant d m :
  ~ In d Mode.objectPrototypeKeys ->
  _modeStringToNumber d = Return m -> isModeConstant m.
Proof.
  intros Hk. unfold _modeStringToNumber, isModeConstant.
  destruct (String.eqb d "mode/1up"); [intros E; injection E as <-; auto|].
  destruct (String.eqb d "mode/2up"); [intros E; injection E as <-; auto|].
  destruct (String.eqb d "mode/thumb"); [intros E; injection E as <-; auto|].
  destruct (existsb (String.eqb d) Mode.objectPrototypeKeys) eqn:E4; [|discriminate].
  exfalso. apply Hk. apply existsb_exists in E4. destruct E4 as (k & Hin & Hk').
  apply String.eqb_eq in Hk'. now subst.
Qed.

(** X21.  For params whose mode is undefined or a mode constant, as those
    [initParams] returns, and [options.defaults] that names no member of
    [Object.prototype], [getInitialMode] returns one of the three mode
    constants.  Unless [options.defaults] is one of 'mode/1up', 'mode/2up'
    and 'mode/thumb', it is a mode [canSwitchToMode] accepts: one-page
    mode on a book of fewer than two pages. *)
Theorem getInitialMode_constant (windowWidth onePageMinBreakpoint : Z)
    (params : Params.t) (br : BR.t) :
  Params.mode params = MUndefined \/ isModeConstant (Params.mode params) ->
  (forall d, BR.defaults (BR.options br) = Some d ->
             ~ In d Mode.objectPrototypeKeys) ->
  let initialMode := getInitialMode windowWidth onePageMinBreakpoint params br in
  isModeConstant initialMode /\
  ((forall d, BR.defaults (BR.options br) = Some d -> ~ In d (map fst modeStrings)) ->
   canSwitchToMode initialMode br = true /\
   ((getNumLeafs (BR.book br) < 2)%Z -> initialMode = MNum constMode1up)).
Proof.
  intros Hmode Hkeys. cbv zeta.
  set (isMobile := negb (windowWidth =? 0)%Z && (windowWidth <=? onePageMinBreakpoint)%Z).
  set (m0 := if Mode.truthy (Params.mode params) then Params.mode params
             else if isMobile then MNum constMode1up else MNum constMode2up).
  set (m1 := if negb (canSwitchToMode m0 br) then MNum constMode1up else m0).
  assert (H0 : isModeConstant m0).
  { unfold m0, isModeConstant.
    destruct Hmode as [->|[->|[->| ->]]]; cbn; auto; destruct isMobile; auto. }
  assert (H1 : isModeConstant m1 /\ canSwitchToMode m1 br = true /\
               ((getNumLeafs (BR.book br) < 2)%Z -> m1 = MNum constMode1up)).
  { unfold m1. destruct (canSwitchToMode m0 br) eqn:Ec; cbn [negb].
    - split; [exact H0|]. split; [exact Ec|]. intros Hn.
      unfold canSwitchToMode in Ec.
      destruct (Z.ltb_spec (getNumLeafs (BR.book br)) 2) as [_|Hge]; [|lia].
      destruct H0 as [->|[->| ->]]; [reflexivity|discriminate Ec|discriminate Ec].
    - split; [left; reflexivity|]. split; [reflexivity|]. reflexivity. }
  destruct H1 as (H1 & Hcan & Hone).
  assert (E : getInitialMode windowWidth onePageMinBreakpoint params br =
              match BR.defaults (BR.options br) with
              | Some (String _ _ as defaults) =>
                  match _modeStringToNumber defaults with
                  | Return m => m
                  | Throw _ => m1
                  end
              | _ => m1
              end) by reflexivity.
  rewrite E. clear E.
  destruct (BR.defaults (BR.options br)) as [[|c d]|] eqn:Ed; [auto| |auto].
  split.
  - destruct (_modeStringToNumber (String c d)) as [m|] eqn:Em; [|exact H1].
    apply (modeStringToNumber_constant (String c d)); [now apply Hkeys|exact Em].
  - intros Hstr.
    destruct (modeStringToNumber_throws (String c d)) as (e & ->);
      [now apply Hstr|now apply Hkeys|]. auto.
Qed.

Lemma getInitialMode_constant_witness :
  let br := onePageViewer (Some "page/n0") in
  let params := Params.setMode (MNum constModeThumb) Params.empty in
  (Params.mode params = MUndefined \/ isModeConstant (Params.mode params)) /\
  (forall d, BR.defaults (BR.options br) = Some d ->
             ~ In d Mode.objectPrototypeKeys) /\
  (forall d, BR.defaults (BR.options br) = Some d -> ~ In d (map fst modeStrings)) /\
  isModeConstant (getInitialMode 1280 800 params br) /\
  canSwitchToMode (getInitialMode 1280 800 params br) br = true /\
  getInitialMode 1280 800 params br = MNum constMode1up.
Proof.
  intros br params.
  assert (Hm : Params.mode params = MUndefined \/ isModeConstant (Params.mode params))
    by (right; right; right; reflexivity).
  assert (Hk : forall d, BR.defaults (BR.options br) = Some d ->
                         ~ In d Mode.objectPrototypeKeys).
  { intros d E. injection E as <-. simpl. intuition discriminate. }
  assert (Hs : forall d, BR.defaults (BR.options br) = Some d ->
                         ~ In d (map fst modeStrings)).
  { intros d E. injection E as <-. simpl. intuition discriminate. }
  split; [exact Hm|]. split; [exact Hk|]. split; [exact Hs|].
  destruct (getInitialMode_constant 1280 800 params br Hm Hk) as (Hc & Hrest).
  destruct (Hrest Hs) as (Hcan & Hone).
  split; [exact Hc|]. split; [exact Hcan|]. apply Hone. vm_compute. reflexivity.
Defined.

(** X22.  When [options.defaults] is exactly one of 'mode/1up', 'mode/2up'
    and 'mode/thumb', [getInitialMode] returns that mode whatever the
    params hold, whatever the width of the window, and whether or not
    [canSwitchToMode] accepts it.  So it does at start-up, on the params
    [initParams] returns: a mode those have taken from the URL is not the
    initial mode. *)
Theorem getInitialMode_defaults_override (windowWidth onePageMinBreakpoint : Z)
    (br : BR.t) (s : string) (m : Z) :
  In (s, m) modeStrings ->
  BR.defaults (BR.options br) = Some s ->
  (forall params,
     getInitialMode windowWidth onePageMinBreakpoint params br = MNum m) /\
  (forall params br',
     initParams br = (Return params, br') ->
     getInitialMode windowWidth onePageMinBreakpoint params br' = MNum m).
Proof.
  intros Hin Hd.
  assert (H : forall params b, BR.options b = BR.options br ->
                getInitialMode windowWidth onePageMinBreakpoint params b = MNum m).
  { intros params b Hb. unfold getInitialMode. rewrite Hb, Hd.
    simpl in Hin. destruct Hin as [E|[E|[E|[]]]]; injection E as <- <-; reflexivity. }
  split.
  - intros params. now apply H.
  - intros params br' Hinit. apply H.
    now destruct (initParams_options br _ br' Hinit).
Qed.

(** On a book of one page whose URL asks for thumbnail mode, the defaults
    'mode/2up' make two-page mode the initial mode, which
    [canSwitchToMode] refuses. *)
Lemma getInitialMode_defaults_override_witness :
  let br := onePageViewer (Some "mode/2up") in
  let br' := BR.setSuppressFragmentChange false br in
  let params :=
    {| Params.index := Some 0%Z; Params.page := None; Params.mode := MNum constModeThumb;
       Params.search := None; Params.theme := None; Params.init := Some true;
       Params.pageFound := Some false; Params.fragmentChange := Some true |} in
  In ("mode/2up", constMode2up) modeStrings /\
  BR.defaults (BR.options br) = Some "mode/2up" /\
  initParams br = (Return params, br') /\
  getInitialMode 1280 800 params br' = MNum constMode2up /\
  canSwitchToMode (MNum constMode2up) br' = false.
Proof.
  intros br br' params.
  assert (Hin : In ("mode/2up", constMode2up) modeStrings) by (simpl; tauto).
  assert (E : initParams br = (Return params, br')) by (vm_compute; reflexivity).
  split; [exact Hin|]. split; [reflexivity|].
  split; [exact E|]. split; [|reflexivity].
  exact (proj2 (getInitialMode_defaults_override 1280 800 br "mode/2up" 2 Hin eq_refl)
           params br' E).
Defined.

(** ** Navigation: what a jump can do *)


Lemma jumpToIndex_step fuel index pageX pageY noAnimate br :
  jumpToIndex (S fuel) index pageX pageY noAnimate br =
    let page := getPage (BR.book br) index in
    if insideUnviewableRun page then
      match _isIndexDisplayed (Page.unviewablesStart page) br with
      | Throw e => Some (Throw e, br)
      | Return alreadyInPreview =>
          match (if alreadyInPreview
                 then option_map Page.index (findNext (BR.book br) page)
                 else Page.unviewablesStart page) with
          | Some n => jumpToIndex fuel n pageX pageY noAnimate br
          | None => Some (Return tt, br)
          end
      end
    else
      match activeMode br with
      | Some r => Some (Return tt, landOn r index pageX pageY noAnimate br)
      | None =>
          Some (Throw (TypeError
                  "Cannot read properties of undefined (reading 'jumpToIndex')"),
                trigger (eventNames "stop") br)
      end.
Proof. reflexivity. Qed.

Lemma insideUnviewableRun_start book i :
  runsHaveStart book ->
  insideUnviewableRun (getPage book i) = true ->
  exists s, Page.unviewablesStart (getPage book i) = Some s.
Proof.
  intros Hbook Hin. apply Hbook. unfold insideUnviewableRun in Hin.
  apply andb_prop in Hin. destruct Hin as (Hv & _).
  now apply negb_true_iff in Hv.
Qed.


Lemma sampleBook_runsHaveStart : runsHaveStart sampleBook.
Proof.
  unfold runsHaveStart. intros i.
  unfold sampleBook, ListBook.make. cbn [getPage List.length].
  set (k := Z.to_nat (i mod Z.of_nat 16)).
  assert (Hk : (k < 16)%nat).
  { unfold k. pose proof (Z.mod_pos_bound i (Z.of_nat 16)). lia. }
  clearbody k. clear i. intros Hin.
  do 16 (destruct k as [|k];
         [ first
             [ solve [vm_compute in Hin; discriminate Hin]
             | vm_compute; eexists; reflexivity ]
         | ]).
  lia.
Qed.


Lemma jumpToIndex_lands fuel j pageX pageY noAnimate br :
  insideUnviewableRun (getPage (BR.book br) j) = false ->
  jumpToIndex (S fuel) j pageX pageY noAnimate br =
    jumpToIndex 1 j pageX pageY noAnimate br /\
  exists result, jumpToIndex 1 j pageX pageY noAnimate br = Some result.
Proof.
  intros Hj. rewrite !jumpToIndex_step. cbv zeta. rewrite Hj.
  split; [reflexivity|]. destruct (activeMode br); eexists; reflexivity.
Qed.

(** X24.  On a book whose pages that are not viewable carry the start of
    their run and whose unviewable runs resolve (from a page inside a run,
    neither the start of the run nor the page [findNext] answers is inside
    a run), [jumpToIndex] calls itself at most once: it completes within
    two nested calls, and a deeper bound gives the same result. *)
Theorem jumpToIndex_terminates (fuel : nat) (index : Z) (pageX pageY : option Q)
    (noAnimate : option bool) (br : BR.t) :
  runsResolve (BR.book br) ->
  (2 <= fuel)%nat ->
  exists result,
    jumpToIndex 2 index pageX pageY noAnimate br = Some result /\
    jumpToIndex fuel index pageX pageY noAnimate br = Some result.
Proof.
  intros (Hhave & Hbook) Hfuel.
  destruct fuel as [|[|fuel]]; [lia|lia|]. clear Hfuel.
  rewrite (jumpToIndex_step (S fuel)), (jumpToIndex_step 1). cbv zeta.
  specialize (Hbook index). cbv zeta in Hbook.
  destruct (insideUnviewableRun (getPage (BR.book br) index)) eqn:Hin.
  - destruct (Hbook eq_refl) as (Hstart & Hnext).
    destruct (insideUnviewableRun_start _ _ Hhave Hin) as (s & Hs).
    destruct (_isIndexDisplayed _ br) as [shown|e]; [|eexists; split; reflexivity].
    destruct shown.
    + destruct (findNext (BR.book br) (getPage (BR.book br) index)) as [next|];
        [|eexists; split; reflexivity].
      cbn [option_map].
      destruct (jumpToIndex_lands fuel (Page.index next) pageX pageY noAnimate br
                  (Hnext next eq_refl)) as (-> & result & ->).
      exists result. auto.
    + rewrite Hs.
      destruct (jumpToIndex_lands fuel s pageX pageY noAnimate br
                  (Hstart s Hs)) as (-> & result & ->).
      exists result. auto.
  - destruct (activeMode br); eexists; split; reflexivity.
Qed.

Lemma sampleBook_runsResolve : runsResolve sampleBook.
Proof.
  split; [exact sampleBook_runsHaveStart|].
  intros i. cbv zeta.
  unfold sampleBook, ListBook.make. cbn [getPage findNext List.length].
  set (k := Z.to_nat (i mod Z.of_nat 16)).
  assert (Hk : (k < 16)%nat).
  { unfold k. pose proof (Z.mod_pos_bound i (Z.of_nat 16)). lia. }
  clearbody k. clear i. intros Hin.
  do 16 (destruct k as [|k];
         [ first
             [ solve [vm_compute in Hin; discriminate Hin]
             | split;
               [ intros s Hs; vm_compute in Hs; injection Hs as <-;
                 vm_compute; reflexivity
               | intros next Hn; vm_compute in Hn; injection Hn as <-;
                 vm_compute; reflexivity ] ]
         | ]).
  lia.
Qed.

Lemma jumpToIndex_terminates_witness :
  let br := sampleViewer sampleBook 3 in
  runsResolve (BR.book br) /\ (2 <= 7)%nat /\
  (exists result,
     jumpToIndex 2 12 None None None br = Some result /\
     jumpToIndex 7 12 None None None br = Some result) /\
  jumpToIndex 7 12 None None None br
    = Some (Return tt, landOn Mode1Up 10 None None None br).
Proof.
  intros br.
  assert (Hf : (2 <= 7)%nat) by lia.
  split; [exact sampleBook_runsResolve|]. split; [exact Hf|].
  split; [|vm_compute; reflexivity].
  exact (jumpToIndex_terminates 7 12 None None None br sampleBook_runsResolve Hf).
Defined.

(** ** One-page mode is always at hand *)

Lemma switchMode_returns target opts br :
  switchAccepted target br = true ->
  (Mode.looseEq (BR.mode br) (resolveMode target) = true \/
   exists r, activeMode br = Some r) ->
  (Mode.looseEqNum (resolveMode target) constModeThumb = true ->
   BR.reductionFactors (BR.options br) <> []) ->
  exists br', switchMode target opts br = (Return tt, br').
Proof.
  intros Hacc Hactive Hfactors.
  rewrite (switchMode_unfold target opts br Hacc). cbv zeta.
  set (md := resolveMode target) in *.
  set (br1 := BR.setPrevReadMode _ (trigger _ br)).
  assert (E2 : exists br2, unprepareActiveMode md br1 = (Return tt, br2) /\
                           BR.options br2 = BR.options br).
  { unfold unprepareActiveMode.
    change (BR.mode br1) with (BR.mode br).
    change (activeMode br1) with (activeMode br).
    destruct (Mode.looseEq (BR.mode br) md); cbn [negb].
    - eexists. split; reflexivity.
    - destruct Hactive as [H|(r & ->)]; [discriminate H|].
      eexists. split; reflexivity. }
  destruct E2 as (br2 & E2 & Hopt2).
  unfold bindM at 1. rewrite E2.
  set (br3 := if scaleDiffers _ _ then _ else BR.setMode md br2).
  assert (Hopt3 : BR.options br3 = BR.options br)
    by (unfold br3; destruct (scaleDiffers _ _); exact Hopt2).
  unfold bindM, prepareMode.
  destruct (Mode.looseEqNum md constMode1up); [eexists; reflexivity|].
  destruct (Mode.looseEqNum md constModeThumb); [|eexists; reflexivity].
  rewrite Hopt3.
  destruct (BR.reductionFactors (BR.options br)) as [|f0 rest];
    [exfalso; now apply Hfactors|].
  unfold quantizeReduce. eexists. reflexivity.
Qed.

(** X25.  One-page mode is always at hand: in a viewer with an active
    renderer, [switchMode] to one-page mode returns, whatever the book
    (an empty one too), the options and the state of initialization, and
    leaves the viewer in one-page mode. *)
Theorem switchMode_one_page (br : BR.t) (target : ModeArg)
    (opts : SwitchModeOptions) (r : Renderer) :
  resolveMode target = MNum constMode1up ->
  activeMode br = Some r ->
  exists br',
    switchMode target opts br = (Return tt, br') /\
    BR.mode br' = MNum constMode1up.
Proof.
  intros Ht Hr.
  destruct (switchAccepted target br) eqn:Hacc.
  - destruct (switchMode_returns target opts br Hacc) as (br' & E).
    + right. eauto.
    + rewrite Ht. discriminate.
    + exists br'. split; [exact E|].
      destruct (switchMode_accepted_result target opts br br' Hacc E) as (Hm & _).
      now rewrite Hm.
  - exists br. unfold switchAccepted in Hacc. unfold switchMode.
    rewrite Ht in *. cbv zeta in Hacc. cbn [Mode.truthy negb andb] in *.
    change (negb (1 =? 0)%Z) with true in *. cbn [negb andb] in *.
    apply negb_false_iff in Hacc.
    destruct (BR.initComplete br); [|discriminate Hacc]. cbn [andb] in *.
    assert (Hcan : canSwitchToMode (MNum constMode1up) br = true) by reflexivity.
    rewrite Hcan in Hacc. cbn [negb] in Hacc. rewrite orb_false_r in Hacc.
    rewrite Hacc. split; [reflexivity|].
    apply strictEq_eq in Hacc. now rewrite <- Hacc.
Qed.

(** From two-page mode on a book of one page. *)
Lemma switchMode_one_page_witness :
  let br := BR.setMode (MNum constMode2up) (sampleViewer onePageBook 0) in
  resolveMode (ArgString "1up") = MNum constMode1up /\
  activeMode br = Some Mode2Up /\
  exists br',
    switchMode (ArgString "1up") noOptions br = (Return tt, br') /\
    BR.mode br' = MNum constMode1up.
Proof.
  intros br. split; [reflexivity|]. split; [reflexivity|].
  exact (switchMode_one_page br (ArgString "1up") noOptions Mode2Up eq_refl eq_refl).
Defined.

(** ** Reading the index back *)

Lemma updateFirstIndex_view x s br :
  BR.firstIndex (updateFirstIndex x s br) = Some x /\
  BR.mode (updateFirstIndex x s br) = BR.mode br /\
  BR.book (updateFirstIndex x s br) = BR.book br.
Proof.
  unfold updateFirstIndex. destruct (firstIndexIs x br) eqn:E.
  - apply firstIndexIs_eq in E. auto.
  - cbv zeta. cbn [BR.suppressFragmentChange BR.setFirstIndex].
    destruct (negb (BR.suppressFragmentChange br || s));
      match goal with
      | |- context [if ?c then _ else _] => destruct c
      end; repeat split.
Qed.

(** X26.  [currentIndex] reads back what [updateFirstIndex] wrote: in
    one-page and thumbnail mode for every index, in two-page mode for an
    index of the book. *)
Theorem currentIndex_after_update (br : BR.t) (x : Z) (suppress : bool) :
  isModeConstant (BR.mode br) ->
  (BR.mode br = MNum constMode2up -> (0 <= x <= getNumLeafs (BR.book br) - 1)%Z) ->
  currentIndex (updateFirstIndex x suppress br) = Return (Some x).
Proof.
  intros Hm Hx.
  destruct (updateFirstIndex_view x suppress br) as (Hf & Hmode & Hbook).
  unfold currentIndex. rewrite Hf, Hmode, Hbook.
  destruct Hm as [E|[E|E]]; rewrite E; cbn [Mode.looseEqNum]; try reflexivity.
  change ((constMode2up =? constMode1up)%Z || (constMode2up =? constModeThumb)%Z)
    with false.
  change ((constMode2up =? constMode2up)%Z) with true. cbv iota.
  specialize (Hx E). unfold clamp. f_equal. f_equal. lia.
Qed.

Lemma currentIndex_after_update_witness :
  let br := BR.setMode (MNum constMode2up) (sampleViewer sampleBook 0) in
  isModeConstant (BR.mode br) /\
  (BR.mode br = MNum constMode2up -> (0 <= 15 <= getNumLeafs (BR.book br) - 1)%Z) /\
  currentIndex (updateFirstIndex 15 false br) = Return (Some 15%Z).
Proof.
  intros br.
  assert (Hm : isModeConstant (BR.mode br)) by (right; left; reflexivity).
  assert (Hx : BR.mode br = MNum constMode2up ->
               (0 <= 15 <= getNumLeafs (BR.book br) - 1)%Z)
    by (intros _; vm_compute; split; discriminate).
  split; [exact Hm|]. split; [exact Hx|].
  exact (currentIndex_after_update br 15 false Hm Hx).
Defined.

(** ** Decoding: what can go wrong *)

Lemma split_forallb (p : ascii -> bool) sep s :
  Str.forallb p s = true ->
  Forall (fun t => Str.forallb p t = true) (Str.split sep s).
Proof.
  induction s as [|c s IH]; intros Hs.
  - repeat constructor.
  - simpl in Hs. apply andb_true_iff in Hs. destruct Hs as (Hc & Hs).
    specialize (IH Hs). cbn [Str.split].
    destruct (Ascii.eqb c sep).
    + constructor; [reflexivity|exact IH].
    + destruct (Str.split sep s) as [|tok toks].
      * repeat constructor. simpl. now rewrite Hc.
      * inversion IH as [|? ? Ht Hts]; subst.
        constructor; [simpl; now rewrite Hc, Ht|exact Hts].
Qed.

Lemma fillUrlHash_values (P : string -> Prop) : forall n urlArray urlHash,
  (List.length urlArray <= n)%nat ->
  Forall P urlArray ->
  (forall key v, urlHashGet key urlHash = Some v -> P v) ->
  forall key v, urlHashGet key (fillUrlHash urlArray urlHash) = Some v -> P v.
Proof.
  induction n as [|n IH]; intros urlArray urlHash Hlen Hall Hacc key v.
  - destruct urlArray; [|simpl in Hlen; lia]. apply Hacc.
  - destruct urlArray as [|k [|val rest]].
    + apply Hacc.
    + cbn [fillUrlHash urlHashGet].
      destruct (String.eqb k key); [discriminate|apply Hacc].
    + cbn [fillUrlHash]. apply (IH rest).
      * simpl in Hlen. lia.
      * inversion Hall as [|? ? _ H1]; subst. inversion H1; subst. assumption.
      * intros key' v'. cbn [urlHashGet].
        destruct (String.eqb k key').
        -- intros E. injection E as <-.
           inversion Hall as [|? ? _ H1]; subst. now inversion H1.
        -- apply Hacc.
Qed.

Lemma stripHash_forallb p fragment :
  Str.forallb p fragment = true -> Str.forallb p (stripHash fragment) = true.
Proof.
  destruct fragment as [|c s]; [auto|]. simpl.
  rewrite andb_true_iff. intros (Hc & Hs).
  destruct c as [[] [] [] [] [] [] [] []]; simpl; try exact Hs;
    now rewrite Hc, Hs.
Qed.

Lemma paramsFromUrlHash_errors urlHash :
  (forall e, paramsFromUrlHash urlHash = Throw e -> e = URIError "URI malformed") /\
  ((forall key v, urlHashGet key urlHash = Some v ->
                  Str.forallb (fun c => negb (Ascii.eqb c "%")) v = true) ->
   exists p, paramsFromUrlHash urlHash = Return p).
Proof.
  unfold paramsFromUrlHash.
  set (withMode := if urlHashIs urlHash "mode" "1up" then _ else _).
  clearbody withMode.
  destruct (urlHashGet "page" urlHash) as [pv|] eqn:Epv;
    [destruct (URI.decodeURIComponent pv) as [pd|pe] eqn:Ep|];
    (destruct (urlHashGet "search" urlHash) as [sv|] eqn:Esv;
     [destruct (URI.decodeURIComponentPlus sv) as [sd|se] eqn:Es|]);
    destruct (urlHashGet "theme" urlHash) as [tv|]; cbn [bindC];
    (split; [intros e E; try discriminate E; injection E as <-;
             first [exact (decodeFrom_throws _ _ _ Ep)
                   |exact (decodeURIComponentPlus_throws _ _ Es)]|]);
    intros Hplain; try (eexists; reflexivity); exfalso.
  all: try (pose proof (decodeURIComponent_plain pv (Hplain _ _ Epv)) as Hd;
            congruence).
  all: pose proof (decodeURIComponent_plain sv (Hplain _ _ Esv)) as Hd;
       unfold URI.decodeURIComponentPlus in Es; rewrite Hd in Es; discriminate Es.
Qed.

(** X27.  [paramsFromFragment] throws nothing but the URIError of a
    malformed escape sequence, and it returns on every fragment that holds
    no '%'. *)
Theorem paramsFromFragment_errors (fragment : string) :
  (forall e, paramsFromFragment fragment = Throw e -> exists msg, e = URIError msg) /\
  (Str.forallb (fun c => negb (Ascii.eqb c "%")) fragment = true ->
   exists p, paramsFromFragment fragment = Return p).
Proof.
  unfold paramsFromFragment.
  destruct (Str.parseAllDigits (stripHash fragment)).
  - split; [discriminate|]. eexists. reflexivity.
  - destruct (paramsFromUrlHash_errors
                (fillUrlHash (Str.split "/" (stripHash fragment)) []))
      as (Hthrow & Hreturn).
    split.
    + intros e E. eexists. exact (Hthrow e E).
    + intros Hplain. apply Hreturn.
      apply (fillUrlHash_values _ _ _ _ (Nat.le_refl _)).
      * apply split_forallb, stripHash_forallb, Hplain.
      * discriminate.
Qed.

Lemma paramsFromFragment_errors_witness :
  (exists msg, paramsFromFragment "page/%E0%A4%A/mode/2up" = Throw (URIError msg)) /\
  Str.forallb (fun c => negb (Ascii.eqb c "%")) "page//mode/9up/x" = true /\
  exists p, paramsFromFragment "page//mode/9up/x" = Return p.
Proof.
  split; [|split; [reflexivity|]].
  - destruct (paramsFromFragment "page/%E0%A4%A/mode/2up") as [p|e] eqn:E;
      [vm_compute in E; discriminate E|].
    destruct (proj1 (paramsFromFragment_errors "page/%E0%A4%A/mode/2up") e E)
      as (msg & ->).
    exists msg. reflexivity.
  - exact (proj2 (paramsFromFragment_errors "page//mode/9up/x") eq_refl).
Defined.

(** ** Merging params *)

(** X28.  [extendParams] normalizes the page into the index: a page
    string of the new params never reaches the result, whose page is that
    of the params extended; when the book finds the page, its index is the
    index of the result, whatever index the new params hold beside it;
    when it does not, or there is no page, the index is that of the new
    params, or else the one already there.  Extending twice by the same
    params is extending once, and extending by the empty params changes
    nothing. *)
Theorem extendParams_normalizes (book : BookModel) (params newParams : Params.t) :
  let result := extendParams book params newParams in
  Params.page result = Params.page params /\
  (forall pg i, Params.page newParams = Some pg -> parsePageString book pg = Some i ->
                Params.index result = Some i) /\
  ((forall pg, Params.page newParams = Some pg -> parsePageString book pg = None) ->
   Params.index result = Params.orElse (Params.index newParams) (Params.index params)) /\
  extendParams book result newParams = result /\
  extendParams book params Params.empty = params.
Proof.
  cbv zeta. split; [|split; [|split; [|split]]].
  - unfold extendParams.
    destruct newParams as [idx pg md sr th ini pf fc].
    destruct pg as [pg|]; cbn; [destruct (parsePageString book pg)|]; reflexivity.
  - intros pg i Hpg Hi. rewrite extendParams_index. unfold normalizedIndex.
    now rewrite Hpg, Hi.
  - intros H. rewrite extendParams_index. unfold normalizedIndex.
    destruct (Params.page newParams) as [pg|]; [|reflexivity].
    now rewrite (H pg eq_refl).
  - unfold extendParams.
    destruct newParams as [idx pg md sr th ini pf fc].
    destruct params as [idx0 pg0 md0 sr0 th0 ini0 pf0 fc0].
    destruct pg as [pg|]; cbn; [destruct (parsePageString book pg); cbn|];
      destruct idx, md, sr, th, ini, pf, fc; reflexivity.
  - destruct params as [idx0 pg0 md0 sr0 th0 ini0 pf0 fc0]. reflexivity.
Qed.

(** ** The query string *)

Lemma wordsThenEquals_shape s : forall seen,
  wordsThenEquals seen s = true ->
  exists name rest,
    s = name ++ "=" ++ rest /\ Str.forallb isWordChar name = true /\
    (seen = false -> name <> "").
Proof.
  induction s as [|c s IH]; intros seen; cbn [wordsThenEquals]; [discriminate|].
  destruct (isWordChar c) eqn:Ec.
  - intros H. destruct (IH true H) as (name & rest & -> & Hname & _).
    exists (String c name), rest. split; [reflexivity|]. split.
    + simpl. now rewrite Ec, Hname.
    + discriminate.
  - intros H. apply andb_true_iff in H. destruct H as (-> & Heq).
    apply Ascii.eqb_eq in Heq. subst c.
    exists "", s. split; [reflexivity|]. split; [reflexivity|discriminate].
Qed.

Lemma sliceAtQuery_shape hash q :
  sliceAtQuery hash = Some q ->
  exists pre name rest,
    hash = pre ++ q /\ q = "?" ++ name ++ "=" ++ rest /\
    name <> "" /\ Str.forallb isWordChar name = true.
Proof.
  induction hash as [|c hash IH]; cbn [sliceAtQuery]; [discriminate|].
  destruct (Ascii.eqb c "?" && wordsThenEquals false hash) eqn:E.
  - intros H. injection H as <-. apply andb_true_iff in E. destruct E as (Hc & Hw).
    apply Ascii.eqb_eq in Hc. subst c.
    destruct (wordsThenEquals_shape hash false Hw) as (name & rest & -> & Hname & Hne).
    exists "", name, rest. repeat split; auto.
  - intros H. destruct (IH H) as (pre & name & rest & -> & Hq & Hne & Hname).
    exists (String c pre), name, rest. repeat split; auto.
Qed.

Lemma sliceAtQuery_none hash :
  Str.forallb (fun c => negb (Ascii.eqb c "?")) hash = true ->
  sliceAtQuery hash = None.
Proof.
  induction hash as [|c hash IH]; [reflexivity|]. simpl.
  rewrite andb_true_iff, negb_true_iff. intros (-> & H). now apply IH.
Qed.

(** X29.  [readQueryString] answers [location.search] whenever that is
    not empty.  Otherwise it answers the end of the hash from a '?' that a
    name of one or more word characters and '=' follow, or the empty string;
    for a hash without '?' it is the empty string. *)
Theorem readQueryString_sources (br : BR.t) :
  (getLocationSearch br <> "" -> readQueryString br = getLocationSearch br) /\
  (getLocationSearch br = "" ->
   (readQueryString br = "" \/
    exists pre name rest,
      getLocationHash br = pre ++ readQueryString br /\
      readQueryString br = "?" ++ name ++ "=" ++ rest /\
      name <> "" /\ Str.forallb isWordChar name = true) /\
   (Str.forallb (fun c => negb (Ascii.eqb c "?")) (getLocationHash br) = true ->
    readQueryString br = "")).
Proof.
  unfold readQueryString. split.
  - destruct (getLocationSearch br); [congruence|reflexivity].
  - intros ->. split.
    + destruct (sliceAtQuery (getLocationHash br)) as [q|] eqn:E; [|now left].
      right. exact (sliceAtQuery_shape _ _ E).
    + intros H. now rewrite (sliceAtQuery_none _ H).
Qed.
